(** * mac-mail-backup: the emlx to mbox converter

    A shallow embedding of [src/mac_mail_backup/converter.py]
    (class [MboxConverter]) and the properties its specification states,
    followed by what [backup.py] and [cli.py] compute around the
    converter and by further properties of the code.

    Conventions of the embedding:
    - a Python [bytes] object is a [list byte];
    - a Python [str] is the list of its code points ([list Z]);
    - [None] results and caught exceptions are [option] values;
    - the clock ([datetime.now()]) is a function from the number of
      readings taken so far to the reading, threaded through the calls;
    - the source tree is read through [os.walk] and [open], given by a
      [filesystem] record, and the output directory is a finite map from
      file names to file contents. The source tree and the output
      directory are taken to be disjoint, and writing the output does not
      fail; the [verbose] flag only prints and is left out.

    The built-ins are those of CPython 3.10 to 3.13 in the C locale. What
    they take from the Unicode database outside ASCII (the decimal
    digits that [\d] and [int] accept, the characters of [\w]) is a
    table given to the functions concerned, and the properties hold of
    every table. Where the model stops short of the built-ins (the limit
    on the length of integer literals, the padding of the year) the
    definition concerned says so. *)

From Stdlib Require Import ZArith Lia Strings.Byte Strings.String.
From stdpp Require Import base option list gmap sorting.

Open Scope Z_scope.

Abbreviation bytes := (list byte).
Abbreviation pystr := (list Z).

(** ** Python built-ins used by the converter *)

Module Py.

Definition byte_val (b : byte) : Z := Z.of_N (Byte.to_N b).

(** Literals: [B "..."] is a [bytes] literal, [U "..."] a [str] literal. *)
Definition B (s : string) : bytes := list_byte_of_string s.
Definition U (s : string) : pystr := byte_val <$> B s.

Definition NL : byte := x0a.

#[global] Instance byte_eq_dec : EqDecision byte := Byte.byte_eq_dec.

(** [s.find(c)] for a one-byte needle; [None] stands for [-1]. *)
Fixpoint find {A} `{EqDecision A} (c : A) (s : list A) : option nat :=
  match s with
  | [] => None
  | x :: s' => if decide (x = c) then Some 0%nat else S <$> find c s'
  end.

(** [s.split(sep)] for a one-element separator. *)
Fixpoint split_on {A} `{EqDecision A} (sep : A) (s : list A) : list (list A) :=
  match s with
  | [] => [[]]
  | x :: s' =>
      if decide (x = sep) then [] :: split_on sep s'
      else match split_on sep s' with
           | l :: ls => (x :: l) :: ls
           | [] => [[x]]
           end
  end.

(** [sep.join(ls)] for a one-element separator. *)
Fixpoint join_with {A} (sep : A) (ls : list (list A)) : list A :=
  match ls with
  | [] => []
  | l :: ls' =>
      match ls' with
      | [] => l
      | _ :: _ => l ++ sep :: join_with sep ls'
      end
  end.

Fixpoint startswith {A} `{EqDecision A} (p s : list A) : bool :=
  match p, s with
  | [], _ => true
  | _ :: _, [] => false
  | a :: p', b :: s' => if decide (b = a) then startswith p' s' else false
  end.

Definition endswith {A} `{EqDecision A} (p s : list A) : bool :=
  startswith (reverse p) (reverse s).

Definition contains {A} `{EqDecision A} (c : A) (s : list A) : bool :=
  bool_decide (c ∈ s).

(** [s[start:stop]] with Python's treatment of negative and
    out-of-range indices (step 1). *)
Definition slice_index (len i : Z) : Z :=
  if i <? 0 then Z.max 0 (i + len) else Z.min i len.

Definition slice {A} (s : list A) (start stop : Z) : list A :=
  let len := Z.of_nat (length s) in
  let a := slice_index len start in
  let b := slice_index len stop in
  take (Z.to_nat (b - a)) (drop (Z.to_nat a) s).

(** [bytes.decode('ascii')]: [None] is [UnicodeDecodeError]. *)
Definition decode_ascii (s : bytes) : option pystr :=
  if forallb (fun b => byte_val b <? 128) s then Some (byte_val <$> s) else None.

(** Unicode white space, as [str.isspace], [str.strip], [str.split] and
    the regular expression class [\s] see it. *)
Definition is_space (c : Z) : bool :=
  ((9 <=? c) && (c <=? 13)) || ((28 <=? c) && (c <=? 32))
  || (c =? 133) || (c =? 160) || (c =? 5760)
  || ((8192 <=? c) && (c <=? 8202))
  || (c =? 8232) || (c =? 8233) || (c =? 8239) || (c =? 8287) || (c =? 12288).

Fixpoint lstrip (s : pystr) : pystr :=
  match s with
  | c :: s' => if is_space c then lstrip s' else s
  | [] => []
  end.

Definition rstrip (s : pystr) : pystr := reverse (lstrip (reverse s)).

Definition strip (s : pystr) : pystr := rstrip (lstrip s).

Definition digit_val (c : Z) : option Z :=
  if (48 <=? c) && (c <=? 57) then Some (c - 48) else None.

(** The digits of an integer literal: decimal digits, with single
    underscores allowed between two digits. [dv] gives the value of a
    decimal digit; [prev_digit] tells whether the character just before
    was a digit. *)
Fixpoint int_digits (dv : Z -> option Z) (acc : Z) (prev_digit : bool) (s : pystr)
    : option Z :=
  match s with
  | [] => if prev_digit then Some acc else None
  | c :: s' =>
      match dv c with
      | Some d => int_digits dv (acc * 10 + d) true s'
      | None =>
          if (c =? 95) && prev_digit then int_digits dv acc false s' else None
      end
  end.

(** The default of [sys.get_int_max_str_digits()]: from CPython 3.10.7,
    [int] refuses a literal of more digits than this, with [ValueError],
    unless the interpreter is configured otherwise. *)
Definition int_max_str_digits : nat := 4300.

(** [int(s)] for a [str]; [None] is [ValueError]. White space around the
    literal is skipped, then an optional sign, then the digits, whose
    values [dv] gives. The check of the number of digits against
    [int_max_str_digits] is not made here: a property that starts from a
    text of digits, rather than from what [int] returns, is stated of
    texts within that limit. *)
Definition int_with (dv : Z -> option Z) (s : pystr) : option Z :=
  match strip s with
  | c :: r =>
      if c =? 43 then int_digits dv 0 false r
      else if c =? 45 then Z.opp <$> int_digits dv 0 false r
      else int_digits dv 0 false (c :: r)
  | [] => None
  end.

(** [int(s)] for a [str] of ASCII characters, as [decode('ascii')]
    returns them: the digits are the ASCII ones. *)
Definition int (s : pystr) : option Z := int_with digit_val s.

Definition byte_of (z : Z) : byte := default x00 (Byte.of_N (Z.to_N z)).

(** [str(n).encode()] for a natural number: its decimal digits, the most
    significant first. [fuel] bounds the number of digits. *)
Fixpoint decimal_digits (fuel : nat) (n : Z) (acc : bytes) : bytes :=
  match fuel with
  | O => acc
  | S fuel' =>
      let acc' := byte_of (48 + n mod 10) :: acc in
      if n / 10 =? 0 then acc' else decimal_digits fuel' (n / 10) acc'
  end.

Definition decimal (n : nat) : bytes := decimal_digits (S n) (Z.of_nat n) [].

Fixpoint take_while {A} (f : A -> bool) (s : list A) : list A :=
  match s with
  | x :: s' => if f x then x :: take_while f s' else []
  | [] => []
  end.

(** [str.split()[0]]: the first white-space-delimited token; [None] is
    the [IndexError] of indexing an empty list. *)
Definition first_token (s : pystr) : option pystr :=
  match lstrip s with
  | [] => None
  | c :: r => Some (c :: take_while (fun x => negb (is_space x)) r)
  end.

(** [s.replace(c, '')] and [s.replace(c, d)] for one-character [c]. *)
Definition remove_char (c : Z) (s : pystr) : pystr :=
  filter (fun x => x ≠ c) s.
Definition replace_char (c d : Z) (s : pystr) : pystr :=
  (fun x => if decide (x = c) then d else x) <$> s.

(** [s.replace(pat, '')] for a non-empty [pat]: occurrences are removed
    from left to right, without overlap. [skip] counts the characters
    of the occurrence being removed that are still to be dropped. *)
Fixpoint remove_sub_from (pat : pystr) (skip : nat) (s : pystr) : pystr :=
  match s with
  | [] => []
  | c :: s' =>
      match skip with
      | S k => remove_sub_from pat k s'
      | O => if startswith pat s then remove_sub_from pat (pred (length pat)) s'
             else c :: remove_sub_from pat O s'
      end
  end.
Definition remove_sub (pat s : pystr) : pystr := remove_sub_from pat O s.

(** [content.split(b'\n\n')[0]]: what comes before the first blank line. *)
Fixpoint before_blank_line (s : bytes) : bytes :=
  match s with
  | [] => []
  | x :: s' =>
      if bool_decide (x = NL) && startswith [NL] s' then []
      else x :: before_blank_line s'
  end.

(** *** UTF-8 *)

Definition REPLACEMENT : Z := 65533.

(** The decoder's state between two bytes: at a character boundary, or
    inside a sequence with [need] continuation bytes to come, the next
    of which has to lie in [lo..hi]. *)
Inductive utf8_state :=
| Boundary
| Inside (acc : Z) (need : nat) (lo hi : Z).

(** A byte read at a character boundary: the character it is, if any,
    and the state after it. *)
Definition utf8_lead (v : Z) : option Z * utf8_state :=
  if v <? 128 then (Some v, Boundary)
  else if (194 <=? v) && (v <=? 223) then (None, Inside (v - 192) 1 128 191)
  else if v =? 224 then (None, Inside 0 2 160 191)
  else if v =? 237 then (None, Inside 13 2 128 159)
  else if (225 <=? v) && (v <=? 239) then (None, Inside (v - 224) 2 128 191)
  else if v =? 240 then (None, Inside 0 3 144 191)
  else if (241 <=? v) && (v <=? 243) then (None, Inside (v - 240) 3 128 191)
  else if v =? 244 then (None, Inside 4 3 128 143)
  else (Some REPLACEMENT, Boundary).

Definition emit (c : option Z) (s : pystr) : pystr :=
  match c with Some x => x :: s | None => s end.

(** [bytes.decode('utf-8', errors='replace')]: every maximal ill-formed
    part is replaced by U+FFFD and decoding resumes at the byte that did
    not fit. *)
Fixpoint utf8_decode_from (st : utf8_state) (s : bytes) : pystr :=
  match s with
  | [] => match st with Boundary => [] | Inside _ _ _ _ => [REPLACEMENT] end
  | b :: s' =>
      let v := byte_val b in
      match st with
      | Boundary =>
          let '(c, st') := utf8_lead v in emit c (utf8_decode_from st' s')
      | Inside acc need lo hi =>
          if (lo <=? v) && (v <=? hi) then
            let acc' := acc * 64 + (v - 128) in
            match need with
            | S (S n) => utf8_decode_from (Inside acc' (S n) 128 191) s'
            | _ => acc' :: utf8_decode_from Boundary s'
            end
          else
            let '(c, st') := utf8_lead v in
            REPLACEMENT :: emit c (utf8_decode_from st' s')
      end
  end.

Definition decode_utf8_replace (s : bytes) : pystr := utf8_decode_from Boundary s.

(** One character of [str.encode('utf-8')]; [None] is
    [UnicodeEncodeError] (a surrogate). *)
Definition utf8_encode_char (c : Z) : option bytes :=
  if (c <? 0) || (1114111 <? c) then None
  else if c <? 128 then Some [byte_of c]
  else if c <? 2048 then Some [byte_of (192 + c / 64); byte_of (128 + c mod 64)]
  else if (55296 <=? c) && (c <=? 57343) then None
  else if c <? 65536 then
    Some [byte_of (224 + c / 4096); byte_of (128 + (c / 64) mod 64);
          byte_of (128 + c mod 64)]
  else
    Some [byte_of (240 + c / 262144); byte_of (128 + (c / 4096) mod 64);
          byte_of (128 + (c / 64) mod 64); byte_of (128 + c mod 64)].

Fixpoint encode_utf8 (s : pystr) : option bytes :=
  match s with
  | [] => Some []
  | c :: s' =>
      b ← utf8_encode_char c;
      r ← encode_utf8 s';
      Some (b ++ r)
  end.

(** *** Ordering of [str], as [sorted] uses it *)

Fixpoint str_leb (a b : pystr) : bool :=
  match a, b with
  | [], _ => true
  | _ :: _, [] => false
  | x :: a', y :: b' => (x <? y) || ((x =? y) && str_leb a' b')
  end.

Definition str_le (a b : pystr) : Prop := str_leb a b = true.

#[global] Instance str_le_dec : RelDecision str_le.
Proof. intros a b. unfold str_le. apply _. Defined.

(** [sorted(l)] for a list of [str]. The order is total and
    antisymmetric, so every sorting algorithm returns the same list. *)
Definition sorted (l : list pystr) : list pystr := merge_sort str_le l.

(** [os.path.join(a, b)] on POSIX. *)
Definition path_join (a b : pystr) : pystr :=
  if startswith [47] b then b
  else if bool_decide (a = []) || endswith [47] a then a ++ b
  else a ++ 47 :: b.

End Py.

(** ** The regular expressions of [get_from_line]

    Each function is the backtracking matcher of one pattern, under the
    flags the source passes ([MULTILINE] and [IGNORECASE]): [.] is any
    character but the line feed, [^] holds at the start of the text and
    after a line feed, [$] at its end and before a line feed. *)

Module Regex.
Import Py.

Definition ascii_lower (c : Z) : Z :=
  if (65 <=? c) && (c <=? 90) then c + 32 else c.

(** Whether the character [c] matches the character [a] of a literal
    under [IGNORECASE]; [a] is an ASCII character, in lower case when it
    is a letter. [re] compares the lower case of [c], and lets in the
    characters that have the upper case of [a]: the capital I with a dot
    (U+0130) and the Kelvin sign (U+212A) have the lower cases [i] and
    [k], the dotless i (U+0131) and the long s (U+017F) the upper cases
    [I] and [S]. *)
Definition ci_match (a c : Z) : bool :=
  (ascii_lower c =? a)
  || ((a =? 105) && ((c =? 304) || (c =? 305)))
  || ((a =? 115) && (c =? 383))
  || ((a =? 107) && (c =? 8490)).

(** A literal matched without regard to case: what is left of [s] after
    it. [lit] is given in lower case. *)
Fixpoint literal_ci (lit s : pystr) : option pystr :=
  match lit, s with
  | [], _ => Some s
  | _ :: _, [] => None
  | a :: lit', c :: s' => if ci_match a c then literal_ci lit' s' else None
  end.

Definition at_eol (s : pystr) : bool :=
  match s with
  | [] => true
  | c :: _ => c =? 10
  end.

(** [(.+?)$]: the group. The lazy [.+?] takes one character and then one
    more at a time until [$] holds. *)
Fixpoint lazy_dots_eol (s : pystr) : option pystr :=
  match s with
  | [] => None
  | c :: s' =>
      if c =? 10 then None
      else if at_eol s' then Some [c]
      else cons c <$> lazy_dots_eol s'
  end.

(** [\s*(.+?)$]: the greedy [\s*] first tries to take one more white-space
    character, and gives it back when the rest then fails. *)
Fixpoint spaces_then_value (s : pystr) : option pystr :=
  match s with
  | [] => lazy_dots_eol s
  | c :: s' =>
      if is_space c then
        match spaces_then_value s' with
        | Some g => Some g
        | None => lazy_dots_eol s
        end
      else lazy_dots_eol s
  end.

(** [re.search('^<name>\s*(.+?)$', s, MULTILINE | IGNORECASE)]: group 1
    of the leftmost match. [name] carries its colon and is in lower case;
    [bol] tells whether [^] holds where [s] starts. *)
Fixpoint header_search_from (name : pystr) (bol : bool) (s : pystr) : option pystr :=
  let here := if bol then literal_ci name s ≫= spaces_then_value else None in
  match here with
  | Some g => Some g
  | None =>
      match s with
      | [] => None
      | c :: s' => header_search_from name (c =? 10) s'
      end
  end.

Definition header_search (name s : pystr) : option pystr :=
  header_search_from name true s.

(** [[^>]+>] with an empty lower bound: the characters up to the next
    [>], when there is one. *)
Fixpoint upto_gt (s : pystr) : option pystr :=
  match s with
  | [] => None
  | c :: s' => if c =? 62 then Some [] else cons c <$> upto_gt s'
  end.

(** [re.search('<([^>]+)>', s)]: group 1 of the leftmost match. *)
Fixpoint angle_search (s : pystr) : option pystr :=
  match s with
  | [] => None
  | c :: s' =>
      match (if c =? 60 then upto_gt s' else None) with
      | Some (x :: g) => Some (x :: g)
      | _ => angle_search s'
      end
  end.

End Regex.

(** ** [datetime]: the part [get_from_line] uses *)

Module Datetime.
Import Py.

Definition is_leap (y : Z) : bool :=
  (y mod 4 =? 0) && (negb (y mod 100 =? 0) || (y mod 400 =? 0)).

Definition days_in_month (y m : Z) : Z :=
  if m =? 2 then (if is_leap y then 29 else 28)
  else if (m =? 4) || (m =? 6) || (m =? 9) || (m =? 11) then 30
  else 31.

Definition days_before_year (y : Z) : Z :=
  let y := y - 1 in y * 365 + y / 4 - y / 100 + y / 400.

Definition days_before_month (y m : Z) : Z :=
  nth (Z.to_nat (m - 1)) [0; 31; 59; 90; 120; 151; 181; 212; 243; 273; 304; 334] 0
  + (if (2 <? m) && is_leap y then 1 else 0).

(** [date.toordinal()] and [date.weekday()] (Monday is 0). *)
Definition ymd2ord (y m d : Z) : Z :=
  days_before_year y + days_before_month y m + d.

Definition weekday_of (y m d : Z) : Z := (ymd2ord y m d + 6) mod 7.

(** The range checks of the [datetime] constructor. *)
Definition fields_ok (y m d hh mm ss : Z) : bool :=
  (1 <=? y) && (y <=? 9999) && (1 <=? m) && (m <=? 12)
  && (1 <=? d) && (d <=? days_in_month y m)
  && (0 <=? hh) && (hh <=? 23) && (0 <=? mm) && (mm <=? 59)
  && (0 <=? ss) && (ss <=? 59).

(** A [datetime] object: its fields have passed the constructor's
    checks. The time zone a parsed date may carry is not kept: the
    layout rendered below shows none of it. *)
Record datetime := {
  dt_year : Z; dt_month : Z; dt_day : Z;
  dt_hour : Z; dt_minute : Z; dt_second : Z;
  dt_ok : fields_ok dt_year dt_month dt_day dt_hour dt_minute dt_second = true
}.

(** [datetime(y, m, d, hh, mm, ss)]; [None] is [ValueError]. *)
Definition make (y m d hh mm ss : Z) : option datetime :=
  match Bool.bool_dec (fields_ok y m d hh mm ss) true with
  | left ok => Some (Build_datetime y m d hh mm ss ok)
  | right _ => None
  end.

Definition day_abbr : list pystr :=
  U <$> ["Mon"; "Tue"; "Wed"; "Thu"; "Fri"; "Sat"; "Sun"]%string.

Definition month_abbr : list pystr :=
  U <$> ["Jan"; "Feb"; "Mar"; "Apr"; "May"; "Jun";
         "Jul"; "Aug"; "Sep"; "Oct"; "Nov"; "Dec"]%string.

Definition digit_char (n : Z) : Z := 48 + n.

Definition two_digits (n : Z) : pystr :=
  [digit_char (n / 10); digit_char (n mod 10)].

Definition four_digits (n : Z) : pystr :=
  [digit_char (n / 1000); digit_char ((n / 100) mod 10);
   digit_char ((n / 10) mod 10); digit_char (n mod 10)].

(** [dt.strftime('%a %b %d %H:%M:%S %Y')], with the English names of the
    C locale and the year padded to four digits (as the C library of
    macOS, the system of Apple Mail, does; the padding of a year before
    1000 is left to the C library). *)
Definition strftime (dt : datetime) : pystr :=
  nth (Z.to_nat (weekday_of (dt_year dt) (dt_month dt) (dt_day dt))) day_abbr []
  ++ [32] ++ nth (Z.to_nat (dt_month dt - 1)) month_abbr []
  ++ [32] ++ two_digits (dt_day dt)
  ++ [32] ++ two_digits (dt_hour dt)
  ++ [58] ++ two_digits (dt_minute dt)
  ++ [58] ++ two_digits (dt_second dt)
  ++ [32] ++ four_digits (dt_year dt).

(** *** [datetime.strptime]

    [_strptime] turns the format into a regular expression, matches it
    at the start of the text and refuses text left over. A matcher below
    returns, in the order in which backtracking tries them, the ways its
    pattern matches at the start of the text, each with what it found
    and the text that is left. The names of days and months are the
    English ones, those of the C locale. *)

Definition matcher (A : Type) : Type := pystr -> list (A * pystr).

Definition m_ret {A} (a : A) : matcher A := fun s => [(a, s)].

Definition m_bind {A B} (p : matcher A) (f : A -> matcher B) : matcher B :=
  fun s => '(a, r) ← p s; f a r.

Definition m_alt {A} (p q : matcher A) : matcher A := fun s => p s ++ q s.

Definition m_char (ok : Z -> bool) : matcher Z :=
  fun s => match s with
           | c :: r => if ok c then [(c, r)] else []
           | [] => []
           end.

(** An ASCII digit in [lo..hi], as the class [[lo-hi]] has it; its
    value. *)
Definition m_digit (lo hi : Z) : matcher Z :=
  fun s => match s with
           | c :: r => if (48 + lo <=? c) && (c <=? 48 + hi) then [(c - 48, r)] else []
           | [] => []
           end.

(** Two digits; the number [int] makes of them. *)
Definition m_two (p q : matcher Z) : matcher Z :=
  m_bind p (fun a => m_bind q (fun b => m_ret (10 * a + b))).

(** [\s+], greedy: the longest run first. *)
Fixpoint m_spaces (s : pystr) : list (unit * pystr) :=
  match s with
  | c :: r => if is_space c then m_spaces r ++ [(tt, r)] else []
  | [] => []
  end.

(** An alternation of names, matched without regard to case; the text
    found. *)
Fixpoint m_names (names : list pystr) : matcher pystr :=
  fun s =>
    match names with
    | [] => []
    | n :: names' =>
        match Regex.literal_ci (Regex.ascii_lower <$> n) s with
        | Some r => (take (length n) s, r) :: m_names names' s
        | None => m_names names' s
        end
    end.

(** [str.lower], on the characters that the text found for a name can
    hold: the ASCII letters and the four characters that [IGNORECASE]
    lets stand for one, of which the capital I with a dot becomes an [i]
    and a combining dot, and the Kelvin sign a [k]. *)
Definition lower_char (c : Z) : pystr :=
  if c =? 304 then [105; 775]
  else if c =? 8490 then [107]
  else [Regex.ascii_lower c].

Definition lower (s : pystr) : pystr := s ≫= lower_char.

(** [names.index(text.lower())] on the names in lower case, as
    [LocaleTime] keeps them; [None] is the [ValueError] of [index]. *)
Definition name_index (names : list pystr) (text : pystr) : option nat :=
  fst <$> list_find (fun n => n = lower text) (lower <$> names).

(** The text a matcher consumed. *)
Definition m_text {A} (p : matcher A) : matcher pystr :=
  fun s => '(_, r) ← p s; [(take (length s - length r)%nat s, r)].

Definition m_opt (p : matcher unit) : matcher unit := m_alt p (m_ret tt).

Definition m_seq (p q : matcher unit) : matcher unit := m_bind p (fun _ => q).

Definition m_skip {A} (p : matcher A) : matcher unit := m_bind p (fun _ => m_ret tt).

Definition m_lit (c : Z) : matcher unit := m_skip (m_char (Z.eqb c)).

(** The class [\d] of a [str] pattern holds the decimal digits of every
    script, and [int] reads them all. [unicode_decimal] is the table of
    the Unicode database: the value of a decimal digit (category Nd)
    that is not an ASCII one. *)
Section Strptime.
Variable unicode_decimal : Z -> option Z.

Definition decimal_value (c : Z) : option Z :=
  match digit_val c with
  | Some d => Some d
  | None => if c <? 128 then None else unicode_decimal c
  end.

(** [\d]; the value of the digit. *)
Definition m_d : matcher Z :=
  fun s => match s with
           | c :: r => match decimal_value c with Some d => [(d, r)] | None => [] end
           | [] => []
           end.

(** [\d{1,n}], greedy. *)
Fixpoint m_digits_upto (n : nat) : matcher unit :=
  match n with
  | O => fun _ => []
  | S k => m_seq (m_skip m_d) (m_opt (m_digits_upto k))
  end.

(** [%z]: [[+-]\d\d:?[0-5]\d(:?[0-5]\d(\.\d{1,6})?)?|(?-i:Z)]. *)
Definition m_zone : matcher pystr :=
  m_text (m_alt
    (m_seq (m_skip (m_char (fun c => (c =? 43) || (c =? 45))))
    (m_seq (m_skip m_d) (m_seq (m_skip m_d)
    (m_seq (m_opt (m_lit 58))
    (m_seq (m_skip (m_digit 0 5)) (m_seq (m_skip m_d)
    (m_opt (m_seq (m_opt (m_lit 58))
           (m_seq (m_skip (m_digit 0 5)) (m_seq (m_skip m_d)
           (m_opt (m_seq (m_lit 46) (m_digits_upto 6)))))))))))))
    (m_lit 90)).

(** What [_strptime] does with the text found for [%z]; [false] is a
    [ValueError], raised there or by the [timezone] constructor, which
    wants an offset of less than a day. *)
Definition zone_ok (z0 : pystr) : bool :=
  if bool_decide (z0 = [90]) then true
  else
    let check (z : pystr) : bool :=
      let int := int_with decimal_value in
      match int (slice z 1 3), int (slice z 3 5),
            (match slice z 5 7 with [] => Some 0 | sec => int sec end),
            (match slice z 8 (Z.of_nat (length z)) with
             | [] => Some 0
             | frac => int (frac ++ replicate (6 - length frac) 48)
             end) with
      | Some hours, Some _, Some _, Some _ => hours <? 24
      | _, _, _, _ => false
      end in
    if bool_decide (z0 !! 3%nat = Some 58) then
      let z := take 3 z0 ++ drop 4 z0 in
      if (5 <? length z)%nat then
        if bool_decide (z !! 5%nat = Some 58) then check (take 5 z ++ drop 6 z)
        else false
      else check z
    else check z0.

(** The directives of the formats, and the literal characters and white
    space between them. *)
Inductive directive :=
| Da | Dd | Db | DY | DH | DM | DS | Dz
| Lit (c : Z)
| Space.

(** The [found_dict] of [_strptime], with the defaults of the fields
    that no directive sets: the numbers as [int] reads them from the
    digits found, and the text found for [%a], [%b] and [%z], which
    [_strptime] converts after the match. *)
Record found := {
  f_year : Z; f_a : option pystr; f_b : option pystr; f_day : Z;
  f_hour : Z; f_minute : Z; f_second : Z;
  f_zone : option pystr
}.

Definition found_default : found :=
  {| f_year := 1900; f_a := None; f_b := None; f_day := 1;
     f_hour := 0; f_minute := 0; f_second := 0; f_zone := None |}.

(** The regular expression of one directive, and what it records. *)
Definition m_directive (d : directive) (f : found) : matcher found :=
  match d with
  | Da =>
      m_bind (m_names day_abbr)
        (fun t => m_ret {| f_year := f_year f; f_a := Some t; f_b := f_b f;
                           f_day := f_day f;
                           f_hour := f_hour f; f_minute := f_minute f;
                           f_second := f_second f; f_zone := f_zone f |})
  | Dd => (* 3[0-1]|[1-2]\d|0[1-9]|[1-9]| [1-9] *)
      m_bind (m_alt (m_two (m_digit 3 3) (m_digit 0 1))
             (m_alt (m_two (m_digit 1 2) m_d)
             (m_alt (m_two (m_digit 0 0) (m_digit 1 9))
             (m_alt (m_digit 1 9) (m_bind (m_lit 32) (fun _ => m_digit 1 9))))))
        (fun v => m_ret {| f_year := f_year f; f_a := f_a f; f_b := f_b f; f_day := v;
                           f_hour := f_hour f; f_minute := f_minute f;
                           f_second := f_second f; f_zone := f_zone f |})
  | Db =>
      m_bind (m_names month_abbr)
        (fun t => m_ret {| f_year := f_year f; f_a := f_a f; f_b := Some t;
                           f_day := f_day f;
                           f_hour := f_hour f; f_minute := f_minute f;
                           f_second := f_second f; f_zone := f_zone f |})
  | DY => (* \d\d\d\d *)
      m_bind (m_two m_d m_d) (fun hi => m_bind (m_two m_d m_d) (fun lo =>
        m_ret {| f_year := 100 * hi + lo; f_a := f_a f; f_b := f_b f; f_day := f_day f;
                 f_hour := f_hour f; f_minute := f_minute f;
                 f_second := f_second f; f_zone := f_zone f |}))
  | DH => (* 2[0-3]|[0-1]\d|\d *)
      m_bind (m_alt (m_two (m_digit 2 2) (m_digit 0 3))
             (m_alt (m_two (m_digit 0 1) m_d) m_d))
        (fun v => m_ret {| f_year := f_year f; f_a := f_a f; f_b := f_b f; f_day := f_day f;
                           f_hour := v; f_minute := f_minute f;
                           f_second := f_second f; f_zone := f_zone f |})
  | DM => (* [0-5]\d|\d *)
      m_bind (m_alt (m_two (m_digit 0 5) m_d) m_d)
        (fun v => m_ret {| f_year := f_year f; f_a := f_a f; f_b := f_b f; f_day := f_day f;
                           f_hour := f_hour f; f_minute := v;
                           f_second := f_second f; f_zone := f_zone f |})
  | DS => (* 6[0-1]|[0-5]\d|\d *)
      m_bind (m_alt (m_two (m_digit 6 6) (m_digit 0 1))
             (m_alt (m_two (m_digit 0 5) m_d) m_d))
        (fun v => m_ret {| f_year := f_year f; f_a := f_a f; f_b := f_b f; f_day := f_day f;
                           f_hour := f_hour f; f_minute := f_minute f;
                           f_second := v; f_zone := f_zone f |})
  | Dz =>
      m_bind m_zone
        (fun z => m_ret {| f_year := f_year f; f_a := f_a f; f_b := f_b f; f_day := f_day f;
                           f_hour := f_hour f; f_minute := f_minute f;
                           f_second := f_second f; f_zone := Some z |})
  | Lit c => m_bind (m_lit c) (fun _ => m_ret f)
  | Space => m_bind m_spaces (fun _ => m_ret f)
  end.

Fixpoint m_format (fmt : list directive) (f : found) : matcher found :=
  match fmt with
  | [] => m_ret f
  | d :: fmt' => m_bind (m_directive d f) (m_format fmt')
  end.

(** [datetime.strptime(data, fmt)]; [None] is [ValueError]: the text
    does not match, text is left over, the text found for a name is not
    in the table of the names (it holds a character that is not an ASCII
    letter), the zone is refused, or the fields do not make a date. The
    month is 1 where the format has no [%b]. *)
Definition strptime (data : pystr) (fmt : list directive) : option datetime :=
  match m_format fmt found_default data with
  | (f, []) :: _ =>
      match from_option (name_index day_abbr) (Some O) (f_a f),
            from_option (name_index month_abbr) (Some O) (f_b f) with
      | Some _, Some month =>
          if match f_zone f with Some z => zone_ok z | None => true end
          then make (f_year f) (Z.of_nat month + 1) (f_day f)
                    (f_hour f) (f_minute f) (f_second f)
          else None
      | _, _ => None
      end
  | _ => None
  end.

End Strptime.

End Datetime.

(** ** The source tree *)

(** What the converter sees of the file system it reads from. *)
Record filesystem := {
  (** [os.walk(top)]: the [(root, dirs, files)] triples, in the order in
      which [os.walk] yields them. *)
  fs_walk : pystr -> list (pystr * list pystr * list pystr);
  (** [open(path, 'rb').read()]; [None] when it raises. *)
  fs_read : pystr -> option bytes;
  (** [os.path.relpath(path, start)]. *)
  fs_relpath : pystr -> pystr -> pystr
}.

(** ** MboxConverter *)

Module MboxConverter.
Import Py.

(** Lines 43-57 of [parse_emlx]: the work on the bytes read. *)
Definition parse_emlx_bytes (content : bytes) : option bytes :=
  match find NL content with
  | None => None
  | Some first_newline =>
      let byte_count :=
        match decode_ascii (take first_newline content) ≫= (fun s => int (strip s)) with
        | Some n => n
        | None => Z.of_nat (length content) - Z.of_nat first_newline - 1
        end in
      let email_start := Z.of_nat first_newline + 1 in
      Some (slice content email_start (email_start + byte_count))
  end.

(** [parse_emlx]: every exception, the one of [open] included, is caught
    and turned into [None]. *)
Definition parse_emlx (fs : filesystem) (emlx_path : pystr) : option bytes :=
  match fs_read fs emlx_path with
  | None => None
  | Some content => parse_emlx_bytes content
  end.

Definition escape_from_lines (content : bytes) : bytes :=
  let lines := split_on NL content in
  let escaped :=
    (fun line => if startswith (B "From ") line
                 then B ">From " ++ drop 5 line
                 else line) <$> lines in
  join_with NL escaped.

Definition MAILER_DAEMON : pystr := U "MAILER-DAEMON".

(** Lines 83-93 of [get_from_line]: the sender. [None] is the
    [IndexError] that [split()[0]] would raise on a value without a
    token; the handler at the end of [get_from_line] catches it. *)
Definition extract_sender (headers : pystr) : option pystr :=
  match Regex.header_search (U "from:") headers with
  | Some g =>
      let sender_raw := strip g in
      match Regex.angle_search sender_raw with
      | Some address => Some address
      | None =>
          if contains 64 sender_raw then
            if contains 32 sender_raw then first_token sender_raw
            else Some sender_raw
          else Some MAILER_DAEMON
      end
  | None => Some MAILER_DAEMON
  end.

Import Datetime.

(** The formats tried, in order:
    ['%a, %d %b %Y %H:%M:%S %z'], ['%d %b %Y %H:%M:%S %z'],
    ['%a, %d %b %Y %H:%M:%S'] and ['%d %b %Y %H:%M:%S']. *)
Definition date_formats : list (list directive) :=
  [ [Da; Lit 44; Space; Dd; Space; Db; Space; DY; Space;
     DH; Lit 58; DM; Lit 58; DS; Space; Dz];
    [Dd; Space; Db; Space; DY; Space; DH; Lit 58; DM; Lit 58; DS; Space; Dz];
    [Da; Lit 44; Space; Dd; Space; Db; Space; DY; Space;
     DH; Lit 58; DM; Lit 58; DS];
    [Dd; Space; Db; Space; DY; Space; DH; Lit 58; DM; Lit 58; DS] ].

Section Conversion.

(** The decimal digits outside ASCII and their values, for [strptime]: a
    table of the interpreter's Unicode database. *)
Variable unicode_decimal : Z -> option Z.

(** The loop over the formats: the first that parses wins. *)
Fixpoint try_formats (date_str : pystr) (fmts : list (list directive)) : option datetime :=
  match fmts with
  | [] => None
  | fmt :: fmts' =>
      match strptime unicode_decimal date_str fmt with
      | Some dt => Some dt
      | None => try_formats date_str fmts'
      end
  end.

(** The value of the [Date] field, parsed: [None] when there is no such
    field or no format parses it. *)
Definition parsed_date (headers : pystr) : option datetime :=
  match Regex.header_search (U "date:") headers with
  | Some g => try_formats (take 31 (strip g)) date_formats
  | None => None
  end.

(** Lines 96-112 of [get_from_line]: the timestamp. [now] is the reading
    of the clock taken on line 96. *)
Definition format_date (now : datetime) (headers : pystr) : pystr :=
  let date_formatted := strftime now in
  match parsed_date headers with
  | Some dt => strftime dt
  | None => date_formatted
  end.

Definition header_text (email_content : bytes) : pystr :=
  decode_utf8_replace (before_blank_line email_content).

(** [get_from_line]. A call reads the clock once, on line 96 or, when
    the sender extraction has raised before that line, in the handler:
    [now] is that reading. *)
Definition get_from_line (now : datetime) (email_content : bytes) : pystr :=
  let headers := header_text email_content in
  match extract_sender headers with
  | Some sender =>
      U "From " ++ sender ++ [32] ++ format_date now headers ++ [10]
  | None => U "From MAILER-DAEMON " ++ strftime now ++ [10]
  end.

(** The paths collected by the loop of [find_emlx_files], before they
    are sorted. *)
Definition emlx_candidates (fs : filesystem) (directory : pystr) : list pystr :=
  '(root, _, files) ← fs_walk fs directory;
  file ← files;
  if endswith (U ".emlx") file || endswith (U ".partial.emlx") file
  then [path_join root file] else [].

Definition find_emlx_files (fs : filesystem) (directory : pystr) : list pystr :=
  sorted (emlx_candidates fs directory).

(** The state of the loop of [convert_folder]: what has been written to
    the file, [count], and the number of clock readings taken. *)
Record progress := {
  mbox_written : bytes;
  count : nat;
  clock_reads : nat
}.

(** One turn of the loop of [convert_folder]. [None] is an exception
    that leaves [convert_folder]: the [UnicodeEncodeError] of
    [from_line.encode('utf-8')]. *)
Definition convert_one (fs : filesystem) (clock : nat -> datetime)
    (st : progress) (emlx_path : pystr) : option progress :=
  match parse_emlx fs emlx_path with
  | Some (b :: rest) =>
      let email_content := b :: rest in
      let from_line := get_from_line (clock (clock_reads st)) email_content in
      let escaped_content := escape_from_lines email_content in
      encoded ← encode_utf8 from_line;
      Some {| mbox_written :=
                mbox_written st ++ encoded ++ escaped_content
                ++ (if endswith [NL] escaped_content then [] else [NL])
                ++ [NL];
              count := S (count st);
              clock_reads := S (clock_reads st) |}
  | _ => Some st
  end.

Fixpoint convert_loop (fs : filesystem) (clock : nat -> datetime)
    (st : progress) (emlx_files : list pystr) : option progress :=
  match emlx_files with
  | [] => Some st
  | emlx_path :: emlx_files' =>
      st' ← convert_one fs clock st emlx_path;
      convert_loop fs clock st' emlx_files'
  end.

(** The output directory and the clock: what a conversion changes. The
    output directory maps the name of a file in it to its content. *)
Record world := {
  out_files : gmap pystr bytes;
  reads : nat
}.

(** [convert_folder]: the count returned and the world afterwards.
    [mbox_path] is a file of the output directory, given by its name
    there; opening it with ['wb'] creates or empties it. *)
Definition convert_folder (fs : filesystem) (clock : nat -> datetime)
    (source_dir mbox_path : pystr) (w : world) : option (nat * world) :=
  let emlx_files := find_emlx_files fs source_dir in
  match emlx_files with
  | [] => Some (O, w)
  | _ :: _ =>
      st ← convert_loop fs clock
             {| mbox_written := []; count := O; clock_reads := reads w |}
             emlx_files;
      Some (count st,
            {| out_files := <[mbox_path := mbox_written st]> (out_files w);
               reads := clock_reads st |})
  end.

Section Account.

(** [str.isalnum] on the characters outside ASCII, which the class [\w]
    follows there: a table of the interpreter's Unicode database. *)
Variable unicode_alnum : Z -> bool.

Definition is_word (c : Z) : bool :=
  if c <? 128 then
    ((48 <=? c) && (c <=? 57)) || ((65 <=? c) && (c <=? 90))
    || ((97 <=? c) && (c <=? 122)) || (c =? 95)
  else unicode_alnum c.

(** [re.sub(r'[^\w\-_]', '_', s)]. *)
Definition sub_unsafe (s : pystr) : pystr :=
  (fun c => if is_word c || (c =? 45) || (c =? 95) then c else 95) <$> s.

(** The list [mbox_folders]: the path and the name of every directory
    whose name ends in [.mbox]. *)
Definition mbox_folders (fs : filesystem) (source_dir : pystr) : list (pystr * pystr) :=
  '(root, dirs, _) ← fs_walk fs source_dir;
  d ← dirs;
  if endswith (U ".mbox") d then [(path_join root d, slice d 0 (-5))] else [].

(** The name [clean_name] of the folder in the output. *)
Definition output_name (fs : filesystem) (source_dir folder_path folder_name : pystr) : pystr :=
  let clean_name := replace_char 32 95 (remove_char 93 (remove_char 91 folder_name)) in
  let clean_name := sub_unsafe clean_name in
  let rel_path := fs_relpath fs folder_path source_dir in
  if contains 47 rel_path then
    let parts := split_on 47 rel_path in
    let parent := remove_char 93 (remove_char 91 (remove_sub (U ".mbox") (hd [] parts))) in
    let parent := sub_unsafe parent in
    parent ++ [95] ++ clean_name
  else clean_name.

(** One turn of the loop of [convert_account] over [mbox_folders]. *)
Definition convert_unit (fs : filesystem) (clock : nat -> datetime) (source_dir : pystr)
    (acc : gmap pystr nat * world) (unit : pystr * pystr)
    : option (gmap pystr nat * world) :=
  let '(email_counts, w) := acc in
  let '(folder_path, folder_name) := unit in
  let clean_name := output_name fs source_dir folder_path folder_name in
  let mbox_path := clean_name ++ U ".mbox" in
  '(count, w') ← convert_folder fs clock folder_path mbox_path w;
  if (0 <? count)%nat then Some (<[clean_name := count]> email_counts, w')
  else Some (email_counts,
             {| out_files := delete mbox_path (out_files w'); reads := reads w' |}).

Fixpoint convert_units (fs : filesystem) (clock : nat -> datetime) (source_dir : pystr)
    (acc : gmap pystr nat * world) (units : list (pystr * pystr))
    : option (gmap pystr nat * world) :=
  match units with
  | [] => Some acc
  | unit :: units' =>
      acc' ← convert_unit fs clock source_dir acc unit;
      convert_units fs clock source_dir acc' units'
  end.

(** [convert_account]: the mapping returned and the world afterwards.
    The output directory is there: its creation is left out. *)
Definition convert_account (fs : filesystem) (clock : nat -> datetime)
    (source_dir : pystr) (w : world) : option (gmap pystr nat * world) :=
  convert_units fs clock source_dir (∅, w) (mbox_folders fs source_dir).

End Account.

End Conversion.

End MboxConverter.

(** ** Vocabulary of the specification *)

Module Spec.
Import Py Datetime MboxConverter.

(** What [escape_from_lines] does to one line. *)
Definition escape_line (line : bytes) : bytes :=
  if startswith (B "From ") line then B ">From " ++ drop 5 line else line.

Definition begins_From (line : bytes) : Prop := exists rest, line = B "From " ++ rest.

(** A text made of whole lines, each ended by a line feed. *)
Definition text_lines (lines : list pystr) : pystr :=
  lines ≫= fun l => l ++ [10].

(** [a] is an address between angle brackets in [value]: it is not
    empty and holds no [>]. *)
Definition angle_address (value a : pystr) : Prop :=
  exists pre post, value = pre ++ [60] ++ a ++ [62] ++ post /\ a <> [] /\ (62 ∉ a).

(** [tok] is the first white-space-delimited token of [value]. *)
Definition first_word (value tok : pystr) : Prop :=
  exists sp rest,
    value = sp ++ tok ++ rest
    /\ Forall (fun x => is_space x = true) sp
    /\ tok <> [] /\ Forall (fun x => is_space x = false) tok
    /\ (rest = [] \/ exists x rest', rest = x :: rest' /\ is_space x = true).







(** A Unicode scalar value: a code point that is not a surrogate. *)
Definition scalar (c : Z) : Prop :=
  0 <= c <= 1114111 /\ ~ (55296 <= c <= 57343).

(** The range of the characters that can still come out of the sequence
    the decoder is reading. *)
Definition utf8_range (acc : Z) (need : nat) (lo hi : Z) : option (Z * Z) :=
  match need with
  | 1%nat => Some (acc * 64 + lo - 128, acc * 64 + hi - 128)
  | 2%nat => Some ((acc * 64 + lo - 128) * 64, (acc * 64 + hi - 128) * 64 + 63)
  | 3%nat => Some ((acc * 64 + lo - 128) * 4096, (acc * 64 + hi - 128) * 4096 + 4095)
  | _ => None
  end.

(** What the decoder's state promises: these characters are scalar
    values. *)
Definition utf8_state_ok (st : utf8_state) : Prop :=
  match st with
  | Boundary => True
  | Inside acc need lo hi =>
      128 <= lo /\ hi <= 191
      /\ match utf8_range acc need lo hi with
         | Some (a, b) => 0 <= a /\ b <= 1114111 /\ (b < 55296 \/ 57343 < a)
         | None => False
         end
  end.

Definition ascii_text (s : pystr) : Prop := Forall (fun c => 0 <= c < 128) s.

(** [n] decimal digits. *)
Definition digits_text (n : nat) (s : bytes) : Prop :=
  length s = n /\ Forall (fun b => 48 <= byte_val b <= 57) s.

(** The fixed layout of the timestamp: weekday, month, day of two
    digits, [HH:MM:SS], year of four digits. *)
Definition timestamp_layout (ts : bytes) : Prop :=
  exists wd mo d hh mm ss y,
    wd ∈ (B <$> ["Mon"; "Tue"; "Wed"; "Thu"; "Fri"; "Sat"; "Sun"]%string)
    /\ mo ∈ (B <$> ["Jan"; "Feb"; "Mar"; "Apr"; "May"; "Jun";
                    "Jul"; "Aug"; "Sep"; "Oct"; "Nov"; "Dec"]%string)
    /\ digits_text 2 d /\ digits_text 2 hh /\ digits_text 2 mm
    /\ digits_text 2 ss /\ digits_text 4 y
    /\ ts = wd ++ B " " ++ mo ++ B " " ++ d ++ B " " ++ hh ++ B ":" ++ mm
            ++ B ":" ++ ss ++ B " " ++ y.

(** The envelope line: [From <token> <timestamp>] and a line feed. *)
Definition envelope_line (line : bytes) : Prop :=
  exists token ts,
    line = B "From " ++ token ++ B " " ++ ts ++ [NL]
    /\ token <> [] /\ (NL ∉ token) /\ timestamp_layout ts.

(** The entry of a message in the output: the envelope line, the
    escaped content, a line feed if the escaped content does not end
    with one, and a blank line. *)
Definition mbox_entry (content entry : bytes) : Prop :=
  exists envelope,
    envelope_line envelope
    /\ entry = envelope ++ escape_from_lines content
               ++ (if endswith [NL] (escape_from_lines content) then [] else [NL])
               ++ [NL].

(** [entry] is the entry of the message that [emlx_path] decodes to, which
    is not empty. *)
Definition entry_of (fs : filesystem) (emlx_path : pystr) (entry : bytes) : Prop :=
  exists content,
    parse_emlx fs emlx_path = Some content /\ content <> []
    /\ mbox_entry content entry.

(** The containers the loop of [convert_folder] writes an entry for. *)
Definition converts (fs : filesystem) (emlx_path : pystr) : bool :=
  match parse_emlx fs emlx_path with
  | Some (_ :: _) => true
  | _ => false
  end.

(** The message of a container, if one is converted, carries a date
    that parses. *)
Definition dated (unicode_decimal : Z -> option Z) (fs : filesystem)
    (emlx_path : pystr) : Prop :=
  forall content,
    parse_emlx fs emlx_path = Some content -> content <> [] ->
    is_Some (parsed_date unicode_decimal (header_text content)).

(** The name in the output of a folder of [mbox_folders]. *)
Definition unit_name (unicode_alnum : Z -> bool) (fs : filesystem)
    (source_dir : pystr) (unit : pystr * pystr) : pystr :=
  output_name unicode_alnum fs source_dir unit.1 unit.2.


(** A folder none of whose containers is converted: each fails to
    decode or decodes to the empty message. *)
Definition yields_nothing (fs : filesystem) (folder_path : pystr) : Prop :=
  Forall (fun p => converts fs p = false) (find_emlx_files fs folder_path).

End Spec.

(** ** Sample data *)

Module Examples.
Import Py Datetime MboxConverter.

(** Tables of an interpreter for the samples, which are ASCII text, so
    that no character is looked up in them: no digit and no letter
    outside ASCII. *)
Definition ascii_digits : Z -> option Z := fun _ => None.
Definition ascii_alnum : Z -> bool := fun _ => false.


(** Messages. *)
Definition msg_dated : bytes :=
  B "From: Jane Doe <jane@example.com>" ++ [NL]
  ++ B "Date: Mon, 01 Jan 2024 12:00:00 +0000" ++ [NL]
  ++ [NL] ++ B "Body".

Definition msg_plain : bytes :=
  B "From: jane@example.com" ++ [NL] ++ [NL] ++ B "hello".

Definition msg_no_from : bytes :=
  B "To: recipient@example.com" ++ [NL] ++ [NL] ++ B "Body".



Definition msg_bad_date : bytes :=
  B "Date: yesterday" ++ [NL] ++ [NL] ++ B "x".

(** Containers. *)
Definition emlx_of (msg : bytes) : bytes :=
  decimal (length msg) ++ [NL] ++ msg ++ B "<?xml version...".

(** An account with two folders at its top, [a b.mbox] and [a_b.mbox].
    The first holds one container, without any line feed; the second
    holds a message without a [Date] field. *)
Definition files : list (pystr * bytes) :=
  [ (U "acct/a b.mbox/1.emlx", B "no line feed in here");
    (U "acct/a_b.mbox/2.emlx", emlx_of msg_plain) ].

Definition read_in (fl : list (pystr * bytes)) (path : pystr) : option bytes :=
  snd <$> List.find (fun e => bool_decide (e.1 = path)) fl.

Definition walk_of (tree : list (pystr * list (pystr * list pystr * list pystr)))
    (top : pystr) : list (pystr * list pystr * list pystr) :=
  default [] (snd <$> List.find (fun e => bool_decide (e.1 = top)) tree).

Definition account : filesystem := {|
  fs_walk := walk_of
    [ (U "acct",
       [ (U "acct", [U "a b.mbox"; U "a_b.mbox"], []);
         (U "acct/a b.mbox", [], [U "1.emlx"]);
         (U "acct/a_b.mbox", [], [U "2.emlx"]) ]);
      (U "acct/a b.mbox", [ (U "acct/a b.mbox", [], [U "1.emlx"]) ]);
      (U "acct/a_b.mbox", [ (U "acct/a_b.mbox", [], [U "2.emlx"]) ]) ];
  fs_read := read_in files;
  fs_relpath := fun path start => drop (S (length start)) path
|}.

(** A folder of containers of several kinds. *)
Definition folder_files : list (pystr * bytes) :=
  [ (U "box/1.emlx", emlx_of msg_dated);
    (U "box/2.emlx", B "0" ++ [NL] ++ B "<?xml version...");
    (U "box/3.emlx", B "no line feed in here");
    (U "box/4.emlx", B "length?" ++ [NL] ++ msg_no_from) ].

Definition folder : filesystem := {|
  fs_walk := walk_of
    [ (U "box", [ (U "box", [], [U "2.emlx"; U "4.emlx"; U "1.emlx"; U "3.emlx"]) ]) ];
  fs_read := read_in folder_files;
  fs_relpath := fun path start => drop (S (length start)) path
|}.

Definition msg_leap_day : bytes :=
  B "Date: 29 Feb 2024 01:02:03 -0700" ++ [NL] ++ [NL] ++ B "leap".

(** A folder all of whose messages carry a date, listed in two orders. *)
Definition dated_files : list (pystr * bytes) :=
  [ (U "box/1.emlx", emlx_of msg_dated);
    (U "box/2.emlx", emlx_of msg_leap_day) ].

Definition dated_folder : filesystem := {|
  fs_walk := walk_of [ (U "box", [ (U "box", [], [U "2.emlx"; U "1.emlx"]) ]) ];
  fs_read := read_in dated_files;
  fs_relpath := fun path start => drop (S (length start)) path
|}.

Definition dated_folder_relisted : filesystem := {|
  fs_walk := walk_of [ (U "box", [ (U "box", [], [U "1.emlx"; U "2.emlx"]) ]) ];
  fs_read := read_in dated_files;
  fs_relpath := fun path start => drop (S (length start)) path
|}.

(** An account whose folders get different names in the output: [a b.mbox]
    holds one container, without any line feed, and [c.mbox] holds a
    message. *)
Definition quiet_files : list (pystr * bytes) :=
  [ (U "acct/a b.mbox/1.emlx", B "no line feed in here");
    (U "acct/c.mbox/2.emlx", emlx_of msg_plain) ].

Definition quiet_account : filesystem := {|
  fs_walk := walk_of
    [ (U "acct",
       [ (U "acct", [U "a b.mbox"; U "c.mbox"], []);
         (U "acct/a b.mbox", [], [U "1.emlx"]);
         (U "acct/c.mbox", [], [U "2.emlx"]) ]);
      (U "acct/a b.mbox", [ (U "acct/a b.mbox", [], [U "1.emlx"]) ]);
      (U "acct/c.mbox", [ (U "acct/c.mbox", [], [U "2.emlx"]) ]) ];
  fs_read := read_in quiet_files;
  fs_relpath := fun path start => drop (S (length start)) path
|}.

(** Two readings of the clock. *)
Definition noon : datetime := Build_datetime 2026 11 4 12 0 0 eq_refl.
Definition midnight : datetime := Build_datetime 2026 11 5 0 0 0 eq_refl.

Definition empty_world : world := {| out_files := ∅; reads := O |}.

Definition start : progress :=
  {| mbox_written := []; count := O; clock_reads := O |}.

End Examples.

(** ** MacMailBackup: what [backup.py] and [cli.py] compute around the
    converter *)

Module MacMailBackup.
Import Py Datetime MboxConverter.

(** [_count_emails]: the number of containers the listing shows for an
    account. *)
Definition _count_emails (fs : filesystem) (path : pystr) : nat :=
  foldl (fun count '(_, _, files) =>
           (count + length (List.filter (endswith (U ".emlx")) files))%nat)
        O (fs_walk fs path).

(** [l[i]] for a list: a negative index counts from the end; [None] is
    [IndexError]. *)
Definition list_index {A} (l : list A) (i : Z) : option A :=
  let i := if i <? 0 then i + Z.of_nat (length l) else i in
  if i <? 0 then None else l !! Z.to_nat i.

(** The exceptions raised by the code below. *)
Inductive raised := ValueError | IndexError | FileNotFoundError.

(** [sorted(l, key=..., reverse=True)] on elements paired with their
    keys. The sort is stable, also in reverse: elements with the same
    key keep their order. *)
Fixpoint insert_desc {A} (x : A * Z) (l : list (A * Z)) : list (A * Z) :=
  match l with
  | [] => [x]
  | y :: l' => if y.2 <=? x.2 then x :: l else y :: insert_desc x l'
  end.

Definition sorted_desc {A} (l : list (A * Z)) : list (A * Z) :=
  foldr insert_desc [] l.

(** [s.replace(c, t)] for a one-character [c]. *)
Definition replace_char_by (c : Z) (t : pystr) (s : pystr) : pystr :=
  x ← s; if decide (x = c) then t else [x].

Section Backup.

(** The tables of the interpreter, as the converter has them. *)
Variable unicode_decimal : Z -> option Z.
Variable unicode_alnum : Z -> bool.

(** [str.isdigit]: outside ASCII, the characters that are digits are a
    table of the interpreter; they are more than the decimal digits. *)
Variable unicode_isdigit : Z -> bool.

Definition isdigit (s : pystr) : bool :=
  negb (bool_decide (s = []))
  && forallb (fun c => if c <? 128 then (48 <=? c) && (c <=? 57)
                       else unicode_isdigit c) s.

(** The key of the sort of [find_mail_version],
    [int(x.name[1:]) if x.name[1:].isdigit() else 0]; [None] is the
    [ValueError] of [int]. *)
Definition version_key (name : pystr) : option Z :=
  if isdigit (drop 1 name)
  then int_with (decimal_value unicode_decimal) (drop 1 name)
  else Some 0.

(** [find_mail_version]: the name of the directory chosen. [mail_dir] is
    [None] when the directory of Mail does not exist, and otherwise
    lists its entries in the order of [iterdir], each with its name and
    whether it is a directory. *)
Definition find_mail_version (mail_dir : option (list (pystr * bool)))
    : raised + pystr :=
  match mail_dir with
  | None => inl FileNotFoundError
  | Some entries =>
      let candidates :=
        fst <$> List.filter (fun d => d.2 && startswith [86] d.1) entries in
      match mapM version_key candidates with
      | None => inl ValueError
      | Some keys =>
          match sorted_desc (zip candidates keys) with
          | [] => inl FileNotFoundError
          | (version, _) :: _ => inr version
          end
      end
  end.

(** [[int(x.strip()) - 1 for x in choice.split(',')]]; [None] is the
    [ValueError] of [int]. *)
Definition selected_indices (choice : pystr) : option (list Z) :=
  mapM (fun x => (fun n => n - 1) <$> int_with (decimal_value unicode_decimal) (strip x))
       (split_on 44 choice).

(** The selection by numbers: lines 356-357 of
    [select_accounts_interactive], and lines 129-130 of [main] in
    [cli.py], which are the same. *)
Definition select_accounts (choice : pystr) (account_uuids : list pystr)
    : raised + list pystr :=
  match selected_indices choice with
  | None => inl ValueError
  | Some indices =>
      let in_range :=
        List.filter (fun i => (0 <=? i) && (i <? Z.of_nat (length account_uuids)))
                    indices in
      match mapM (list_index account_uuids) in_range with
      | None => inl IndexError
      | Some selected => inr selected
      end
  end.

(** Lines 383-390 of [backup_account]: the name of the directory of an
    account in the backup, made from its address or, without one, from
    its type and the start of its identifier. *)
Definition account_name (email type uuid : pystr) : pystr :=
  let account_name :=
    if contains 64 email
    then replace_char 46 95 (replace_char_by 64 (U "_at_") email)
    else type ++ [95] ++ take 8 uuid in
  sub_unsafe unicode_alnum account_name.

End Backup.

(** The loop of [list_accounts] (lines 288-301) over [self.accounts],
    each account given by its identifier and its [data['path']]: the
    list [valid_accounts] that is returned and, of what is printed, the
    number shown in brackets before each account. [path_exists] is
    [Path.exists]. *)
Definition list_accounts (path_exists : pystr -> bool)
    (accounts : list (pystr * option pystr)) : list pystr * list (nat * pystr) :=
  foldl (fun '(valid_accounts, printed) '(uuid, path) =>
           match path with
           | Some p =>
               if path_exists p then
                 let valid_accounts := valid_accounts ++ [uuid] in
                 (valid_accounts, printed ++ [(length valid_accounts, uuid)])
               else (valid_accounts, printed)
           | None => (valid_accounts, printed)
           end)
        ([], []) accounts.

End MacMailBackup.

(** ** The command line *)

Module Cli.
Import Py MacMailBackup.

(** What [main] goes on to do: return an exit code, or call
    [backup.run] and return 0 if it returns a directory and 1 if it
    returns [None]. [Run None] is the call [backup.run()], which asks for
    the accounts; [Run (Some selected)] is [backup.run(selected)]. *)
Inductive action :=
| Return (code : Z)
| Run (selected_uuids : option (list pystr)).

(** The truth value of [parsed.account], which is [None] when the option
    is not given. *)
Definition given (account : option pystr) : bool :=
  match account with
  | Some (_ :: _) => true
  | _ => false
  end.

(** Lines 116-146 of [main], without [--list]. [account_uuids] is what
    [list_accounts] returns when accounts are named, once
    [discover_accounts] and it have returned (an exception of theirs
    leaves [main] through its handlers). Where the selection is read,
    [parsed.account] is a string, by the test of line 116. *)
Definition dispatch (unicode_decimal : Z -> option Z) (all : bool)
    (account : option pystr) (account_uuids : list pystr) : action :=
  if all || given account then
    match account_uuids with
    | [] => Return 1
    | _ :: _ =>
        let selected :=
          if all then inr account_uuids
          else select_accounts unicode_decimal (default [] account) account_uuids in
        match selected with
        | inl _ => Return 1
        | inr [] => Return 1
        | inr selected => Run (Some selected)
        end
    end
  else Run None.

End Cli.

(** ** Further vocabulary *)

Module Notions.
Import Py MboxConverter Spec.

(** The characters that [re.sub(r'[^\w\-_]', '_', s)] leaves in a name. *)
Definition safe_char (unicode_alnum : Z -> bool) (c : Z) : Prop :=
  is_word unicode_alnum c = true \/ c = 45 \/ c = 95.

(** The number of containers of a folder that are converted. *)
Definition converted (fs : filesystem) (folder_path : pystr) : nat :=
  length (List.filter (converts fs) (find_emlx_files fs folder_path)).

(** A date in the form of RFC 2822, [Www, dd Mon yyyy hh:mm:ss zone]:
    [day_name] is the name of the day with its comma and space, or
    nothing, and [day] is the text of the day of the month. *)
Definition rfc_date (day_name day : pystr) (dt : Datetime.datetime) (zone : pystr)
    : pystr :=
  day_name ++ day
  ++ [32] ++ nth (Z.to_nat (Datetime.dt_month dt - 1)) Datetime.month_abbr []
  ++ [32] ++ Datetime.four_digits (Datetime.dt_year dt)
  ++ [32] ++ Datetime.two_digits (Datetime.dt_hour dt)
  ++ [58] ++ Datetime.two_digits (Datetime.dt_minute dt)
  ++ [58] ++ Datetime.two_digits (Datetime.dt_second dt)
  ++ [32] ++ zone.

(** A zone offset, [+hhmm] or [-hhmm]. *)
Definition zone_text (sign zh zm : Z) : pystr :=
  sign :: Datetime.two_digits zh ++ Datetime.two_digits zm.

End Notions.

(** ** Tactics *)

(** Settles the comparisons of a goal on integers, one at a time. *)
Ltac zbool :=
  repeat first
    [ match goal with
      | |- context [Z.leb ?a ?b] => destruct (Z.leb_spec a b); try lia
      | |- context [Z.ltb ?a ?b] => destruct (Z.ltb_spec a b); try lia
      | |- context [Z.eqb ?a ?b] => destruct (Z.eqb_spec a b); try lia
      end
    | progress simpl ].

(** Turns the boolean comparisons among the hypotheses into
    propositions. *)
Ltac zhyps :=
  repeat match goal with
         | H : _ || _ = true |- _ => apply orb_true_iff in H as [H|H]
         | H : _ || _ = false |- _ => apply orb_false_iff in H as [? ?]
         | H : _ && _ = true |- _ => apply andb_true_iff in H as [? ?]
         | H : _ && _ = false |- _ => apply andb_false_iff in H as [H|H]
         | H : (_ <? _) = true |- _ => apply Z.ltb_lt in H
         | H : (_ <? _) = false |- _ => apply Z.ltb_ge in H
         | H : (_ <=? _) = true |- _ => apply Z.leb_le in H
         | H : (_ <=? _) = false |- _ => apply Z.leb_gt in H
         | H : (_ =? _) = true |- _ => apply Z.eqb_eq in H
         | H : (_ =? _) = false |- _ => apply Z.eqb_neq in H
         end.

(** * Properties *)

(** ** Facts about the built-ins *)

Module PyFacts.
Import Py.

Section Lists.
Context {A : Type} `{EqDecision A}.
Implicit Types (sep : A) (s p : list A) (ls : list (list A)).

Lemma find_app_sep sep p s :
  sep ∉ p -> find sep (p ++ sep :: s) = Some (length p).
Proof.
  induction p as [|x p IH]; intros Hp; simpl.
  - by rewrite decide_True.
  - apply not_elem_of_cons in Hp as [Hx Hp].
    rewrite decide_False by done. by rewrite IH.
Qed.

Lemma find_None sep s : sep ∉ s -> find sep s = None.
Proof.
  induction s as [|x s IH]; intros Hs; simpl; [done|].
  apply not_elem_of_cons in Hs as [Hx Hs].
  rewrite decide_False by done. by rewrite IH.
Qed.

Lemma split_on_nonempty sep s : split_on sep s <> [].
Proof.
  destruct s as [|x s]; simpl; [done|].
  destruct (decide (x = sep)); [done|]. by destruct (split_on sep s).
Qed.

Lemma split_on_sep_free sep s : Forall (fun l => sep ∉ l) (split_on sep s).
Proof.
  induction s as [|x s IH]; simpl.
  - constructor; [apply not_elem_of_nil|constructor].
  - destruct (decide (x = sep)).
    + constructor; [apply not_elem_of_nil|done].
    + pose proof (split_on_nonempty sep s) as Hne.
      destruct (split_on sep s) as [|l ls]; [done|].
      inversion IH; subst.
      constructor; [|done]. apply not_elem_of_cons. split; [congruence|done].
Qed.

Lemma join_split sep s : join_with sep (split_on sep s) = s.
Proof.
  induction s as [|x s IH]; simpl; [done|].
  destruct (decide (x = sep)) as [->|Hx].
  - pose proof (split_on_nonempty sep s).
    simpl. destruct (split_on sep s); [done|]. by rewrite IH.
  - pose proof (split_on_nonempty sep s).
    destruct (split_on sep s) as [|l ls]; [done|].
    simpl in *. destruct ls; simpl in *; by rewrite <- IH.
Qed.

Lemma split_on_sep_free_id sep l : sep ∉ l -> split_on sep l = [l].
Proof.
  induction l as [|x l IH]; intros Hl; simpl; [done|].
  apply not_elem_of_cons in Hl as [Hx Hl].
  rewrite decide_False by done. by rewrite IH.
Qed.

Lemma split_on_app_sep sep l s :
  sep ∉ l -> split_on sep (l ++ sep :: s) = l :: split_on sep s.
Proof.
  induction l as [|x l IH]; intros Hl; simpl.
  - by rewrite decide_True.
  - apply not_elem_of_cons in Hl as [Hx Hl].
    rewrite decide_False by done. by rewrite IH.
Qed.

Lemma split_join sep ls :
  ls <> [] -> Forall (fun l => sep ∉ l) ls -> split_on sep (join_with sep ls) = ls.
Proof.
  induction ls as [|l ls IH]; intros Hne Hall; [done|].
  inversion Hall as [|? ? Hl Hls]; subst.
  destruct ls as [|l' ls].
  - simpl. by apply split_on_sep_free_id.
  - change (join_with sep (l :: l' :: ls)) with (l ++ sep :: join_with sep (l' :: ls)).
    rewrite split_on_app_sep by done. by rewrite IH.
Qed.

Lemma startswith_spec p s : startswith p s = true <-> exists r, s = p ++ r.
Proof.
  revert s. induction p as [|a p IH]; intros s; simpl.
  - split; [by exists s|done].
  - destruct s as [|b s].
    + split; [done|]. intros [r Hr]. done.
    + destruct (decide (b = a)) as [->|Hb].
      * rewrite IH. split; intros [r Hr]; exists r; [by rewrite Hr|by injection Hr].
      * split; [done|]. intros [r Hr]. injection Hr as -> _. done.
Qed.

Lemma startswith_false p s : startswith p s = false <-> ~ exists r, s = p ++ r.
Proof.
  rewrite <- startswith_spec. by destruct (startswith p s).
Qed.

End Lists.

Lemma byte_val_range b : 0 <= byte_val b <= 255.
Proof. unfold byte_val. pose proof (Byte.to_N_bounded b). lia. Qed.

Lemma byte_val_of z : 0 <= z <= 255 -> byte_val (byte_of z) = z.
Proof.
  intros Hz. unfold byte_of, byte_val.
  destruct (Byte.of_N (Z.to_N z)) as [b|] eqn:E; simpl.
  - apply Byte.to_of_N in E. rewrite E. lia.
  - apply Byte.of_N_None_iff in E. lia.
Qed.

Lemma byte_of_val b : byte_of (byte_val b) = b.
Proof.
  unfold byte_of, byte_val. rewrite N2Z.id, Byte.of_to_N. done.
Qed.

Lemma digit_not_space c : 48 <= c <= 57 -> is_space c = false.
Proof. intros Hc. unfold is_space. zbool; done. Qed.

Lemma lstrip_id s : Forall (fun c => is_space c = false) s -> lstrip s = s.
Proof. destruct 1 as [|c s Hc _]; simpl; [done|]. by rewrite Hc. Qed.

Lemma strip_id s : Forall (fun c => is_space c = false) s -> strip s = s.
Proof.
  intros Hs. unfold strip, rstrip. rewrite (lstrip_id s) by done.
  rewrite lstrip_id by (by apply Forall_reverse). apply reverse_involutive.
Qed.

Lemma int_digits_digit a p c s :
  48 <= c <= 57 ->
  int_digits digit_val a p (c :: s) = int_digits digit_val (a * 10 + (c - 48)) true s.
Proof. intros Hc. simpl. unfold digit_val. zbool; done. Qed.

Lemma decimal_digits_spec fuel n acc :
  0 <= n <= Z.of_nat fuel - 1 ->
  exists ds k,
    decimal_digits fuel n acc = ds ++ acc /\ ds <> []
    /\ Forall (fun b => 48 <= byte_val b <= 57) ds
    /\ forall a p rest,
         int_digits digit_val a p ((byte_val <$> ds) ++ rest)
         = int_digits digit_val (a * k + n) true rest.
Proof.
  revert n acc. induction fuel as [|fuel IH]; intros n acc Hn; [lia|].
  assert (Hmod : 0 <= n mod 10 < 10) by (apply Z.mod_pos_bound; lia).
  assert (Hd : byte_val (byte_of (48 + n mod 10)) = 48 + n mod 10)
    by (apply byte_val_of; lia).
  simpl. destruct (Z.eqb_spec (n / 10) 0) as [Hq|Hq].
  - exists [byte_of (48 + n mod 10)], 10. split_and!; [done|done| |].
    + constructor; [lia|constructor].
    + intros a p rest. cbn [fmap list_fmap app].
      rewrite int_digits_digit, Hd by lia. f_equal.
      pose proof (Z.div_mod n 10). lia.
  - assert (Hq' : 0 < n / 10)
      by (pose proof (Z.div_pos n 10 ltac:(lia) ltac:(lia)); lia).
    assert (Hpos : 0 < n)
      by (destruct (Z.eq_dec n 0) as [->|]; [by vm_compute in Hq'|lia]).
    assert (Hlt : n / 10 < n) by (apply Z.div_lt; lia).
    destruct (IH (n / 10) (byte_of (48 + n mod 10) :: acc)) as (ds & k & E & Hne & Hall & Hint);
      [lia|].
    exists (ds ++ [byte_of (48 + n mod 10)]), (k * 10). split_and!.
    + by rewrite E, <- app_assoc.
    + by destruct ds.
    + apply Forall_app. split; [done|]. constructor; [lia|constructor].
    + intros a p rest. rewrite fmap_app, <- app_assoc, Hint.
      cbn [fmap list_fmap app]. rewrite int_digits_digit, Hd by lia. f_equal.
      pose proof (Z.div_mod n 10). lia.
Qed.

Lemma decimal_spec n :
  Forall (fun b => 48 <= byte_val b <= 57) (decimal n)
  /\ decimal n <> []
  /\ int_digits digit_val 0 false (byte_val <$> decimal n) = Some (Z.of_nat n).
Proof.
  unfold decimal.
  destruct (decimal_digits_spec (S n) (Z.of_nat n) []) as (ds & k & E & Hne & Hall & Hint);
    [lia|].
  rewrite E, app_nil_r. split_and!; [done|done|].
  specialize (Hint 0 false []). rewrite app_nil_r in Hint. rewrite Hint. simpl.
  f_equal; lia.
Qed.

(** The decimal rendering of a length parses back to that length. *)
Lemma int_decimal n :
  decode_ascii (decimal n) ≫= (fun s => int (strip s)) = Some (Z.of_nat n).
Proof.
  destruct (decimal_spec n) as (Hall & Hne & Hint).
  assert (Hsp : Forall (fun c => is_space c = false) (byte_val <$> decimal n)).
  { apply Forall_fmap. eapply Forall_impl; [exact Hall|].
    intros b Hb. simpl. by apply digit_not_space. }
  unfold decode_ascii.
  assert (forallb (fun b => byte_val b <? 128) (decimal n) = true) as ->.
  { apply forallb_forall. intros b Hb. apply Z.ltb_lt.
    rewrite Forall_forall in Hall. apply list_elem_of_In in Hb.
    specialize (Hall b Hb). lia. }
  simpl. unfold int, int_with. rewrite !(strip_id (byte_val <$> decimal n)) by done.
  destruct (decimal n) as [|b ds] eqn:E; [done|].
  cbn [fmap list_fmap] in *. inversion Hall as [|? ? Hb _]; subst.
  destruct (Z.eqb_spec (byte_val b) 43); [lia|].
  destruct (Z.eqb_spec (byte_val b) 45); [lia|]. done.
Qed.

Lemma decimal_no_newline n : NL ∉ decimal n.
Proof.
  destruct (decimal_spec n) as (Hall & _ & _). intros Hin.
  rewrite Forall_forall in Hall. specialize (Hall _ Hin).
  vm_compute in Hall. destruct Hall as [H _]. by apply H.
Qed.

Lemma slice_after {A} (p : list A) x rest n :
  0 <= n ->
  slice (p ++ x :: rest) (Z.of_nat (length p) + 1) (Z.of_nat (length p) + 1 + n)
  = take (Z.to_nat n) rest.
Proof.
  intros Hn. unfold slice, slice_index. rewrite length_app. simpl length.
  destruct (Z.ltb_spec (Z.of_nat (length p) + 1) 0); [lia|].
  destruct (Z.ltb_spec (Z.of_nat (length p) + 1 + n) 0); [lia|].
  rewrite (Z.min_l (Z.of_nat (length p) + 1)) by lia.
  replace (Z.to_nat (Z.of_nat (length p) + 1)) with (length (p ++ [x]))
    by (rewrite length_app; simpl; lia).
  rewrite (cons_middle x p rest), app_assoc, drop_app_length.
  destruct (Z.le_gt_cases n (Z.of_nat (length rest))).
  - f_equal. lia.
  - rewrite !take_ge by lia. done.
Qed.

End PyFacts.

(** ** Decoding a container *)

Module ParseFacts.
Import Py PyFacts MboxConverter.

Lemma parse_emlx_bytes_no_newline content :
  NL ∉ content -> parse_emlx_bytes content = None.
Proof. intros Hc. unfold parse_emlx_bytes. by rewrite find_None. Qed.

Lemma parse_emlx_bytes_counted line rest n :
  NL ∉ line ->
  decode_ascii line ≫= (fun s => int (strip s)) = Some n ->
  0 <= n ->
  parse_emlx_bytes (line ++ NL :: rest) = Some (take (Z.to_nat n) rest).
Proof.
  intros Hline Hint Hn. unfold parse_emlx_bytes.
  rewrite find_app_sep by done. rewrite take_app_length, Hint.
  by rewrite slice_after.
Qed.

Lemma parse_emlx_bytes_fallback line rest :
  NL ∉ line ->
  decode_ascii line ≫= (fun s => int (strip s)) = None ->
  parse_emlx_bytes (line ++ NL :: rest) = Some rest.
Proof.
  intros Hline Hint. unfold parse_emlx_bytes.
  rewrite find_app_sep by done. rewrite take_app_length, Hint.
  rewrite length_app. simpl length.
  replace (Z.of_nat (length line + S (length rest)) - Z.of_nat (length line) - 1)
    with (Z.of_nat (length rest)) by lia.
  rewrite slice_after by lia. rewrite Nat2Z.id. by rewrite take_ge.
Qed.

Section Loop.
Variable unicode_decimal : Z -> option Z.
Local Abbreviation convert_one := (convert_one unicode_decimal).
Local Abbreviation convert_loop := (convert_loop unicode_decimal).

Lemma convert_loop_app fs clock st l1 l2 :
  convert_loop fs clock st (l1 ++ l2)
  = convert_loop fs clock st l1 ≫= fun st' => convert_loop fs clock st' l2.
Proof.
  revert st. induction l1 as [|p l1 IH]; intros st; simpl; [done|].
  destruct (convert_one fs clock st p) as [st'|]; simpl; [apply IH|done].
Qed.

(** A container that decodes to nothing, or does not decode, leaves the
    loop as it found it. *)
Lemma convert_loop_skip fs clock st l1 emlx_path l2 :
  parse_emlx fs emlx_path = None \/ parse_emlx fs emlx_path = Some [] ->
  convert_loop fs clock st (l1 ++ emlx_path :: l2)
  = convert_loop fs clock st (l1 ++ l2).
Proof.
  intros Hp. rewrite !convert_loop_app.
  destruct (convert_loop fs clock st l1) as [st'|]; simpl; [|done].
  unfold convert_one. by destruct Hp as [-> | ->].
Qed.

End Loop.

End ParseFacts.

(** ** Escaping *)

Module EscapeFacts.
Import Py PyFacts MboxConverter Spec.

Lemma escape_line_From rest : escape_line (B "From " ++ rest) = B ">From " ++ rest.
Proof.
  unfold escape_line.
  assert (startswith (B "From ") (B "From " ++ rest) = true) as ->
    by (apply startswith_spec; by exists rest).
  done.
Qed.

Lemma escape_line_other line : ~ begins_From line -> escape_line line = line.
Proof.
  intros Hn. unfold escape_line.
  by apply startswith_false in Hn as ->.
Qed.

Lemma escape_line_not_From line : ~ begins_From (escape_line line).
Proof.
  destruct (startswith (B "From ") line) eqn:E.
  - apply startswith_spec in E as [rest ->]. rewrite escape_line_From.
    intros [r Hr]. discriminate Hr.
  - apply startswith_false in E. by rewrite escape_line_other.
Qed.

Lemma escape_line_no_newline line : NL ∉ line -> NL ∉ escape_line line.
Proof.
  intros Hl. unfold escape_line. destruct (startswith _ line); [|done].
  intros Hin. apply elem_of_app in Hin as [Hin|Hin].
  - revert Hin. compute_done.
  - by apply Hl, (subseteq_drop 5).
Qed.

Lemma escape_from_lines_split content :
  split_on NL (escape_from_lines content) = escape_line <$> split_on NL content.
Proof.
  unfold escape_from_lines. apply split_join.
  - pose proof (split_on_nonempty NL content). by destruct (split_on NL content).
  - apply Forall_fmap. eapply Forall_impl; [apply split_on_sep_free|].
    intros line Hl. by apply escape_line_no_newline.
Qed.

End EscapeFacts.

(** ** The regular expressions *)

Module RegexFacts.
Import Py PyFacts Regex Spec.

Lemma literal_ci_suffix lit s r : literal_ci lit s = Some r -> r ⊆ s.
Proof.
  revert s. induction lit as [|a lit IH]; intros s; simpl.
  - intros [= ->]. set_solver.
  - destruct s as [|c s]; [done|]. destruct (ci_match a c); [|done].
    intros H%IH. set_solver.
Qed.

Lemma literal_ci_app lit key s :
  literal_ci lit key = Some [] -> literal_ci lit (key ++ s) = Some s.
Proof.
  revert key. induction lit as [|a lit IH]; intros key; simpl.
  - by intros [= ->].
  - destruct key as [|c key]; [done|]. simpl.
    destruct (ci_match a c); [apply IH|done].
Qed.

Lemma literal_ci_cut lit l s :
  10 ∉ lit -> literal_ci lit l = None -> literal_ci lit (l ++ 10 :: s) = None.
Proof.
  revert l. induction lit as [|a lit IH]; intros l Hlit; [done|].
  apply not_elem_of_cons in Hlit as [Ha Hlit].
  destruct l as [|c l]; cbn [literal_ci app].
  - intros _. unfold ci_match. change (ascii_lower 10) with 10.
    destruct (Z.eqb_spec 10 a); [congruence|].
    cbn. by rewrite !andb_false_r.
  - destruct (ci_match a c); [by apply IH|done].
Qed.

Lemma lazy_dots_eol_inv s g :
  lazy_dots_eol s = Some g -> g ⊆ s /\ (10 ∉ g) /\ g <> [].
Proof.
  revert g. induction s as [|c s IH]; intros g; simpl; [done|].
  destruct (Z.eqb_spec c 10) as [|Hc]; [done|].
  destruct (at_eol s).
  - intros [= <-]. split_and!; [set_solver|set_solver|done].
  - destruct (lazy_dots_eol s) as [g'|]; simpl; [|done].
    intros [= <-]. destruct (IH g' eq_refl) as (? & ? & ?).
    split_and!; [set_solver|set_solver|done].
Qed.

Lemma lazy_dots_eol_line v post :
  v <> [] -> 10 ∉ v -> at_eol post = true -> lazy_dots_eol (v ++ post) = Some v.
Proof.
  intros Hne Hv Hpost. induction v as [|c v IH]; [done|].
  apply not_elem_of_cons in Hv as [Hc Hv]. simpl.
  destruct (Z.eqb_spec c 10); [congruence|].
  destruct v as [|c' v].
  - simpl. by rewrite Hpost.
  - assert (at_eol ((c' :: v) ++ post) = false) as ->.
    { simpl. apply not_elem_of_cons in Hv as [Hc' _].
      destruct (Z.eqb_spec c' 10); [congruence|done]. }
    by rewrite IH.
Qed.

Lemma spaces_then_value_inv s g :
  spaces_then_value s = Some g -> g ⊆ s /\ (10 ∉ g) /\ g <> [].
Proof.
  revert g. induction s as [|c s IH]; intros g; [done|].
  cbn [spaces_then_value]. destruct (is_space c).
  - destruct (spaces_then_value s) as [g'|].
    + intros [= <-]. destruct (IH g' eq_refl) as (? & ? & ?).
      split_and!; [set_solver|done|done].
    + apply lazy_dots_eol_inv.
  - apply lazy_dots_eol_inv.
Qed.

Lemma spaces_then_value_line sp c v post :
  Forall (fun x => is_space x = true) sp ->
  is_space c = false -> 10 ∉ c :: v -> at_eol post = true ->
  spaces_then_value (sp ++ (c :: v) ++ post) = Some (c :: v).
Proof.
  intros Hsp Hc Hv Hpost. induction Hsp as [|x sp Hx _ IH].
  - change ([] ++ (c :: v) ++ post) with (c :: (v ++ post)).
    cbn [spaces_then_value]. rewrite Hc.
    by apply (lazy_dots_eol_line (c :: v)).
  - change ((x :: sp) ++ (c :: v) ++ post) with (x :: (sp ++ (c :: v) ++ post)).
    cbn [spaces_then_value]. by rewrite Hx, IH.
Qed.

Lemma header_search_from_inv name bol s g :
  header_search_from name bol s = Some g -> g ⊆ s /\ (10 ∉ g) /\ g <> [].
Proof.
  revert bol g. induction s as [|c s IH]; intros bol g.
  - cbn [header_search_from].
    destruct bol; [|done].
    destruct (literal_ci name [] ≫= spaces_then_value) as [g'|] eqn:E; [|done].
    intros [= <-]. destruct (literal_ci name []) as [r|] eqn:Er; [|done].
    simpl in E. apply literal_ci_suffix in Er. apply spaces_then_value_inv in E.
    destruct E as (? & ? & ?). split_and!; [set_solver|done|done].
  - cbn [header_search_from].
    destruct (if bol then literal_ci name (c :: s) ≫= spaces_then_value else None)
      as [g'|] eqn:E.
    + intros [= <-]. destruct bol; [|done].
      destruct (literal_ci name (c :: s)) as [r|] eqn:Er; [|done].
      simpl in E. apply literal_ci_suffix in Er. apply spaces_then_value_inv in E.
      destruct E as (? & ? & ?). split_and!; [set_solver|done|done].
    + intros H%IH. destruct H as (? & ? & ?). split_and!; [set_solver|done|done].
Qed.

Lemma header_search_inv name s g :
  header_search name s = Some g -> g ⊆ s /\ (10 ∉ g) /\ g <> [].
Proof. apply header_search_from_inv. Qed.

Lemma search_after_line name l s :
  10 ∉ l ->
  header_search_from name false (l ++ 10 :: s) = header_search_from name true s.
Proof.
  induction l as [|c l IH]; intros Hl.
  - done.
  - apply not_elem_of_cons in Hl as [Hc Hl].
    cbn [app header_search_from].
    destruct (Z.eqb_spec c 10); [congruence|]. by apply IH.
Qed.

Lemma search_skip_line name l s :
  10 ∉ name -> 10 ∉ l -> literal_ci name l = None ->
  header_search_from name true (l ++ 10 :: s) = header_search_from name true s.
Proof.
  intros Hname Hl Hlit.
  pose proof (literal_ci_cut name l s Hname Hlit) as Hcut.
  destruct l as [|c l].
  - cbn [app header_search_from] in *. by rewrite Hcut.
  - apply not_elem_of_cons in Hl as [Hc Hl].
    cbn [app header_search_from] in *. rewrite Hcut. simpl.
    destruct (Z.eqb_spec c 10); [congruence|]. by apply search_after_line.
Qed.

(** Lines that do not begin with the name of the field are passed over. *)
Lemma search_skip_lines name lines s :
  10 ∉ name ->
  Forall (fun l => (10 ∉ l) /\ literal_ci name l = None) lines ->
  header_search name (text_lines lines ++ s) = header_search name s.
Proof.
  intros Hname Hlines. unfold header_search, text_lines.
  induction Hlines as [|l lines [Hl Hlit] _ IH]; [done|].
  cbn [mbind list_bind]. rewrite <- !app_assoc. cbn [app].
  by rewrite search_skip_line.
Qed.

(** The first line that begins with the name of the field gives the
    value: what follows the white space after the name, up to the end of
    the line. *)
Lemma header_search_found name lines key sp c v post :
  10 ∉ name ->
  Forall (fun l => (10 ∉ l) /\ literal_ci name l = None) lines ->
  literal_ci name key = Some [] ->
  Forall (fun x => is_space x = true) sp ->
  is_space c = false -> 10 ∉ c :: v -> at_eol post = true ->
  header_search name (text_lines lines ++ key ++ sp ++ (c :: v) ++ post)
  = Some (c :: v).
Proof.
  intros Hname Hlines Hkey Hsp Hc Hv Hpost.
  rewrite search_skip_lines by done.
  unfold header_search.
  assert (Hhere : literal_ci name (key ++ sp ++ (c :: v) ++ post) ≫= spaces_then_value
                  = Some (c :: v)).
  { rewrite (literal_ci_app _ _ _ Hkey). simpl.
    by apply spaces_then_value_line. }
  destruct (key ++ sp ++ (c :: v) ++ post) as [|x r];
    cbn [header_search_from]; by rewrite Hhere.
Qed.

(** No line begins with the name of the field: no match. *)
Lemma header_search_from_none name s bol :
  10 ∉ name ->
  (bol = true -> literal_ci name (hd [] (split_on 10 s)) = None) ->
  Forall (fun l => literal_ci name l = None) (tail (split_on 10 s)) ->
  header_search_from name bol s = None.
Proof.
  intros Hname. revert bol. induction s as [|c s IH]; intros bol Hhd Htl.
  - cbn [header_search_from]. destruct bol; [|done].
    simpl in Hhd. by rewrite Hhd.
  - assert (Hhere : (if bol then literal_ci name (c :: s) ≫= spaces_then_value
                     else None) = None).
    { destruct bol; [|done]. specialize (Hhd eq_refl).
      pose proof (join_split 10 (c :: s)) as Hj.
      pose proof (split_on_sep_free 10 (c :: s)) as Hf.
      destruct (split_on 10 (c :: s)) as [|l ls] eqn:E.
      { by apply split_on_nonempty in E. }
      simpl in Hhd. destruct ls as [|l' ls].
      - simpl in Hj. subst l. by rewrite Hhd.
      - change (join_with 10 (l :: l' :: ls)) with (l ++ 10 :: join_with 10 (l' :: ls)) in Hj.
        rewrite <- Hj. by rewrite literal_ci_cut. }
    cbn [header_search_from]. rewrite Hhere.
    simpl in Hhd, Htl. destruct (decide (c = 10)) as [->|Hc].
    + simpl in *. pose proof (split_on_nonempty 10 s) as Hne.
      destruct (split_on 10 s) as [|l ls]; [done|].
      inversion Htl; subst. by apply IH.
    + destruct (Z.eqb_spec c 10); [congruence|].
      pose proof (split_on_nonempty 10 s) as Hne.
      destruct (split_on 10 s) as [|l ls]; [done|]. simpl in *.
      by apply IH.
Qed.

Lemma header_search_none name s :
  10 ∉ name ->
  Forall (fun l => literal_ci name l = None) (split_on 10 s) ->
  header_search name s = None.
Proof.
  intros Hname Hall. apply header_search_from_none; [done| |].
  - intros _. pose proof (split_on_nonempty 10 s).
    destruct (split_on 10 s); [done|]. by inversion Hall.
  - destruct (split_on 10 s); [done|]. by inversion Hall.
Qed.

End RegexFacts.

(** ** The sender *)

Module SenderFacts.
Import Py PyFacts Regex RegexFacts MboxConverter Spec.

Lemma lstrip_suffix s : lstrip s ⊆ s.
Proof.
  induction s as [|c s IH]; simpl; [done|].
  destruct (is_space c); set_solver.
Qed.

Lemma lstrip_head s c r : lstrip s = c :: r -> is_space c = false.
Proof.
  induction s as [|x s IH]; simpl; [done|].
  destruct (is_space x) eqn:E; [done|]. by intros [= -> _].
Qed.

Lemma lstrip_snoc s c :
  is_space c = false -> exists l, lstrip (s ++ [c]) = l ++ [c].
Proof.
  intros Hc. induction s as [|x s [l IH]]; simpl.
  - rewrite Hc. by exists [].
  - destruct (is_space x); [by exists l|]. by exists (x :: s).
Qed.

Lemma rstrip_suffix s : rstrip s ⊆ s.
Proof.
  unfold rstrip. intros x Hx. rewrite elem_of_reverse in Hx.
  apply lstrip_suffix in Hx. by rewrite elem_of_reverse in Hx.
Qed.

Lemma rstrip_head c r :
  is_space c = false -> exists r', rstrip (c :: r) = c :: r'.
Proof.
  intros Hc. unfold rstrip. rewrite reverse_cons.
  destruct (lstrip_snoc (reverse r) c Hc) as [l ->].
  exists (reverse l). by rewrite reverse_app.
Qed.

Lemma strip_subseteq s : strip s ⊆ s.
Proof.
  unfold strip. intros x Hx. by apply lstrip_suffix, rstrip_suffix.
Qed.

Lemma strip_head s c r : strip s = c :: r -> is_space c = false.
Proof.
  unfold strip. destruct (lstrip s) as [|x t] eqn:E.
  - done.
  - pose proof (lstrip_head _ _ _ E) as Hx.
    destruct (rstrip_head x t Hx) as [r' ->]. by intros [= <- _].
Qed.

Lemma take_while_split {A} (f : A -> bool) (l : list A) :
  exists rest,
    l = take_while f l ++ rest
    /\ Forall (fun x => f x = true) (take_while f l)
    /\ (rest = [] \/ exists x rest', rest = x :: rest' /\ f x = false).
Proof.
  induction l as [|x l (rest & E & Hall & Hrest)]; simpl.
  - exists []. split_and!; [done|constructor|by left].
  - destruct (f x) eqn:Hx.
    + exists rest. split_and!; [simpl; by f_equal|by constructor|done].
    + exists (x :: l). split_and!; [done|constructor|right; eauto].
Qed.

Lemma first_token_word v c r :
  v = c :: r -> is_space c = false ->
  exists tok, first_token v = Some tok /\ first_word v tok.
Proof.
  intros -> Hc. unfold first_token. simpl. rewrite Hc.
  eexists. split; [done|].
  destruct (take_while_split (fun x => negb (is_space x)) r) as (rest & E & Hall & Hrest).
  exists [], rest. split_and!.
  - simpl. by rewrite <- E.
  - constructor.
  - done.
  - constructor; [done|]. eapply Forall_impl; [exact Hall|].
    intros x Hx. simpl in Hx. by destruct (is_space x).
  - destruct Hrest as [->|(x & rest' & -> & Hx)]; [by left|right].
    exists x, rest'. split; [done|]. by destruct (is_space x).
Qed.

Lemma upto_gt_inv s a :
  upto_gt s = Some a -> exists post, s = a ++ 62 :: post /\ 62 ∉ a.
Proof.
  revert a. induction s as [|c s IH]; intros a; simpl; [done|].
  destruct (Z.eqb_spec c 62) as [->|Hc].
  - intros [= <-]. exists s. split; [done|apply not_elem_of_nil].
  - destruct (upto_gt s) as [a'|]; simpl; [|done].
    intros [= <-]. destruct (IH a' eq_refl) as (post & -> & Ha).
    exists post. split; [done|]. apply not_elem_of_cons. split; [congruence|done].
Qed.


Lemma angle_search_inv s a : angle_search s = Some a -> angle_address s a.
Proof.
  induction s as [|c s IH]; [done|]. cbn [angle_search].
  destruct (if c =? 60 then upto_gt s else None) as [[|x g]|] eqn:E.
  - intros H. destruct (IH H) as (pre & post & -> & ? & ?).
    by exists (c :: pre), post.
  - intros [= <-]. destruct (Z.eqb_spec c 60) as [->|]; [|done].
    apply upto_gt_inv in E as (post & -> & Ha).
    by exists [], post.
  - intros H. destruct (IH H) as (pre & post & -> & ? & ?).
    by exists (c :: pre), post.
Qed.




Lemma angle_address_subseteq s a : angle_address s a -> a ⊆ s.
Proof. intros (pre & post & -> & _ & _). set_solver. Qed.

Lemma first_word_subseteq v tok : first_word v tok -> tok ⊆ v.
Proof. intros (sp & rest & -> & _). set_solver. Qed.

Lemma MAILER_DAEMON_facts : MAILER_DAEMON <> [] /\ 10 ∉ MAILER_DAEMON.
Proof. split; [done|compute_done]. Qed.

(** The sender extraction never raises, and its result is a token: not
    empty, without a line feed, and made of characters of the headers
    when it is not the literal. *)
Lemma extract_sender_total headers :
  exists sender,
    extract_sender headers = Some sender
    /\ sender <> [] /\ (10 ∉ sender)
    /\ (sender ⊆ headers \/ sender = MAILER_DAEMON).
Proof.
  destruct MAILER_DAEMON_facts as [Hm1 Hm2].
  unfold extract_sender.
  destruct (header_search (U "from:") headers) as [g|] eqn:Eg;
    [|exists MAILER_DAEMON; by split_and!; [..|right]].
  apply header_search_inv in Eg as (Hsub & Hnl & _).
  assert (Hv : strip g ⊆ headers) by (pose proof (strip_subseteq g); set_solver).
  assert (Hvnl : 10 ∉ strip g) by (pose proof (strip_subseteq g); set_solver).
  destruct (angle_search (strip g)) as [a|] eqn:Ea.
  { apply angle_search_inv in Ea. pose proof (angle_address_subseteq _ _ Ea).
    destruct Ea as (? & ? & _ & ? & _).
    exists a. split_and!; [done|done|set_solver|left; set_solver]. }
  unfold contains. case_bool_decide as Hat;
    [|exists MAILER_DAEMON; by split_and!; [..|right]].
  destruct (strip g) as [|c r] eqn:Es; [by apply elem_of_nil in Hat|].
  pose proof (strip_head _ _ _ Es) as Hc.
  case_bool_decide as Hsp.
  - destruct (first_token_word (c :: r) c r eq_refl Hc) as (tok & -> & Hw).
    pose proof (first_word_subseteq _ _ Hw). destruct Hw as (? & ? & _ & _ & ? & _).
    exists tok. split_and!; [done|done|set_solver|left; set_solver].
  - exists (c :: r). split_and!; [done|done|done|by left].
Qed.

(** *** The value of the [From] field *)















End SenderFacts.

(** ** UTF-8 *)

Module Utf8Facts.
Import Py PyFacts Spec.

Lemma REPLACEMENT_scalar : scalar REPLACEMENT.
Proof. unfold scalar, REPLACEMENT. lia. Qed.

Lemma utf8_lead_ok v :
  0 <= v <= 255 ->
  (forall c, (utf8_lead v).1 = Some c -> scalar c) /\ utf8_state_ok (utf8_lead v).2.
Proof.
  intros Hv. unfold utf8_lead.
  repeat match goal with
         | |- context [if ?b then _ else _] => destruct b eqn:?
         end; zhyps; simpl; (split; [intros c [= <-] || done|]); try done;
    try (unfold scalar, REPLACEMENT; lia).
  all: lia.
Qed.

Lemma utf8_decode_from_scalar s st :
  utf8_state_ok st -> Forall scalar (utf8_decode_from st s).
Proof.
  revert st. induction s as [|b s IH]; intros st Hst.
  - destruct st; simpl; [constructor|].
    constructor; [apply REPLACEMENT_scalar|constructor].
  - pose proof (byte_val_range b) as Hv.
    destruct (utf8_lead_ok (byte_val b) Hv) as [Hc Hl].
    cbn [utf8_decode_from]. destruct st as [|acc need lo hi].
    + destruct (utf8_lead (byte_val b)) as [c st'] eqn:E. simpl in Hc, Hl.
      destruct c as [c|]; simpl; [constructor; [by apply Hc|]|]; by apply IH.
    + destruct ((lo <=? byte_val b) && (byte_val b <=? hi)) eqn:Hin.
      * apply andb_true_iff in Hin as [Hlo%Z.leb_le Hhi%Z.leb_le].
        destruct Hst as (Hlo' & Hhi' & Hrange).
        destruct need as [|[|[|[|need]]]]; simpl in Hrange; try done.
        -- constructor; [unfold scalar; lia|by apply IH].
        -- apply IH. simpl. lia.
        -- apply IH. simpl. lia.
      * destruct (utf8_lead (byte_val b)) as [c st'] eqn:E. simpl in Hc, Hl.
        constructor; [apply REPLACEMENT_scalar|].
        destruct c as [c|]; simpl; [constructor; [by apply Hc|]|]; by apply IH.
Qed.

Lemma decode_utf8_replace_scalar s : Forall scalar (decode_utf8_replace s).
Proof. by apply utf8_decode_from_scalar. Qed.

Lemma byte_of_not_NL x : 0 <= x <= 255 -> x <> 10 -> byte_of x <> NL.
Proof.
  intros Hx Hne E. apply (f_equal byte_val) in E.
  rewrite byte_val_of in E by done. by change (byte_val NL) with 10 in E.
Qed.

Lemma utf8_encode_char_scalar c :
  scalar c ->
  exists bs, utf8_encode_char c = Some bs /\ bs <> [] /\ (c <> 10 -> NL ∉ bs).
Proof.
  intros [Hr Hs]. unfold utf8_encode_char.
  repeat match goal with
         | |- context [if ?b then _ else _] => destruct b eqn:?
         end;
    zhyps; try lia;
    (eexists; split; [reflexivity|]; split; [done|]; intros Hc;
     rewrite !not_elem_of_cons; split_and!; try apply not_elem_of_nil;
     intros E; symmetry in E; revert E; apply byte_of_not_NL;
     Z.div_mod_to_equations; lia).
Qed.

Lemma encode_utf8_app a b :
  encode_utf8 (a ++ b)
  = x ← encode_utf8 a; y ← encode_utf8 b; Some (x ++ y).
Proof.
  induction a as [|c a IH]; simpl.
  - by destruct (encode_utf8 b).
  - destruct (utf8_encode_char c) as [bs|]; simpl; [|done].
    rewrite IH. destruct (encode_utf8 a) as [x|]; simpl; [|done].
    destruct (encode_utf8 b) as [y|]; simpl; [|done]. by rewrite app_assoc.
Qed.

Lemma encode_utf8_scalar s :
  Forall scalar s ->
  exists bs, encode_utf8 s = Some bs /\ (s <> [] -> bs <> []) /\ (10 ∉ s -> NL ∉ bs).
Proof.
  induction 1 as [|c s Hc _ (bs & E & Hne & Hnl)]; simpl.
  - exists []. split_and!; [done|done|intros _; apply not_elem_of_nil].
  - destruct (utf8_encode_char_scalar c Hc) as (cs & -> & Hcs & Hcnl).
    rewrite E. simpl. exists (cs ++ bs). split_and!; [done| |].
    + intros _. by destruct cs.
    + intros Hs. apply not_elem_of_cons in Hs as [Hc10 Hs].
      rewrite elem_of_app. intros [H|H]; [by apply Hcnl; [congruence|]|by apply Hnl].
Qed.

Lemma encode_utf8_ascii s :
  Forall (fun c => 0 <= c < 128) s -> encode_utf8 s = Some (byte_of <$> s).
Proof.
  induction 1 as [|c s Hc _ IH]; simpl; [done|].
  rewrite IH. unfold utf8_encode_char.
  destruct (Z.ltb_spec c 0); [lia|]. destruct (Z.ltb_spec 1114111 c); [lia|].
  destruct (Z.ltb_spec c 128); [|lia]. done.
Qed.

End Utf8Facts.

(** ** The timestamp *)

Module DatetimeFacts.
Import Py PyFacts Datetime Spec Utf8Facts.

Lemma days_in_month_le y m : days_in_month y m <= 31.
Proof.
  unfold days_in_month.
  repeat match goal with
         | |- context [if ?b then _ else _] => destruct b
         end; lia.
Qed.

Lemma dt_ranges dt :
  1 <= dt_year dt <= 9999 /\ 1 <= dt_month dt <= 12 /\ 1 <= dt_day dt <= 31
  /\ 0 <= dt_hour dt <= 23 /\ 0 <= dt_minute dt <= 59 /\ 0 <= dt_second dt <= 59.
Proof.
  destruct dt as [y m d hh mm ss ok]. simpl. unfold fields_ok in ok.
  pose proof (days_in_month_le y m). zhyps. lia.
Qed.

Lemma two_digits_text n :
  0 <= n <= 99 ->
  digits_text 2 (byte_of <$> two_digits n) /\ ascii_text (two_digits n).
Proof.
  intros Hn. unfold two_digits, digit_char, digits_text, ascii_text.
  cbn [fmap list_fmap length].
  split; [split; [done|]|]; repeat constructor;
    rewrite ?byte_val_of; Z.div_mod_to_equations; lia.
Qed.

Lemma four_digits_text n :
  0 <= n <= 9999 ->
  digits_text 4 (byte_of <$> four_digits n) /\ ascii_text (four_digits n).
Proof.
  intros Hn. unfold four_digits, digit_char, digits_text, ascii_text.
  cbn [fmap list_fmap length].
  split; [split; [done|]|]; repeat constructor;
    rewrite ?byte_val_of; Z.div_mod_to_equations; lia.
Qed.

Lemma day_abbr_nth i :
  (i < 7)%nat ->
  byte_of <$> nth i day_abbr []
    ∈ (B <$> ["Mon"; "Tue"; "Wed"; "Thu"; "Fri"; "Sat"; "Sun"]%string)
  /\ ascii_text (nth i day_abbr []).
Proof.
  intros Hi. unfold ascii_text.
  do 7 (destruct i as [|i]; [split; compute_done|]). lia.
Qed.

Lemma month_abbr_nth i :
  (i < 12)%nat ->
  byte_of <$> nth i month_abbr []
    ∈ (B <$> ["Jan"; "Feb"; "Mar"; "Apr"; "May"; "Jun";
              "Jul"; "Aug"; "Sep"; "Oct"; "Nov"; "Dec"]%string)
  /\ ascii_text (nth i month_abbr []).
Proof.
  intros Hi. unfold ascii_text.
  do 12 (destruct i as [|i]; [split; compute_done|]). lia.
Qed.

(** The timestamp is ASCII text in the fixed layout, whatever the date. *)
Lemma strftime_encoded dt :
  exists ts,
    encode_utf8 (strftime dt) = Some ts /\ timestamp_layout ts
    /\ ascii_text (strftime dt).
Proof.
  destruct (dt_ranges dt) as (Hy & Hm & Hd & Hhh & Hmm & Hss).
  assert (Hw : (Z.to_nat (weekday_of (dt_year dt) (dt_month dt) (dt_day dt)) < 7)%nat).
  { unfold weekday_of.
    pose proof (Z.mod_pos_bound (ymd2ord (dt_year dt) (dt_month dt) (dt_day dt) + 6) 7).
    lia. }
  destruct (day_abbr_nth _ Hw) as [Hw1 Hw2].
  destruct (month_abbr_nth (Z.to_nat (dt_month dt - 1)) ltac:(lia)) as [Hm1 Hm2].
  destruct (two_digits_text (dt_day dt) ltac:(lia)) as [Hd1 Hd2].
  destruct (two_digits_text (dt_hour dt) ltac:(lia)) as [Hh1 Hh2].
  destruct (two_digits_text (dt_minute dt) ltac:(lia)) as [Hmi1 Hmi2].
  destruct (two_digits_text (dt_second dt) ltac:(lia)) as [Hs1 Hs2].
  destruct (four_digits_text (dt_year dt) ltac:(lia)) as [Hy1 Hy2].
  assert (Hascii : ascii_text (strftime dt)).
  { unfold strftime, ascii_text in *.
    repeat (apply Forall_app; split); try done; repeat constructor; lia. }
  exists (byte_of <$> strftime dt). split_and!; [by apply encode_utf8_ascii| |done].
  unfold strftime. rewrite !fmap_app.
  eexists _, _, _, _, _, _, _. split_and!; [exact Hw1|exact Hm1|exact Hd1|exact Hh1
    |exact Hmi1|exact Hs1|exact Hy1|reflexivity].
Qed.

End DatetimeFacts.

(** ** The entry of a message *)

Module EntryFacts.
Import Py PyFacts Datetime DatetimeFacts Regex MboxConverter Spec Utf8Facts SenderFacts.

Lemma header_text_scalar content : Forall scalar (header_text content).
Proof. apply decode_utf8_replace_scalar. Qed.

Section Entry.
Variable unicode_decimal : Z -> option Z.
Local Abbreviation parsed_date := (parsed_date unicode_decimal).
Local Abbreviation format_date := (format_date unicode_decimal).
Local Abbreviation get_from_line := (get_from_line unicode_decimal).
Local Abbreviation convert_one := (convert_one unicode_decimal).
Local Abbreviation convert_loop := (convert_loop unicode_decimal).

Lemma get_from_line_shape now content :
  exists sender,
    extract_sender (header_text content) = Some sender
    /\ get_from_line now content
       = U "From " ++ sender ++ [32] ++ format_date now (header_text content) ++ [10].
Proof.
  destruct (extract_sender_total (header_text content)) as (sender & E & _).
  exists sender. split; [done|]. unfold get_from_line. by rewrite E.
Qed.

Lemma format_date_strftime now headers :
  exists dt, format_date now headers = strftime dt.
Proof.
  unfold format_date. destruct (parsed_date headers) as [dt|]; eauto.
Qed.

(** The envelope line can always be encoded, and it has the form
    [From <token> <timestamp>]. *)
Lemma get_from_line_encoded now content :
  exists envelope,
    encode_utf8 (get_from_line now content) = Some envelope
    /\ envelope_line envelope.
Proof.
  destruct (get_from_line_shape now content) as (sender & Es & ->).
  destruct (extract_sender_total (header_text content))
    as (sender' & Es' & Hne & Hnl & Hsub).
  rewrite Es in Es'. injection Es' as <-.
  assert (Hsc : Forall scalar sender).
  { destruct Hsub as [Hsub| ->].
    - pose proof (header_text_scalar content) as Hh.
      rewrite Forall_forall in Hh. apply Forall_forall. intros x Hx. by apply Hh, Hsub.
    - unfold scalar. compute_done. }
  destruct (encode_utf8_scalar sender Hsc) as (token & Et & Htne & Htnl).
  destruct (format_date_strftime now (header_text content)) as (dt & ->).
  destruct (strftime_encoded dt) as (ts & Ets & Hlay & _).
  exists (B "From " ++ token ++ B " " ++ ts ++ [NL]). split.
  - rewrite !encode_utf8_app, Et, Ets. reflexivity.
  - exists token, ts. split_and!; [done|by apply Htne|by apply Htnl|done].
Qed.

Lemma digits_text_no_newline n s : digits_text n s -> NL ∉ s.
Proof.
  intros [_ Hall] Hin. rewrite Forall_forall in Hall. specialize (Hall _ Hin).
  change (byte_val NL) with 10 in Hall. lia.
Qed.

Lemma timestamp_layout_no_newline ts : timestamp_layout ts -> NL ∉ ts.
Proof.
  intros (wd & mo & d & hh & mm & ss & y & Hwd & Hmo & Hd & Hhh & Hmm & Hss & Hy & ->).
  assert (NL ∉ wd).
  { repeat (apply elem_of_cons in Hwd as [->|Hwd]; [compute_done|]).
    by apply elem_of_nil in Hwd. }
  assert (NL ∉ mo).
  { repeat (apply elem_of_cons in Hmo as [->|Hmo]; [compute_done|]).
    by apply elem_of_nil in Hmo. }
  apply digits_text_no_newline in Hd, Hhh, Hmm, Hss, Hy.
  rewrite !elem_of_app. intros Hin.
  repeat (destruct Hin as [Hin|Hin]; [done || (revert Hin; compute_done)|]).
  done.
Qed.

(** An envelope line is one line: its only line feed is its last byte. *)
Lemma envelope_line_one_line envelope :
  envelope_line envelope -> exists line, envelope = line ++ [NL] /\ NL ∉ line.
Proof.
  intros (token & ts & -> & _ & Htok & Hts%timestamp_layout_no_newline).
  exists (B "From " ++ token ++ B " " ++ ts). split.
  - by rewrite <- !app_assoc.
  - rewrite !elem_of_app. intros [Hin|[Hin|[Hin|Hin]]]; try done;
      revert Hin; compute_done.
Qed.

(** The first line of an entry is its envelope line. *)
Lemma mbox_entry_first_line content entry :
  mbox_entry content entry -> envelope_line (hd [] (split_on NL entry) ++ [NL]).
Proof.
  intros (envelope & Henv & ->).
  destruct (envelope_line_one_line envelope Henv) as (line & E & Hline).
  rewrite E in Henv |- *. rewrite <- app_assoc. cbn [app].
  by rewrite split_on_app_sep.
Qed.

(** A container that decodes to a message that is not empty gets an
    entry, put after what was written before. *)
Lemma convert_one_entry fs clock st emlx_path content :
  parse_emlx fs emlx_path = Some content -> content <> [] ->
  exists entry,
    mbox_entry content entry
    /\ convert_one fs clock st emlx_path
       = Some {| mbox_written := mbox_written st ++ entry;
                 count := S (count st);
                 clock_reads := S (clock_reads st) |}.
Proof.
  intros Hp Hne. unfold convert_one. rewrite Hp.
  destruct content as [|b rest]; [done|].
  destruct (get_from_line_encoded (clock (clock_reads st)) (b :: rest))
    as (envelope & -> & Henv).
  eexists. split; [exists envelope; split; [done|reflexivity]|].
  reflexivity.
Qed.

Lemma convert_one_other fs clock st emlx_path :
  converts fs emlx_path = false -> convert_one fs clock st emlx_path = Some st.
Proof.
  unfold converts, convert_one.
  by destruct (parse_emlx fs emlx_path) as [[|b rest]|].
Qed.

(** What the loop of [convert_folder] writes: the entries of the
    containers that decode to a message that is not empty, in order. *)
Lemma convert_loop_appends fs clock st emlx_files :
  exists st' entries,
    convert_loop fs clock st emlx_files = Some st'
    /\ Forall2 (entry_of fs) (List.filter (converts fs) emlx_files) entries
    /\ mbox_written st' = mbox_written st ++ concat entries
    /\ count st' = (count st + length entries)%nat.
Proof.
  revert st. induction emlx_files as [|p l IH]; intros st.
  - exists st, []. simpl. split_and!; [done|constructor|by rewrite app_nil_r|lia].
  - cbn [convert_loop List.filter]. destruct (converts fs p) eqn:Ec.
    + unfold converts in Ec.
      destruct (parse_emlx fs p) as [[|b rest]|] eqn:Ep; try done.
      destruct (convert_one_entry fs clock st p (b :: rest) Ep ltac:(done))
        as (entry & Hentry & ->).
      simpl. destruct (IH {| mbox_written := mbox_written st ++ entry;
                             count := S (count st);
                             clock_reads := S (clock_reads st) |})
        as (st' & entries & -> & Hall & Hw & Hc).
      exists st', (entry :: entries). simpl in *. split_and!; [done| | |lia].
      * constructor; [|done]. by exists (b :: rest).
      * by rewrite Hw, <- app_assoc.
    + rewrite (convert_one_other _ _ _ _ Ec). simpl. apply IH.
Qed.

End Entry.

End EntryFacts.

(** ** The order of the containers *)

Module OrderFacts.
Import Py PyFacts.

Lemma str_leb_total a b : str_leb a b = true \/ str_leb b a = true.
Proof.
  revert b. induction a as [|x a IH]; intros [|y b]; simpl; auto.
  destruct (IH b) as [-> | ->];
    destruct (Z.ltb_spec x y), (Z.ltb_spec y x), (Z.eqb_spec x y), (Z.eqb_spec y x);
    simpl; auto; lia.
Qed.

Lemma str_leb_trans a b c :
  str_leb a b = true -> str_leb b c = true -> str_leb a c = true.
Proof.
  revert b c. induction a as [|x a IH]; intros [|y b] [|z c]; simpl; auto; try done.
  intros Hab Hbc.
  apply orb_true_iff in Hab as [Hab|Hab], Hbc as [Hbc|Hbc]; zhyps;
    apply orb_true_iff.
  - left. apply Z.ltb_lt. lia.
  - left. apply Z.ltb_lt. lia.
  - left. apply Z.ltb_lt. lia.
  - right. apply andb_true_iff. split; [apply Z.eqb_eq; lia|]. by eapply IH.
Qed.

Lemma str_leb_antisym a b : str_leb a b = true -> str_leb b a = true -> a = b.
Proof.
  revert b. induction a as [|x a IH]; intros [|y b]; simpl; auto; try done.
  intros Hab Hba.
  apply orb_true_iff in Hab as [Hab|Hab], Hba as [Hba|Hba]; zhyps; try lia.
  subst. f_equal. by apply IH.
Qed.

#[global] Instance str_le_total : Total str_le.
Proof. intros a b. apply str_leb_total. Qed.

#[global] Instance str_le_trans : Transitive str_le.
Proof. intros a b c. apply str_leb_trans. Qed.

#[global] Instance str_le_antisym : AntiSymm (=) str_le.
Proof. intros a b. apply str_leb_antisym. Qed.

Lemma sorted_Sorted l : Sorted str_le (sorted l).
Proof. apply Sorted_merge_sort; apply _. Qed.

Lemma sorted_Permutation l : sorted l ≡ₚ l.
Proof. apply merge_sort_Permutation. Qed.

(** The sorted list does not depend on the order of the listing. *)
Lemma sorted_perm l1 l2 : l1 ≡ₚ l2 -> sorted l1 = sorted l2.
Proof.
  intros Hp. apply (Sorted_unique str_le); [apply sorted_Sorted..|].
  by rewrite !sorted_Permutation.
Qed.

End OrderFacts.

(** ** The conversion of a folder *)

Module FolderFacts.
Import Py PyFacts Datetime MboxConverter Spec EntryFacts OrderFacts.

Lemma parse_emlx_ext fs1 fs2 p :
  (forall q, fs_read fs1 q = fs_read fs2 q) -> parse_emlx fs1 p = parse_emlx fs2 p.
Proof. intros H. unfold parse_emlx. by rewrite H. Qed.

Section Folder.
Variable unicode_decimal : Z -> option Z.
Local Abbreviation parsed_date := (parsed_date unicode_decimal).
Local Abbreviation format_date := (format_date unicode_decimal).
Local Abbreviation get_from_line := (get_from_line unicode_decimal).
Local Abbreviation convert_one := (convert_one unicode_decimal).
Local Abbreviation convert_loop := (convert_loop unicode_decimal).
Local Abbreviation convert_folder := (convert_folder unicode_decimal).
Local Abbreviation dated := (dated unicode_decimal).
Local Abbreviation get_from_line_shape := (get_from_line_shape unicode_decimal).
Local Abbreviation get_from_line_encoded := (get_from_line_encoded unicode_decimal).
Local Abbreviation convert_loop_appends := (convert_loop_appends unicode_decimal).

Lemma get_from_line_dated now1 now2 content :
  is_Some (parsed_date (header_text content)) ->
  get_from_line now1 content = get_from_line now2 content.
Proof.
  intros [dt Hdt].
  destruct (get_from_line_shape now1 content) as (s1 & E1 & ->).
  destruct (get_from_line_shape now2 content) as (s2 & E2 & ->).
  rewrite E1 in E2. injection E2 as <-.
  unfold format_date. by rewrite Hdt.
Qed.

Lemma convert_loop_dated fs1 fs2 clock1 clock2 l :
  (forall q, fs_read fs1 q = fs_read fs2 q) ->
  Forall (dated fs1) l ->
  forall st1 st2,
    mbox_written st1 = mbox_written st2 -> count st1 = count st2 ->
    exists st1' st2',
      convert_loop fs1 clock1 st1 l = Some st1'
      /\ convert_loop fs2 clock2 st2 l = Some st2'
      /\ mbox_written st1' = mbox_written st2' /\ count st1' = count st2'.
Proof.
  intros Hread. induction 1 as [|p l Hp _ IH]; intros st1 st2 Hw Hc.
  - exists st1, st2. by split_and!.
  - cbn [convert_loop]. unfold convert_one.
    rewrite <- (parse_emlx_ext fs1 fs2 p Hread).
    destruct (parse_emlx fs1 p) as [[|b rest]|] eqn:Ep; simpl; try by apply IH.
    rewrite (get_from_line_dated (clock2 (clock_reads st2)) (clock1 (clock_reads st1)))
      by (by apply Hp).
    destruct (get_from_line_encoded (clock1 (clock_reads st1)) (b :: rest))
      as (envelope & -> & _).
    simpl. apply IH; simpl; by rewrite ?Hw, ?Hc.
Qed.

(** The file of a folder with containers holds the entries, and the
    count returned is their number. *)
Lemma convert_folder_writes fs clock source_dir mbox_path w :
  find_emlx_files fs source_dir <> [] ->
  exists entries w',
    convert_folder fs clock source_dir mbox_path w = Some (length entries, w')
    /\ Forall2 (entry_of fs)
         (List.filter (converts fs) (find_emlx_files fs source_dir)) entries
    /\ out_files w' !! mbox_path = Some (concat entries).
Proof.
  intros Hne. unfold convert_folder.
  destruct (find_emlx_files fs source_dir) as [|p l]; [done|].
  destruct (convert_loop_appends fs clock
              {| mbox_written := []; count := O; clock_reads := reads w |} (p :: l))
    as (st' & entries & -> & Hall & Hw & Hc).
  simpl in Hw, Hc. exists entries. eexists. split_and!.
  - simpl. by rewrite Hc.
  - done.
  - simpl. by rewrite lookup_insert_eq, Hw.
Qed.

Lemma convert_loop_total fs clock st l : is_Some (convert_loop fs clock st l).
Proof.
  destruct (convert_loop_appends fs clock st l) as (st' & ? & -> & _). eauto.
Qed.

End Folder.

End FolderFacts.

(** ** The conversion of an account *)

Module AccountFacts.
Import Py PyFacts Datetime MboxConverter Spec EntryFacts FolderFacts.

Section Account.
Variable unicode_decimal : Z -> option Z.
Local Abbreviation convert_one := (convert_one unicode_decimal).
Local Abbreviation convert_loop := (convert_loop unicode_decimal).
Local Abbreviation convert_folder := (convert_folder unicode_decimal).
Local Abbreviation convert_unit := (convert_unit unicode_decimal).
Local Abbreviation convert_units := (convert_units unicode_decimal).
Local Abbreviation convert_loop_total := (convert_loop_total unicode_decimal).

Lemma convert_loop_nothing fs clock st l :
  Forall (fun p => converts fs p = false) l -> convert_loop fs clock st l = Some st.
Proof.
  induction 1 as [|p l Hp _ IH]; [done|].
  cbn [convert_loop]. by rewrite (convert_one_other unicode_decimal _ _ _ _ Hp).
Qed.

(** [convert_folder] returns, touches no file but its own, and counts
    nothing in a folder none of whose containers decodes. *)
Lemma convert_folder_cases fs clock source_dir mbox_path w :
  exists n w',
    convert_folder fs clock source_dir mbox_path w = Some (n, w')
    /\ (forall k, k <> mbox_path -> out_files w' !! k = out_files w !! k)
    /\ (yields_nothing fs source_dir -> n = O).
Proof.
  unfold convert_folder, yields_nothing.
  destruct (find_emlx_files fs source_dir) as [|p l].
  - exists O, w. by split_and!.
  - destruct (convert_loop_total fs clock
                {| mbox_written := []; count := O; clock_reads := reads w |} (p :: l))
      as [st Hst].
    rewrite Hst. simpl. eexists _, _. split_and!; [done| |].
    + intros k Hk. simpl. by rewrite lookup_insert_ne.
    + intros Hnone. rewrite (convert_loop_nothing _ _ _ _ Hnone) in Hst.
      by injection Hst as <-.
Qed.

Variable unicode_alnum : Z -> bool.
Variables (fs : filesystem) (clock : nat -> datetime) (source_dir : pystr).

Local Abbreviation name_of := (unit_name unicode_alnum fs source_dir).

Lemma convert_unit_cases (acc : gmap pystr nat * world) (unit : pystr * pystr) :
  exists acc',
    convert_unit unicode_alnum fs clock source_dir acc unit = Some acc'
    /\ (forall k, k <> name_of unit ++ U ".mbox" ->
          out_files acc'.2 !! k = out_files acc.2 !! k)
    /\ (forall k, k <> name_of unit -> acc'.1 !! k = acc.1 !! k)
    /\ (yields_nothing fs unit.1 ->
          acc'.1 = acc.1 /\ out_files acc'.2 !! (name_of unit ++ U ".mbox") = None).
Proof.
  destruct acc as [email_counts w], unit as [folder_path folder_name].
  unfold unit_name. cbn [fst snd]. unfold convert_unit.
  destruct (convert_folder_cases fs clock folder_path
              (output_name unicode_alnum fs source_dir folder_path folder_name
               ++ U ".mbox") w) as (n & w' & -> & Hother & Hzero).
  cbn [mbind option_bind]. destruct (0 <? n)%nat eqn:Hn.
  - eexists. split; [done|]. cbn [fst snd]. split_and!; [done| |].
    + intros k Hk. by rewrite lookup_insert_ne.
    + intros Hnone. apply Hzero in Hnone. subst n. done.
  - eexists. split; [done|]. cbn [fst snd out_files]. split_and!; [|done|].
    + intros k Hk. rewrite lookup_delete_ne by done. by apply Hother.
    + intros _. split; [done|]. apply lookup_delete_eq.
Qed.

(** The folders that get the name [name] in the output yield nothing:
    the conversion puts no entry [name] in the mapping, and once it has
    handled one of them it leaves no file of that name. *)
Lemma convert_units_zero (name : pystr) (units : list (pystr * pystr)) :
  (forall unit, unit ∈ units -> name_of unit = name -> yields_nothing fs unit.1) ->
  forall acc : gmap pystr nat * world,
  exists acc',
    convert_units unicode_alnum fs clock source_dir acc units = Some acc'
    /\ (acc.1 !! name = None -> acc'.1 !! name = None)
    /\ (out_files acc.2 !! (name ++ U ".mbox") = None
        \/ (exists unit, unit ∈ units /\ name_of unit = name) ->
        out_files acc'.2 !! (name ++ U ".mbox") = None).
Proof.
  induction units as [|unit units IH]; intros Hzero acc.
  - exists acc. split_and!; [done|done|].
    intros [H|(unit & Hin & _)]; [done|]. by apply elem_of_nil in Hin.
  - cbn [convert_units].
    destruct (convert_unit_cases acc unit) as (acc1 & -> & Hfile & Hcount & Hnone).
    cbn [mbind option_bind].
    destruct (IH (fun u Hu => Hzero u (list_elem_of_further _ _ _ Hu)) acc1)
      as (acc' & -> & Hc' & Hf').
    exists acc'. split; [done|].
    destruct (decide (name_of unit = name)) as [Heq|Hne].
    + destruct (Hnone (Hzero unit (list_elem_of_here _ _) Heq)) as [Hc1 Hf1].
      rewrite Heq in Hf1. split.
      * intros H. apply Hc'. by rewrite Hc1.
      * intros _. apply Hf'. by left.
    + split.
      * intros H. apply Hc'. rewrite Hcount by done. done.
      * intros [H|(u & Hu & Hname)]; apply Hf'.
        -- left. rewrite Hfile; [done|]. intros E. by apply app_inv_tail in E.
        -- right. apply elem_of_cons in Hu as [->|Hu]; [done|]. eauto.
Qed.

End Account.

End AccountFacts.

(** * The properties of the specification *)

Import Py PyFacts Regex RegexFacts Datetime DatetimeFacts MboxConverter Spec.
Import ParseFacts EscapeFacts SenderFacts EntryFacts OrderFacts FolderFacts AccountFacts.
Import Examples.

(** C1. A file that holds the decimal length of [content], a line feed,
    [content] and then any trailer decodes to [content], byte for byte. *)
Theorem parse_emlx_roundtrip fs emlx_path content trailer :
  fs_read fs emlx_path = Some (decimal (length content) ++ NL :: content ++ trailer) ->
  parse_emlx fs emlx_path = Some content.
Proof.
  intros Hread. unfold parse_emlx. rewrite Hread.
  rewrite (parse_emlx_bytes_counted _ _ (Z.of_nat (length content))).
  - by rewrite Nat2Z.id, take_app_length.
  - apply decimal_no_newline.
  - apply int_decimal.
  - lia.
Qed.

Lemma parse_emlx_roundtrip_witness :
  fs_read folder (U "box/1.emlx")
  = Some (decimal (length msg_dated) ++ NL :: msg_dated ++ B "<?xml version...")
  /\ parse_emlx folder (U "box/1.emlx") = Some msg_dated.
Proof.
  split; [reflexivity|].
  apply (parse_emlx_roundtrip folder (U "box/1.emlx") msg_dated (B "<?xml version...")).
  reflexivity.
Defined.

(** C2. Line by line, the escaped content is the content in which every
    line that begins with [From ] has [>] put before it and every other
    line is unchanged; the lines are joined by line feeds as they were
    split; and no line of the content escaped once or twice begins with
    [From ]. *)
Theorem escape_from_lines_spec content :
  Forall2
    (fun line line' =>
       (exists rest, line = B "From " ++ rest /\ line' = B ">From " ++ rest)
       \/ ((~ exists rest, line = B "From " ++ rest) /\ line' = line))
    (split_on NL content) (split_on NL (escape_from_lines content))
  /\ join_with NL (split_on NL content) = content
  /\ join_with NL (split_on NL (escape_from_lines content)) = escape_from_lines content
  /\ Forall (fun line => ~ exists rest, line = B "From " ++ rest)
       (split_on NL (escape_from_lines content))
  /\ Forall (fun line => ~ exists rest, line = B "From " ++ rest)
       (split_on NL (escape_from_lines (escape_from_lines content))).
Proof.
  split_and!.
  - rewrite escape_from_lines_split. apply Forall2_fmap_r, Forall_Forall2_diag.
    apply Forall_forall. intros line _.
    destruct (startswith (B "From ") line) eqn:E.
    + apply startswith_spec in E as [rest ->]. left. exists rest.
      by rewrite escape_line_From.
    + apply startswith_false in E. right. by rewrite escape_line_other.
  - apply join_split.
  - apply join_split.
  - rewrite escape_from_lines_split. apply Forall_fmap, Forall_forall.
    intros line _. apply escape_line_not_From.
  - rewrite escape_from_lines_split. apply Forall_fmap, Forall_forall.
    intros line _. apply escape_line_not_From.
Qed.

(** C3, amended. For every container that decodes to a message that is
    not empty, the loop of [convert_folder] appends the entry of that
    message: the envelope line [From <token> <timestamp>], the escaped
    content, a line feed if the escaped content does not end with one,
    and a blank line. What the loop writes is what was there followed by
    the entries of these containers, in order, and nothing else; the
    count grows by their number; and the file of a folder with
    containers holds these entries and nothing else. *)
Theorem convert_folder_entries unicode_decimal fs clock :
  (forall st emlx_path content,
     parse_emlx fs emlx_path = Some content -> content <> [] ->
     exists entry,
       mbox_entry content entry
       /\ envelope_line (hd [] (split_on NL entry) ++ [NL])
       /\ convert_one unicode_decimal fs clock st emlx_path
          = Some {| mbox_written := mbox_written st ++ entry;
                    count := S (count st);
                    clock_reads := S (clock_reads st) |})
  /\ (forall st emlx_files,
        exists st' entries,
          convert_loop unicode_decimal fs clock st emlx_files = Some st'
          /\ Forall2 (entry_of fs) (List.filter (converts fs) emlx_files) entries
          /\ mbox_written st' = mbox_written st ++ concat entries
          /\ count st' = (count st + length entries)%nat)
  /\ (forall source_dir mbox_path w,
        find_emlx_files fs source_dir <> [] ->
        exists entries w',
          convert_folder unicode_decimal fs clock source_dir mbox_path w = Some (length entries, w')
          /\ Forall2 (entry_of fs)
               (List.filter (converts fs) (find_emlx_files fs source_dir)) entries
          /\ out_files w' !! mbox_path = Some (concat entries)).
Proof.
  split_and!.
  - intros st emlx_path content Hp Hne.
    destruct (convert_one_entry unicode_decimal fs clock st emlx_path content Hp Hne)
      as (entry & Hentry & Hone).
    exists entry. split_and!; [done| |done]. by eapply mbox_entry_first_line.
  - intros st emlx_files. apply convert_loop_appends.
  - intros source_dir mbox_path w Hne. by apply convert_folder_writes.
Qed.

(** C3 as stated does not hold of a message that decodes to the empty
    byte string: the container [0], line feed, trailer decodes, and no
    entry is written for it. *)
Lemma empty_message_gets_no_entry :
  parse_emlx Examples.folder (U "box/2.emlx") = Some []
  /\ forall unicode_decimal,
       ~ exists entry st',
           mbox_entry [] entry
           /\ convert_one unicode_decimal Examples.folder (fun _ => Examples.noon)
                Examples.start (U "box/2.emlx") = Some st'
           /\ mbox_written st' = mbox_written Examples.start ++ entry.
Proof.
  split; [reflexivity|].
  intros unicode_decimal
    (entry & st' & (envelope & (token & ts & -> & _) & ->) & Hone & Hw).
  vm_compute in Hone. injection Hone as <-. discriminate Hw.
Qed.

Lemma convert_folder_entries_witness :
  exists entries w',
    convert_folder ascii_digits folder (fun _ => noon) (U "box") (U "box.mbox") empty_world
    = Some (length entries, w')
    /\ Forall2 (entry_of folder) [U "box/1.emlx"; U "box/4.emlx"] entries
    /\ out_files w' !! U "box.mbox" = Some (concat entries).
Proof.
  destruct (convert_folder_entries ascii_digits folder (fun _ => noon))
    as (_ & _ & Hfolder).
  apply (Hfolder (U "box") (U "box.mbox") empty_world). discriminate.
Defined.




(** C5. The envelope line carries the timestamp after the sender token.
    A header block whose first line beginning with [Date:] is
    [Date: Mon, 01 Jan 2024 12:00:00 +0000] gives the timestamp
    [Mon Jan 01 12:00:00 2024]; a header block without a line beginning
    with [Date:], or whose [Date] value no accepted format parses, gives
    the reading of the clock taken by the call, which is rendered in the
    fixed layout. In the loop of [convert_folder] every message that is
    converted takes one reading of the clock, the next one, and that
    reading is the one its envelope line is made with. *)
Theorem envelope_timestamp unicode_decimal now content :
  let headers := header_text content in
  (exists sender,
     get_from_line unicode_decimal now content
     = U "From " ++ sender ++ [32] ++ format_date unicode_decimal now headers ++ [10])
  /\ (forall lines rest,
        headers = text_lines lines ++ U "Date: Mon, 01 Jan 2024 12:00:00 +0000" ++ rest ->
        Forall (fun l => (10 ∉ l) /\ literal_ci (U "date:") l = None) lines ->
        rest = [] \/ rest = [13] \/ (exists r, rest = 10 :: r)
        \/ (exists r, rest = 13 :: 10 :: r) ->
        format_date unicode_decimal now headers = U "Mon Jan 01 12:00:00 2024")
  /\ (Forall (fun l => literal_ci (U "date:") l = None) (split_on 10 headers) ->
      format_date unicode_decimal now headers = strftime now)
  /\ (forall g,
        header_search (U "date:") headers = Some g ->
        try_formats unicode_decimal (take 31 (strip g)) date_formats = None ->
        format_date unicode_decimal now headers = strftime now)
  /\ (exists ts, encode_utf8 (strftime now) = Some ts /\ timestamp_layout ts)
  /\ (forall fs clock st emlx_path,
        parse_emlx fs emlx_path = Some content -> content <> [] ->
        exists st',
          convert_one unicode_decimal fs clock st emlx_path = Some st'
          /\ clock_reads st' = S (clock_reads st)
          /\ (mbox_written <$> convert_one unicode_decimal fs clock st emlx_path)
             = (fun envelope =>
                  mbox_written st ++ envelope ++ escape_from_lines content
                  ++ (if endswith [NL] (escape_from_lines content) then [] else [NL])
                  ++ [NL])
               <$> encode_utf8 (get_from_line unicode_decimal (clock (clock_reads st)) content)).
Proof.
  cbv zeta. set (headers := header_text content). split_and!.
  - destruct (get_from_line_shape unicode_decimal now content) as (sender & _ & Hline). eauto.
  - intros lines rest Hh Hlines Hrest.
    assert (Hname : 10 ∉ U "date:") by compute_done.
    assert (Hs : exists g, header_search (U "date:") headers = Some g
                           /\ strip g = U "Mon, 01 Jan 2024 12:00:00 +0000").
    { rewrite Hh. destruct Hrest as [->|[->|[[r ->]|[r ->]]]].
      - exists (U "Mon, 01 Jan 2024 12:00:00 +0000"). split; [|reflexivity].
        exact (header_search_found (U "date:") lines (U "Date:") [32] 77
                 (U "on, 01 Jan 2024 12:00:00 +0000") []
                 Hname Hlines eq_refl ltac:(by repeat constructor) eq_refl
                 ltac:(compute_done) eq_refl).
      - exists (U "Mon, 01 Jan 2024 12:00:00 +0000" ++ [13]). split; [|reflexivity].
        exact (header_search_found (U "date:") lines (U "Date:") [32] 77
                 (U "on, 01 Jan 2024 12:00:00 +0000" ++ [13]) []
                 Hname Hlines eq_refl ltac:(by repeat constructor) eq_refl
                 ltac:(compute_done) eq_refl).
      - exists (U "Mon, 01 Jan 2024 12:00:00 +0000"). split; [|reflexivity].
        exact (header_search_found (U "date:") lines (U "Date:") [32] 77
                 (U "on, 01 Jan 2024 12:00:00 +0000") (10 :: r)
                 Hname Hlines eq_refl ltac:(by repeat constructor) eq_refl
                 ltac:(compute_done) eq_refl).
      - exists (U "Mon, 01 Jan 2024 12:00:00 +0000" ++ [13]). split; [|reflexivity].
        exact (header_search_found (U "date:") lines (U "Date:") [32] 77
                 (U "on, 01 Jan 2024 12:00:00 +0000" ++ [13]) (10 :: r)
                 Hname Hlines eq_refl ltac:(by repeat constructor) eq_refl
                 ltac:(compute_done) eq_refl). }
    destruct Hs as (g & Hg & Hstrip).
    unfold format_date, parsed_date. rewrite Hg, Hstrip. reflexivity.
  - intros Hnone. apply header_search_none in Hnone; [|compute_done].
    unfold format_date, parsed_date. by rewrite Hnone.
  - intros g Hg Hfail. unfold format_date, parsed_date. by rewrite Hg, Hfail.
  - destruct (strftime_encoded now) as (ts & ? & ? & _). eauto.
  - intros fs clock st emlx_path Hp Hne. unfold convert_one. rewrite Hp.
    destruct content as [|b rest]; [done|].
    destruct (get_from_line_encoded unicode_decimal (clock (clock_reads st)) (b :: rest))
      as (envelope & -> & _).
    eexists. by split_and!.
Qed.

Lemma envelope_timestamp_witness :
  format_date ascii_digits noon (header_text msg_dated) = U "Mon Jan 01 12:00:00 2024"
  /\ format_date ascii_digits noon (header_text msg_plain) = U "Wed Nov 04 12:00:00 2026"
  /\ format_date ascii_digits midnight (header_text msg_bad_date)
     = U "Thu Nov 05 00:00:00 2026".
Proof.
  split_and!.
  - destruct (envelope_timestamp ascii_digits noon msg_dated) as (_ & Hdate & _).
    apply (Hdate [U "From: Jane Doe <jane@example.com>"] []).
    + reflexivity.
    + constructor; [|constructor]. split; [compute_done|reflexivity].
    + by left.
  - destruct (envelope_timestamp ascii_digits noon msg_plain) as (_ & _ & Hnone & _).
    rewrite Hnone; [reflexivity|]. by repeat constructor.
  - destruct (envelope_timestamp ascii_digits midnight msg_bad_date)
      as (_ & _ & _ & Hbad & _).
    rewrite (Hbad (U "yesterday")); reflexivity.
Defined.

(** C6, amended. Two runs over the same folder, with the same files and
    any order of the directory listing, handle the containers in the
    same order, sorted by path; and when every message they convert has
    a [Date] field that parses, they return the same count and write the
    same bytes, whatever the clock reads: from the same output
    directory they end with the same output directory, and a run that
    follows another leaves the output directory as it found it. *)
Theorem conversion_reproducible unicode_decimal fs1 fs2 clock1 clock2 source_dir mbox_path w1 w2 :
  (forall q, fs_read fs1 q = fs_read fs2 q) ->
  emlx_candidates fs1 source_dir ≡ₚ emlx_candidates fs2 source_dir ->
  out_files w1 = out_files w2 ->
  Forall
    (fun emlx_path =>
       forall content,
         parse_emlx fs1 emlx_path = Some content -> content <> [] ->
         is_Some (parsed_date unicode_decimal (header_text content)))
    (emlx_candidates fs1 source_dir) ->
  find_emlx_files fs1 source_dir = find_emlx_files fs2 source_dir
  /\ Sorted str_le (find_emlx_files fs1 source_dir)
  /\ exists n w1' w2' w3,
       convert_folder unicode_decimal fs1 clock1 source_dir mbox_path w1 = Some (n, w1')
       /\ convert_folder unicode_decimal fs2 clock2 source_dir mbox_path w2 = Some (n, w2')
       /\ out_files w1' = out_files w2'
       /\ convert_folder unicode_decimal fs2 clock2 source_dir mbox_path w1' = Some (n, w3)
       /\ out_files w3 = out_files w1'.
Proof.
  intros Hread Hperm Hout Hdated.
  assert (Hfiles : find_emlx_files fs1 source_dir = find_emlx_files fs2 source_dir)
    by (by apply sorted_perm).
  split; [done|]. split; [apply sorted_Sorted|].
  unfold convert_folder. rewrite <- Hfiles.
  assert (Hd : Forall (dated unicode_decimal fs1) (find_emlx_files fs1 source_dir)).
  { unfold find_emlx_files. by rewrite sorted_Permutation. }
  destruct (find_emlx_files fs1 source_dir) as [|p l] eqn:E.
  - exists O, w1, w2, w1. by split_and!.
  - destruct (convert_loop_dated unicode_decimal fs1 fs2 clock1 clock2 (p :: l) Hread Hd
                {| mbox_written := []; count := O; clock_reads := reads w1 |}
                {| mbox_written := []; count := O; clock_reads := reads w2 |}
                eq_refl eq_refl) as (st1 & st2 & E1 & E2 & Hw & Hc).
    rewrite E1, E2. cbn [mbind option_bind].
    destruct (convert_loop_dated unicode_decimal fs1 fs2 clock1 clock2 (p :: l) Hread Hd
                {| mbox_written := []; count := O; clock_reads := reads w1 |}
                {| mbox_written := []; count := O; clock_reads := clock_reads st1 |}
                eq_refl eq_refl) as (st1' & st3 & E1' & E3 & Hw3 & Hc3).
    rewrite E1 in E1'. injection E1' as <-.
    exists (count st1), {| out_files := <[mbox_path := mbox_written st1]> (out_files w1);
                           reads := clock_reads st1 |}.
    exists {| out_files := <[mbox_path := mbox_written st2]> (out_files w2);
              reads := clock_reads st2 |}.
    exists {| out_files := <[mbox_path := mbox_written st3]>
                             (<[mbox_path := mbox_written st1]> (out_files w1));
              reads := clock_reads st3 |}.
    cbn [reads out_files]. rewrite E3. cbn [mbind option_bind].
    split_and!; [done|by rewrite Hc|by rewrite Hw, Hout|by rewrite Hc3|].
    by rewrite insert_insert_eq, Hw3.
Qed.

(** C6 as stated does not hold of a folder with a message without a
    [Date] field: two runs at different times write different bytes. *)
Lemma undated_message_follows_the_clock :
  exists n w1 w2,
    (forall unicode_decimal,
       convert_folder unicode_decimal Examples.account (fun _ => Examples.noon)
         (U "acct/a_b.mbox") (U "a_b.mbox") Examples.empty_world = Some (n, w1))
    /\ (forall unicode_decimal,
          convert_folder unicode_decimal Examples.account (fun _ => Examples.midnight)
            (U "acct/a_b.mbox") (U "a_b.mbox") Examples.empty_world = Some (n, w2))
    /\ out_files w1 !! U "a_b.mbox" <> out_files w2 !! U "a_b.mbox".
Proof.
  eexists _, _, _. split_and!; [intros d; vm_compute; reflexivity..|].
  vm_compute. discriminate.
Qed.

Lemma conversion_reproducible_witness :
  find_emlx_files dated_folder (U "box") = find_emlx_files dated_folder_relisted (U "box")
  /\ Sorted str_le (find_emlx_files dated_folder (U "box"))
  /\ exists n w1' w2' w3,
       convert_folder ascii_digits dated_folder (fun _ => noon)
         (U "box") (U "box.mbox") empty_world = Some (n, w1')
       /\ convert_folder ascii_digits dated_folder_relisted (fun _ => midnight)
            (U "box") (U "box.mbox") empty_world = Some (n, w2')
       /\ out_files w1' = out_files w2'
       /\ convert_folder ascii_digits dated_folder_relisted (fun _ => midnight)
            (U "box") (U "box.mbox") w1' = Some (n, w3)
       /\ out_files w3 = out_files w1'.
Proof.
  apply (conversion_reproducible ascii_digits dated_folder dated_folder_relisted
           (fun _ => noon) (fun _ => midnight) (U "box") (U "box.mbox")
           empty_world empty_world).
  - intros q. reflexivity.
  - change (emlx_candidates dated_folder (U "box"))
      with [U "box/2.emlx"; U "box/1.emlx"].
    change (emlx_candidates dated_folder_relisted (U "box"))
      with [U "box/1.emlx"; U "box/2.emlx"].
    apply perm_swap.
  - reflexivity.
  - change (emlx_candidates dated_folder (U "box"))
      with [U "box/2.emlx"; U "box/1.emlx"].
    apply Forall_cons; split; [|apply Forall_cons; split; [|constructor]].
    + intros content Hparse _. vm_compute in Hparse. injection Hparse as <-.
      vm_compute. eauto.
    + intros content Hparse _. vm_compute in Hparse. injection Hparse as <-.
      vm_compute. eauto.
Defined.

(** C7. When the first line of a container is not an integer in ASCII,
    decoding returns every byte after the first line feed. *)
Theorem parse_emlx_bad_length fs emlx_path line rest :
  fs_read fs emlx_path = Some (line ++ NL :: rest) ->
  NL ∉ line ->
  decode_ascii line ≫= (fun s => int (strip s)) = None ->
  parse_emlx fs emlx_path = Some rest.
Proof.
  intros Hread Hline Hint. unfold parse_emlx. rewrite Hread.
  by apply parse_emlx_bytes_fallback.
Qed.

Lemma parse_emlx_bad_length_witness :
  parse_emlx folder (U "box/4.emlx") = Some msg_no_from.
Proof.
  apply (parse_emlx_bad_length folder (U "box/4.emlx") (B "length?") msg_no_from).
  - reflexivity.
  - compute_done.
  - reflexivity.
Defined.

(** C8. A container without any line feed decodes to [None], and the
    loop of [convert_folder] passes over it: what is written and the
    count are what they are without it. *)
Theorem no_newline_is_skipped unicode_decimal fs emlx_path content :
  fs_read fs emlx_path = Some content ->
  NL ∉ content ->
  parse_emlx fs emlx_path = None
  /\ forall clock st before after,
       convert_loop unicode_decimal fs clock st (before ++ emlx_path :: after)
       = convert_loop unicode_decimal fs clock st (before ++ after).
Proof.
  intros Hread Hc.
  assert (Hp : parse_emlx fs emlx_path = None).
  { unfold parse_emlx. rewrite Hread. by apply parse_emlx_bytes_no_newline. }
  split; [done|]. intros. apply convert_loop_skip. by left.
Qed.

Lemma no_newline_is_skipped_witness :
  parse_emlx folder (U "box/3.emlx") = None
  /\ forall clock st before after,
       convert_loop ascii_digits folder clock st (before ++ U "box/3.emlx" :: after)
       = convert_loop ascii_digits folder clock st (before ++ after).
Proof.
  apply (no_newline_is_skipped ascii_digits folder (U "box/3.emlx") (B "no line feed in here")).
  - reflexivity.
  - compute_done.
Defined.

(** C9, amended. When a folder and every folder that gets the same name
    in the output yield no decoded container (each container fails to
    decode or decodes to the empty message), the account conversion
    ends without a file of that name in the output directory and without
    an entry of that name in the mapping it returns. *)
Theorem empty_folder_leaves_no_file unicode_decimal unicode_alnum fs clock source_dir w
    folder_path folder_name :
  (folder_path, folder_name) ∈ mbox_folders fs source_dir ->
  (forall path name,
     (path, name) ∈ mbox_folders fs source_dir ->
     output_name unicode_alnum fs source_dir path name
     = output_name unicode_alnum fs source_dir folder_path folder_name ->
     Forall (fun p => converts fs p = false) (find_emlx_files fs path)) ->
  exists email_counts w',
    convert_account unicode_decimal unicode_alnum fs clock source_dir w = Some (email_counts, w')
    /\ out_files w'
         !! (output_name unicode_alnum fs source_dir folder_path folder_name ++ U ".mbox")
       = None
    /\ email_counts !! output_name unicode_alnum fs source_dir folder_path folder_name
       = None.
Proof.
  intros Hin Hzero. unfold convert_account.
  destruct (convert_units_zero unicode_decimal unicode_alnum fs clock source_dir
              (output_name unicode_alnum fs source_dir folder_path folder_name)
              (mbox_folders fs source_dir)
              (fun unit Hu Hn => Hzero unit.1 unit.2
                                   ltac:(by destruct unit) Hn)
              (∅, w))
    as ([email_counts w'] & -> & Hc & Hf).
  exists email_counts, w'. split_and!; [done| |].
  - apply Hf. right. by exists (folder_path, folder_name).
  - by apply Hc.
Qed.

(** C9 as stated does not hold when two folders get the same name in the
    output: [a b.mbox] yields no decoded container and [a_b.mbox], which
    comes after it, yields one; both are written to [a_b.mbox], and the
    conversion ends with that file and with an entry [a_b]. *)
Lemma same_name_keeps_the_file :
  (U "acct/a b.mbox", U "a b") ∈ mbox_folders Examples.account (U "acct")
  /\ Forall (fun p => parse_emlx Examples.account p = None)
       (find_emlx_files Examples.account (U "acct/a b.mbox"))
  /\ forall unicode_decimal unicode_alnum,
       output_name unicode_alnum Examples.account (U "acct")
         (U "acct/a b.mbox") (U "a b") = U "a_b"
       /\ exists email_counts w',
            convert_account unicode_decimal unicode_alnum Examples.account
              (fun _ => Examples.noon) (U "acct") Examples.empty_world
            = Some (email_counts, w')
            /\ is_Some (out_files w' !! U "a_b.mbox")
            /\ email_counts !! U "a_b" = Some 1%nat.
Proof.
  split_and!.
  - compute_done.
  - repeat constructor.
  - intros unicode_decimal unicode_alnum. split; [reflexivity|].
    destruct (convert_account unicode_decimal _ _ _ _ _) as [[email_counts w']|] eqn:E;
      [|by vm_compute in E].
    exists email_counts, w'. split; [done|].
    assert (H1 : (fun r : gmap pystr nat * world => out_files r.2 !! U "a_b.mbox")
                   <$> Some (email_counts, w') <> Some None)
      by (rewrite <- E; vm_compute; discriminate).
    assert (H2 : (fun r : gmap pystr nat * world => r.1 !! U "a_b")
                   <$> Some (email_counts, w') = Some (Some 1%nat))
      by (rewrite <- E; vm_compute; reflexivity).
    simpl in H1, H2. split.
    + destruct (out_files w' !! U "a_b.mbox"); [eauto|done].
    + by injection H2.
Qed.

Lemma empty_folder_leaves_no_file_witness :
  exists email_counts w',
    convert_account ascii_digits ascii_alnum quiet_account (fun _ => noon)
      (U "acct") empty_world = Some (email_counts, w')
    /\ out_files w' !! U "a_b.mbox" = None
    /\ email_counts !! U "a_b" = None.
Proof.
  apply (empty_folder_leaves_no_file ascii_digits ascii_alnum quiet_account (fun _ => noon)
           (U "acct") empty_world (U "acct/a b.mbox") (U "a b")).
  - compute_done.
  - intros path name Hin Hname.
    change (mbox_folders quiet_account (U "acct"))
      with [(U "acct/a b.mbox", U "a b"); (U "acct/c.mbox", U "c")] in Hin.
    apply elem_of_cons in Hin as [Hin|Hin].
    + injection Hin as -> ->. by repeat constructor.
    + apply elem_of_cons in Hin as [Hin|Hin]; [|by apply elem_of_nil in Hin].
      injection Hin as -> ->. vm_compute in Hname. discriminate Hname.
Defined.

(** C10. A container whose length line parses to 0 decodes to the empty
    byte string, and the loop of [convert_folder] passes over it as it
    does over one that does not decode. *)
Theorem zero_length_is_skipped unicode_decimal fs emlx_path line trailer :
  fs_read fs emlx_path = Some (line ++ NL :: trailer) ->
  NL ∉ line ->
  decode_ascii line ≫= (fun s => int (strip s)) = Some 0 ->
  parse_emlx fs emlx_path = Some []
  /\ forall clock st before after,
       convert_loop unicode_decimal fs clock st (before ++ emlx_path :: after)
       = convert_loop unicode_decimal fs clock st (before ++ after).
Proof.
  intros Hread Hline Hint.
  assert (Hp : parse_emlx fs emlx_path = Some []).
  { unfold parse_emlx. rewrite Hread.
    by rewrite (parse_emlx_bytes_counted _ _ 0). }
  split; [done|]. intros. apply convert_loop_skip. by right.
Qed.

Lemma zero_length_is_skipped_witness :
  parse_emlx folder (U "box/2.emlx") = Some []
  /\ forall clock st before after,
       convert_loop ascii_digits folder clock st (before ++ U "box/2.emlx" :: after)
       = convert_loop ascii_digits folder clock st (before ++ after).
Proof.
  apply (zero_length_is_skipped ascii_digits folder (U "box/2.emlx")
           (B "0") (B "<?xml version...")).
  - reflexivity.
  - compute_done.
  - reflexivity.
Defined.
(** * Further properties of the code *)

(** ** Decoding, whatever the length line *)

Module DecodeFacts.
Import Py PyFacts MboxConverter.

Lemma find_Some {A} `{EqDecision A} (c : A) s i :
  find c s = Some i -> exists p r, s = p ++ c :: r /\ (c ∉ p) /\ length p = i.
Proof.
  revert i. induction s as [|x s IH]; intros i; simpl; [done|].
  case_decide as Hx.
  - intros [= <-]. exists [], s. subst. split_and!; [done|apply not_elem_of_nil|done].
  - destruct (find c s) as [j|]; [|done]. intros [= <-].
    destruct (IH j eq_refl) as (p & r & -> & Hp & <-).
    exists (x :: p), r. split_and!; [done| |done].
    apply not_elem_of_cons. by split.
Qed.

(** A slice that starts after the first [length p + 1] elements is a
    prefix of what is left, of the length Python gives it. *)
Lemma slice_rest {A} (p : list A) x rest stop :
  slice (p ++ x :: rest) (Z.of_nat (length p) + 1) stop
  = take (Z.to_nat (slice_index (Z.of_nat (length (p ++ x :: rest))) stop
                    - (Z.of_nat (length p) + 1))) rest.
Proof.
  unfold slice. set (len := Z.of_nat (length (p ++ x :: rest))).
  assert (Hlen : len = Z.of_nat (length p) + 1 + Z.of_nat (length rest)).
  { unfold len. rewrite length_app. simpl. lia. }
  assert (Ha : slice_index len (Z.of_nat (length p) + 1) = Z.of_nat (length p) + 1).
  { unfold slice_index. destruct (Z.ltb_spec (Z.of_nat (length p) + 1) 0); lia. }
  rewrite Ha. f_equal.
  replace (Z.to_nat (Z.of_nat (length p) + 1)) with (length (p ++ [x]))
    by (rewrite length_app; simpl; lia).
  by rewrite (assoc_L _ p [x] rest : p ++ x :: rest = (p ++ [x]) ++ rest), drop_app_length.
Qed.

Lemma parse_emlx_bytes_cases raw :
  match parse_emlx_bytes raw with
  | None => NL ∉ raw
  | Some content =>
      exists line rest,
        raw = line ++ NL :: rest /\ (NL ∉ line)
        /\ let start := Z.of_nat (length line) + 1 in
           let stop :=
             match decode_ascii line ≫= (fun s => int (strip s)) with
             | Some n => start + n
             | None => Z.of_nat (length raw)
             end in
           content = take (Z.to_nat (slice_index (Z.of_nat (length raw)) stop - start)) rest
  end.
Proof.
  unfold parse_emlx_bytes. destruct (find NL raw) as [i|] eqn:Ef.
  - apply find_Some in Ef as (line & rest & -> & Hline & <-).
    exists line, rest. split_and!; [done..|]. cbv zeta.
    rewrite take_app_length.
    destruct (decode_ascii line ≫= _) as [n|]; rewrite slice_rest; [reflexivity|].
    do 4 f_equal. lia.
  - clear -Ef. induction raw as [|x raw IH]; [apply not_elem_of_nil|].
    simpl in Ef. case_decide; [done|]. destruct (find NL raw); [done|].
    apply not_elem_of_cons. split; [congruence|by apply IH].
Qed.

End DecodeFacts.

(** X1. Whatever the length line says, the message decoded is a prefix
    of what follows the first line feed. A declared length that is not
    negative gives that many bytes, or all that is left when fewer are
    there; a negative one gives the empty message or, when it reaches
    back beyond the start of the file, what is left without its last
    bytes; a length line that is no number gives all that is left. A
    container fails to decode only when it cannot be read or holds no
    line feed. *)
Theorem parse_emlx_prefix fs emlx_path :
  match parse_emlx fs emlx_path with
  | Some content =>
      exists line rest,
        fs_read fs emlx_path = Some (line ++ NL :: rest) /\ (NL ∉ line)
        /\ content `prefix_of` rest
        /\ let declared := decode_ascii line ≫= (fun s => int (strip s)) in
           let start := Z.of_nat (length line) + 1 in
           (forall n, declared = Some n -> 0 <= n ->
              content = take (Z.to_nat n) rest
              /\ Z.of_nat (length content) = Z.min n (Z.of_nat (length rest)))
           /\ (forall n, declared = Some n -> n < 0 ->
                 content = if start + n <? 0
                           then take (Z.to_nat (Z.of_nat (length rest) + (start + n))) rest
                           else [])
           /\ (declared = None -> content = rest)
  | None =>
      fs_read fs emlx_path = None
      \/ exists raw, fs_read fs emlx_path = Some raw /\ NL ∉ raw
  end.
Proof.
  unfold parse_emlx. destruct (fs_read fs emlx_path) as [raw|]; [|by left].
  pose proof (DecodeFacts.parse_emlx_bytes_cases raw) as H.
  destruct (parse_emlx_bytes raw) as [content|]; [|right; by exists raw].
  destruct H as (line & rest & -> & Hline & Hc). cbv zeta in Hc.
  exists line, rest. split_and!; [done|done|rewrite Hc; apply prefix_take|..].
  - intros n Hn Hpos. rewrite Hn in Hc.
    assert (E : content = take (Z.to_nat n) rest).
    { rewrite Hc. rewrite length_app. simpl length. unfold slice_index.
      destruct (Z.ltb_spec (Z.of_nat (length line) + 1 + n) 0); [lia|].
      destruct (Z.le_gt_cases n (Z.of_nat (length rest))).
      - f_equal. lia.
      - rewrite !take_ge by lia. done. }
    split; [done|]. rewrite E, length_take. lia.
  - intros n Hn Hneg. rewrite Hn in Hc. rewrite Hc.
    rewrite length_app. simpl length. unfold slice_index.
    destruct (Z.ltb_spec (Z.of_nat (length line) + 1 + n) 0).
    + f_equal. lia.
    + replace (Z.to_nat _) with O by lia. done.
  - intros Hn. rewrite Hn in Hc. rewrite Hc.
    unfold slice_index. destruct (Z.ltb_spec (Z.of_nat (length (line ++ NL :: rest))) 0); [lia|].
    rewrite length_app. simpl length. apply take_ge. lia.
Qed.

(** ** Lines *)

Module LinesFacts.
Import Py PyFacts MboxConverter Spec EscapeFacts.

Section Lists.
Context {A : Type} `{EqDecision A}.
Implicit Types (sep : A) (s l : list A) (ls : list (list A)).

Lemma split_on_app sep a b :
  split_on sep (a ++ sep :: b) = split_on sep a ++ split_on sep b.
Proof.
  induction a as [|x a IH]; simpl.
  - by rewrite decide_True.
  - case_decide; [by rewrite IH|]. rewrite IH.
    pose proof (split_on_nonempty sep a) as Hne.
    by destruct (split_on sep a).
Qed.

Lemma join_with_app sep ls1 ls2 :
  ls1 <> [] -> ls2 <> [] ->
  join_with sep (ls1 ++ ls2) = join_with sep ls1 ++ sep :: join_with sep ls2.
Proof.
  intros H1 H2. induction ls1 as [|l ls1 IH]; [done|].
  destruct ls1 as [|l' ls1].
  - simpl. by destruct ls2.
  - change (join_with sep ((l :: l' :: ls1) ++ ls2))
      with (l ++ sep :: join_with sep ((l' :: ls1) ++ ls2)).
    rewrite IH by done. simpl. by rewrite <- app_assoc.
Qed.

Lemma join_with_cons sep l ls :
  ls <> [] -> join_with sep (l :: ls) = l ++ sep :: join_with sep ls.
Proof. by destruct ls. Qed.

End Lists.

Lemma escape_line_twice line : escape_line (escape_line line) = escape_line line.
Proof. apply escape_line_other, escape_line_not_From. Qed.

Lemma escape_from_lines_join content :
  escape_from_lines content = join_with NL (escape_line <$> split_on NL content).
Proof. reflexivity. Qed.

Lemma begins_From_startswith line :
  begins_From line <-> startswith (B "From ") line = true.
Proof. unfold begins_From. by rewrite startswith_spec. Qed.

Lemma escape_line_length line :
  length (escape_line line)
  = (length line + if startswith (B "From ") line then 1 else 0)%nat.
Proof.
  unfold escape_line. destruct (startswith (B "From ") line) eqn:E; [|lia].
  apply startswith_spec in E as [rest ->].
  rewrite !length_app, length_drop, length_app. simpl. lia.
Qed.

Lemma join_fmap_length sep (f : bytes -> bytes) (g : bytes -> nat) ls :
  (forall l, length (f l) = (length l + g l)%nat) ->
  length (join_with sep (f <$> ls))
  = (length (join_with sep ls) + sum_list_with g ls)%nat.
Proof.
  intros Hf. induction ls as [|l ls IH]; [done|].
  destruct ls as [|l' ls].
  - simpl. rewrite Hf. lia.
  - rewrite fmap_cons, (join_with_cons sep (f l)), (join_with_cons sep l) by done.
    rewrite !length_app, !length_cons, IH, Hf. simpl. lia.
Qed.

Lemma count_filter {X} (f : X -> bool) (ls : list X) :
  sum_list_with (fun l => if f l then 1%nat else 0%nat) ls = length (List.filter f ls).
Proof.
  induction ls as [|l ls IH]; [done|].
  cbn [sum_list_with List.filter]. destruct (f l); simpl; lia.
Qed.

End LinesFacts.

(** X2. Escaping is idempotent, and it leaves a content unchanged exactly
    when no line of it begins with [From ]. *)
Theorem escape_from_lines_idempotent content :
  escape_from_lines (escape_from_lines content) = escape_from_lines content
  /\ (escape_from_lines content = content
      <-> Forall (fun line => ~ begins_From line) (split_on NL content)).
Proof.
  split.
  - rewrite (LinesFacts.escape_from_lines_join (escape_from_lines content)).
    rewrite escape_from_lines_split, <- list_fmap_compose.
    rewrite LinesFacts.escape_from_lines_join. f_equal.
    apply list_fmap_ext. intros _ line _. apply LinesFacts.escape_line_twice.
  - split.
    + intros E. rewrite <- E, escape_from_lines_split.
      apply Forall_fmap, Forall_forall. intros line _. apply escape_line_not_From.
    + intros Hall. rewrite LinesFacts.escape_from_lines_join.
      rewrite <- (join_split NL content) at 2. f_equal.
      rewrite <- (list_fmap_id (split_on NL content)) at 2.
      apply Forall_fmap_ext_1. eapply Forall_impl; [exact Hall|].
      intros line Hl. by apply escape_line_other.
Qed.

(** X3. Escaping works line by line: two texts joined by a line feed are
    escaped as each of them is, and the escaped content is longer than
    the content by one byte for every line that begins with [From ]. *)
Theorem escape_from_lines_by_line a b :
  escape_from_lines (a ++ NL :: b) = escape_from_lines a ++ NL :: escape_from_lines b
  /\ length (escape_from_lines a)
     = (length a
        + length (List.filter (startswith (B "From ")) (split_on NL a)))%nat.
Proof.
  split.
  - rewrite !LinesFacts.escape_from_lines_join, LinesFacts.split_on_app, fmap_app.
    apply LinesFacts.join_with_app.
    + pose proof (split_on_nonempty NL a). by destruct (split_on NL a).
    + pose proof (split_on_nonempty NL b). by destruct (split_on NL b).
  - rewrite LinesFacts.escape_from_lines_join.
    rewrite (LinesFacts.join_fmap_length NL escape_line
               (fun l => if startswith (B "From ") l then 1%nat else 0%nat))
      by apply LinesFacts.escape_line_length.
    rewrite join_split. f_equal. apply LinesFacts.count_filter.
Qed.

(** ** The lines of the file written *)

Module MboxFacts.
Import Py PyFacts MboxConverter Spec EscapeFacts EntryFacts LinesFacts.

(** The lines of a text that begin with [From ]. *)
Local Abbreviation from_lines text :=
  (List.filter (startswith (B "From ")) (split_on NL text)).

Lemma from_lines_escaped content : from_lines (escape_from_lines content) = [].
Proof.
  rewrite escape_from_lines_split.
  induction (split_on NL content) as [|l ls IH]; [done|].
  cbn [fmap list_fmap List.filter].
  pose proof (escape_line_not_From l) as Hl. rewrite begins_From_startswith in Hl.
  destruct (startswith (B "From ") (escape_line l)); [done|apply IH].
Qed.

Lemma envelope_line_From line :
  envelope_line (line ++ [NL]) -> startswith (B "From ") line = true.
Proof.
  intros (token & ts & E & _). apply startswith_spec.
  exists (token ++ B " " ++ ts).
  rewrite !(assoc_L (++)) in E. apply app_inv_tail in E. by rewrite E, <- !(assoc_L (++)).
Qed.

(** An entry is one line that begins with [From ], the envelope line,
    followed by lines that do not. *)
Lemma mbox_entry_lines content entry more :
  mbox_entry content entry ->
  exists line,
    envelope_line (line ++ [NL])
    /\ from_lines (entry ++ more) = line :: from_lines more.
Proof.
  intros (envelope & Henv & ->).
  destruct (envelope_line_one_line envelope Henv) as (line & -> & Hline).
  exists line. split; [done|].
  set (esc := escape_from_lines content).
  set (pad := if endswith [NL] esc then [] else [NL]).
  replace (((line ++ [NL]) ++ esc ++ pad ++ [NL]) ++ more)
    with (line ++ NL :: ((esc ++ pad) ++ NL :: more))
    by (by rewrite <- !(assoc_L (++))).
  rewrite split_on_app_sep by done. cbn [List.filter].
  rewrite (envelope_line_From line Henv). f_equal.
  rewrite split_on_app, List.filter_app.
  assert (Hbody : from_lines (esc ++ pad) = []).
  { unfold pad, esc. destruct (endswith [NL] (escape_from_lines content)).
    - rewrite app_nil_r. apply from_lines_escaped.
    - rewrite split_on_app, List.filter_app, from_lines_escaped. done. }
  by rewrite Hbody.
Qed.

Lemma from_lines_entries fs paths entries :
  Forall2 (entry_of fs) paths entries ->
  length (from_lines (concat entries)) = length entries
  /\ Forall (fun line => envelope_line (line ++ [NL])) (from_lines (concat entries)).
Proof.
  induction 1 as [|p entry paths entries (content & _ & _ & Hentry) _ [IHn IHl]]; [done|].
  cbn [concat].
  destruct (mbox_entry_lines content entry (concat entries) Hentry) as (line & Hline & ->).
  split; [cbn [length]; by rewrite IHn|by constructor].
Qed.

End MboxFacts.

(** X4. In the file that [convert_folder] writes, the lines that begin
    with [From ] are the envelope lines and nothing else: there are as
    many as the count returned, one for every message, and each has the
    form of an envelope line. *)
Theorem from_lines_are_envelopes unicode_decimal fs clock source_dir mbox_path w :
  find_emlx_files fs source_dir <> [] ->
  exists n w' file,
    convert_folder unicode_decimal fs clock source_dir mbox_path w = Some (n, w')
    /\ out_files w' !! mbox_path = Some file
    /\ length (List.filter (startswith (B "From ")) (split_on NL file)) = n
    /\ Forall (fun line => envelope_line (line ++ [NL]))
         (List.filter (startswith (B "From ")) (split_on NL file)).
Proof.
  intros Hne.
  destruct (convert_folder_writes unicode_decimal fs clock source_dir mbox_path w Hne)
    as (entries & w' & Hrun & Hall & Hfile).
  destruct (MboxFacts.from_lines_entries _ _ _ Hall) as [Hn Hlines].
  by exists (length entries), w', (concat entries).
Qed.

Lemma from_lines_are_envelopes_witness :
  exists n w' file,
    convert_folder ascii_digits folder (fun _ => noon) (U "box") (U "box.mbox") empty_world
    = Some (n, w')
    /\ out_files w' !! U "box.mbox" = Some file
    /\ length (List.filter (startswith (B "From ")) (split_on NL file)) = n
    /\ Forall (fun line => envelope_line (line ++ [NL]))
         (List.filter (startswith (B "From ")) (split_on NL file)).
Proof.
  apply (from_lines_are_envelopes ascii_digits folder (fun _ => noon)
           (U "box") (U "box.mbox") empty_world).
  discriminate.
Defined.

(** ** The header block *)

Module HeaderFacts.
Import Py PyFacts MboxConverter.

Lemma before_blank_line_body h body :
  before_blank_line (h ++ NL :: NL :: body) = before_blank_line (h ++ [NL; NL]).
Proof.
  induction h as [|x h IH]; [done|].
  cbn [app before_blank_line]. rewrite IH.
  by destruct h.
Qed.

Lemma before_blank_line_id content :
  (forall pre post, content <> pre ++ NL :: NL :: post) ->
  before_blank_line content = content.
Proof.
  induction content as [|x s IH]; intros Hno; [done|].
  cbn [before_blank_line]. case_bool_decide as Hx; cbn [andb].
  - destruct s as [|y s]; [done|]. cbn [startswith].
    case_decide as Hy.
    + subst. by destruct (Hno [] s).
    + f_equal. apply IH. intros pre post E. apply (Hno (x :: pre) post). by rewrite E.
  - f_equal. apply IH. intros pre post E. apply (Hno (x :: pre) post). by rewrite E.
Qed.

End HeaderFacts.

(** X5. The envelope line is made from what comes before the first blank
    line and from nothing after it: two messages that differ only after
    a blank line get the same envelope line. A message without two line
    feeds in a row, such as one whose lines all end in CR LF, has no
    blank line in this sense: all of it is read as the header block. *)
Theorem get_from_line_ignores_body unicode_decimal now :
  (forall head body1 body2,
     get_from_line unicode_decimal now (head ++ NL :: NL :: body1)
     = get_from_line unicode_decimal now (head ++ NL :: NL :: body2))
  /\ (forall content,
        (forall pre post, content <> pre ++ NL :: NL :: post) ->
        header_text content = decode_utf8_replace content).
Proof.
  split.
  - intros head body1 body2. unfold get_from_line, header_text.
    by rewrite (HeaderFacts.before_blank_line_body head body1),
               (HeaderFacts.before_blank_line_body head body2).
  - intros content Hno. unfold header_text.
    by rewrite HeaderFacts.before_blank_line_id.
Qed.

(** ** The containers of a folder *)

Module ContainerFacts.
Import Py PyFacts OrderFacts MboxConverter MacMailBackup Spec Notions.

Lemma endswith_spec {A} `{EqDecision A} (p s : list A) :
  endswith p s = true <-> exists stem, s = stem ++ p.
Proof.
  unfold endswith. rewrite startswith_spec. split.
  - intros [r E]. exists (reverse r).
    apply (inj reverse). by rewrite E, reverse_app, reverse_involutive.
  - intros [stem ->]. exists (reverse stem). by rewrite reverse_app.
Qed.

(** The second test of [find_emlx_files] adds nothing to the first. *)
Lemma endswith_partial file :
  endswith (U ".emlx") file || endswith (U ".partial.emlx") file
  = endswith (U ".emlx") file.
Proof.
  destruct (endswith (U ".emlx") file) eqn:E1; [done|]. simpl.
  destruct (endswith (U ".partial.emlx") file) eqn:E2; [|done].
  apply endswith_spec in E2 as [stem ->].
  assert (E : endswith (U ".emlx") (stem ++ U ".partial.emlx") = true).
  { apply endswith_spec. exists (stem ++ U ".partial"). by rewrite <- app_assoc. }
  congruence.
Qed.

Lemma elem_of_emlx_candidates fs directory p :
  p ∈ emlx_candidates fs directory
  <-> exists root dirs files file,
        (root, dirs, files) ∈ fs_walk fs directory /\ file ∈ files
        /\ (exists stem, file = stem ++ U ".emlx") /\ p = path_join root file.
Proof.
  unfold emlx_candidates. rewrite list_elem_of_bind. split.
  - intros ([[root dirs] files] & Hp & Hw). apply list_elem_of_bind in Hp as (file & Hp & Hf).
    rewrite endswith_partial in Hp.
    destruct (endswith (U ".emlx") file) eqn:E; [|by apply elem_of_nil in Hp].
    apply list_elem_of_singleton in Hp as ->. apply endswith_spec in E.
    by exists root, dirs, files, file.
  - intros (root & dirs & files & file & Hw & Hf & Hs & ->).
    exists (root, dirs, files). split; [|done].
    apply list_elem_of_bind. exists file. split; [|done].
    rewrite endswith_partial. apply endswith_spec in Hs as ->. by apply list_elem_of_singleton.
Qed.

Lemma length_emlx_candidates fs directory :
  length (emlx_candidates fs directory) = _count_emails fs directory.
Proof.
  unfold emlx_candidates, _count_emails.
  generalize (fs_walk fs directory). intros walk.
  assert (H : forall count,
             foldl (fun count '(_, _, files) =>
                      (count + length (List.filter (endswith (U ".emlx")) files))%nat)
                   count walk
             = (count + length ('(root, _, files) ← walk; file ← files;
                                if endswith (U ".emlx") file
                                   || endswith (U ".partial.emlx") file
                                then [path_join root file] else []))%nat).
  { induction walk as [|[[root dirs] files] walk IH]; intros count; [simpl; lia|].
    cbn [foldl mbind list_bind]. rewrite IH, length_app.
    assert (Hf : length (file ← files;
                         if endswith (U ".emlx") file || endswith (U ".partial.emlx") file
                         then [path_join root file] else [])
                 = length (List.filter (endswith (U ".emlx")) files)).
    { clear. induction files as [|file files IH]; [done|].
      cbn [mbind list_bind List.filter]. rewrite length_app, IH, endswith_partial.
      by destruct (endswith (U ".emlx") file). }
    unfold mbind in Hf |- *. rewrite Hf. lia. }
  by rewrite H.
Qed.

Lemma converted_le fs directory : (converted fs directory <= _count_emails fs directory)%nat.
Proof.
  unfold converted. rewrite <- length_emlx_candidates.
  etrans; [apply List.filter_length_le|].
  unfold find_emlx_files. by rewrite sorted_Permutation.
Qed.

End ContainerFacts.

(** X6. [find_emlx_files] lists the files below the directory whose name
    ends in [.emlx], each under the path [os.walk] and [os.path.join]
    give it, in sorted order; the test for [.partial.emlx] adds no file.
    There are as many as [_count_emails] counts for the same
    directory. *)
Theorem find_emlx_files_lists fs directory :
  (forall p,
     p ∈ find_emlx_files fs directory
     <-> exists root dirs files file,
           (root, dirs, files) ∈ fs_walk fs directory /\ file ∈ files
           /\ (exists stem, file = stem ++ U ".emlx") /\ p = path_join root file)
  /\ Sorted str_le (find_emlx_files fs directory)
  /\ length (find_emlx_files fs directory) = MacMailBackup._count_emails fs directory.
Proof.
  split_and!.
  - intros p. unfold find_emlx_files. rewrite sorted_Permutation.
    apply ContainerFacts.elem_of_emlx_candidates.
  - apply sorted_Sorted.
  - unfold find_emlx_files. rewrite sorted_Permutation.
    apply ContainerFacts.length_emlx_candidates.
Qed.

(** ** What a folder and an account come to *)

Module OutcomeFacts.
Import Py PyFacts Datetime MboxConverter MacMailBackup Spec Notions.
Import EntryFacts FolderFacts ContainerFacts.

Section Outcome.
Variable unicode_decimal : Z -> option Z.
Local Abbreviation convert_one := (convert_one unicode_decimal).
Local Abbreviation convert_loop := (convert_loop unicode_decimal).
Local Abbreviation convert_folder := (convert_folder unicode_decimal).
Local Abbreviation convert_unit := (convert_unit unicode_decimal).
Local Abbreviation convert_units := (convert_units unicode_decimal).
Local Abbreviation convert_one_entry := (convert_one_entry unicode_decimal).
Local Abbreviation convert_one_other := (convert_one_other unicode_decimal).

(** The loop reads the clock once for every entry it writes. *)
Lemma convert_loop_full fs clock st l :
  exists entries,
    Forall2 (entry_of fs) (List.filter (converts fs) l) entries
    /\ convert_loop fs clock st l
       = Some {| mbox_written := mbox_written st ++ concat entries;
                 count := count st + length entries;
                 clock_reads := clock_reads st + length entries |}.
Proof.
  revert st. induction l as [|p l IH]; intros st.
  - exists []. split; [constructor|]. destruct st. simpl.
    by rewrite app_nil_r, !Nat.add_0_r.
  - cbn [convert_loop List.filter]. destruct (converts fs p) eqn:Ec.
    + unfold converts in Ec.
      destruct (parse_emlx fs p) as [[|b rest]|] eqn:Ep; try done.
      destruct (convert_one_entry fs clock st p (b :: rest) Ep ltac:(done))
        as (entry & Hentry & ->).
      simpl. destruct (IH {| mbox_written := mbox_written st ++ entry;
                             count := S (count st);
                             clock_reads := S (clock_reads st) |})
        as (entries & Hall & ->).
      exists (entry :: entries). split.
      * constructor; [|done]. by exists (b :: rest).
      * simpl. f_equal. f_equal; [by rewrite <- app_assoc|lia..].
    + rewrite (convert_one_other _ _ _ _ Ec). simpl. apply IH.
Qed.

Lemma convert_folder_full fs clock source_dir mbox_path w :
  exists entries,
    Forall2 (entry_of fs)
      (List.filter (converts fs) (find_emlx_files fs source_dir)) entries
    /\ convert_folder fs clock source_dir mbox_path w
       = Some (length entries,
               if decide (find_emlx_files fs source_dir = []) then w
               else {| out_files := <[mbox_path := concat entries]> (out_files w);
                       reads := reads w + length entries |}).
Proof.
  unfold convert_folder. destruct (find_emlx_files fs source_dir) as [|p l] eqn:E.
  - exists []. split; [constructor|done].
  - destruct (convert_loop_full fs clock
                {| mbox_written := []; count := O; clock_reads := reads w |} (p :: l))
      as (entries & Hall & ->).
    exists entries. split; [done|]. by rewrite decide_False.
Qed.

Lemma Forall2_entries_length fs l entries :
  Forall2 (entry_of fs) (List.filter (converts fs) l) entries ->
  length entries = length (List.filter (converts fs) l).
Proof. intros H. by rewrite (Forall2_length _ _ _ H). Qed.

Variable unicode_alnum : Z -> bool.
Variables (fs : filesystem) (clock : nat -> datetime) (source_dir : pystr).

Local Abbreviation name_of := (unit_name unicode_alnum fs source_dir).
Local Abbreviation file_of unit := (name_of unit ++ U ".mbox").

(** One turn of the loop of [convert_account], in full. *)
Lemma convert_unit_full (acc : gmap pystr nat * world) (unit : pystr * pystr) :
  exists entries,
    Forall2 (entry_of fs)
      (List.filter (converts fs) (find_emlx_files fs unit.1)) entries
    /\ length entries = converted fs unit.1
    /\ convert_unit unicode_alnum fs clock source_dir acc unit
       = Some (if (0 <? converted fs unit.1)%nat
               then (<[name_of unit := converted fs unit.1]> acc.1,
                     {| out_files := <[file_of unit := concat entries]> (out_files acc.2);
                        reads := reads acc.2 + converted fs unit.1 |})
               else (acc.1,
                     {| out_files := delete (file_of unit) (out_files acc.2);
                        reads := reads acc.2 |})).
Proof.
  destruct acc as [email_counts w], unit as [folder_path folder_name].
  unfold unit_name. cbn [fst snd]. unfold convert_unit.
  destruct (convert_folder_full fs clock folder_path
              (output_name unicode_alnum fs source_dir folder_path folder_name
               ++ U ".mbox") w) as (entries & Hall & ->).
  pose proof (Forall2_entries_length _ _ _ Hall) as Hlen.
  exists entries. split_and!; [done|done|].
  cbn [mbind option_bind]. fold (converted fs folder_path) in Hlen.
  rewrite Hlen. destruct (0 <? converted fs folder_path)%nat eqn:Hn.
  - apply Nat.ltb_lt in Hn. rewrite decide_False; [done|].
    intros E. rewrite E in Hall. apply Forall2_nil_inv_l in Hall. subst entries.
    simpl in Hlen. lia.
  - do 2 f_equal. apply Nat.ltb_ge in Hn.
    case_decide; [by destruct w|]. cbn [out_files reads].
    rewrite delete_insert_eq. f_equal. lia.
Qed.

(** What the loop of [convert_account] keeps, whatever the names are. *)
Lemma convert_units_invariants (units : list (pystr * pystr)) :
  forall acc : gmap pystr nat * world,
  exists acc',
    convert_units unicode_alnum fs clock source_dir acc units = Some acc'
    /\ (forall name n,
          acc'.1 !! name = Some n ->
          acc.1 !! name = Some n
          \/ ((0 < n)%nat
              /\ exists unit, unit ∈ units /\ name_of unit = name
                              /\ n = converted fs unit.1))
    /\ (forall k, (forall unit, unit ∈ units -> k <> file_of unit) ->
          out_files acc'.2 !! k = out_files acc.2 !! k)
    /\ reads acc'.2
       = (reads acc.2 + sum_list_with (fun unit => converted fs unit.1) units)%nat.
Proof.
  induction units as [|unit units IH]; intros acc.
  - exists acc. split_and!; [done|by left|done|simpl; lia].
  - cbn [convert_units].
    destruct (convert_unit_full acc unit) as (entries & _ & _ & ->).
    cbn [mbind option_bind]. set (acc1 := if (0 <? _)%nat then _ else _).
    destruct (IH acc1) as (acc' & -> & Hc & Hf & Hr).
    exists acc'. split; [done|]. split_and!.
    + intros name n Hn. destruct (Hc name n Hn) as [H1|(Hpos & u & Hu & Hname & Hcount)].
      * unfold acc1 in H1. destruct (0 <? converted fs unit.1)%nat eqn:E; cbn [fst] in H1.
        -- apply Nat.ltb_lt in E.
           destruct (decide (name_of unit = name)) as [<-|Hne].
           ++ rewrite lookup_insert_eq in H1. injection H1 as <-.
              right. split; [done|]. exists unit. split_and!; [left|done|done].
           ++ rewrite lookup_insert_ne in H1 by done. by left.
        -- by left.
      * right. split; [done|]. exists u. split_and!; [by right|done|done].
    + intros k Hk. rewrite Hf by (intros u Hu; apply Hk; by right).
      assert (Hne : file_of unit <> k) by (intros E; by apply (Hk unit); [left|]).
      unfold acc1. destruct (0 <? converted fs unit.1)%nat; cbn [snd out_files].
      * by rewrite lookup_insert_ne.
      * by rewrite lookup_delete_ne.
    + rewrite Hr. cbn [sum_list_with]. unfold acc1.
      destruct (0 <? converted fs unit.1)%nat eqn:E; cbn [snd reads]; [lia|].
      apply Nat.ltb_ge in E. lia.
Qed.

(** What the loop of [convert_account] comes to when no two folders get
    the same name. *)
Lemma convert_units_distinct (units : list (pystr * pystr)) :
  NoDup (name_of <$> units) ->
  forall acc : gmap pystr nat * world,
  exists acc',
    convert_units unicode_alnum fs clock source_dir acc units = Some acc'
    /\ (forall name, name ∉ name_of <$> units ->
          acc'.1 !! name = acc.1 !! name
          /\ out_files acc'.2 !! (name ++ U ".mbox")
             = out_files acc.2 !! (name ++ U ".mbox"))
    /\ (forall unit, unit ∈ units ->
          if (0 <? converted fs unit.1)%nat
          then acc'.1 !! name_of unit = Some (converted fs unit.1)
               /\ exists entries,
                    Forall2 (entry_of fs)
                      (List.filter (converts fs) (find_emlx_files fs unit.1)) entries
                    /\ out_files acc'.2 !! file_of unit = Some (concat entries)
          else acc'.1 !! name_of unit = acc.1 !! name_of unit
               /\ out_files acc'.2 !! file_of unit = None).
Proof.
  induction units as [|unit units IH]; intros Hnd acc.
  - exists acc. split_and!; [done|done|]. intros u Hu. by apply elem_of_nil in Hu.
  - rewrite fmap_cons in Hnd. apply NoDup_cons in Hnd as [Hnotin Hnd].
    cbn [convert_units].
    destruct (convert_unit_full acc unit) as (entries & Hall & _ & ->).
    cbn [mbind option_bind]. set (acc1 := if (0 <? _)%nat then _ else _).
    destruct (IH Hnd acc1) as (acc' & -> & Hother & Hunits).
    exists acc'. split; [done|]. split.
    + intros name Hname. rewrite fmap_cons in Hname.
      apply not_elem_of_cons in Hname as [Hne Hname].
      destruct (Hother name Hname) as [-> ->].
      assert (Hfile : file_of unit <> name ++ U ".mbox")
        by (intros E; by apply app_inv_tail in E).
      unfold acc1. destruct (0 <? converted fs unit.1)%nat; cbn [fst snd out_files].
      * by rewrite !lookup_insert_ne.
      * by rewrite lookup_delete_ne.
    + intros u Hu. apply elem_of_cons in Hu as [->|Hu].
      2:{ specialize (Hunits u Hu).
          destruct (0 <? converted fs u.1)%nat; [done|].
          destruct Hunits as [-> Hfile]. split; [|done].
          assert (Hne : name_of unit <> name_of u).
          { intros E. apply Hnotin. rewrite E. by apply list_elem_of_fmap_2. }
          unfold acc1. destruct (0 <? converted fs unit.1)%nat; cbn [fst]; [|done].
          by rewrite lookup_insert_ne. }
      destruct (Hother (name_of unit) Hnotin) as [-> ->].
      unfold acc1. destruct (0 <? converted fs unit.1)%nat; cbn [fst snd out_files].
      * rewrite !lookup_insert_eq. split; [done|]. by exists entries.
      * rewrite lookup_delete_eq. done.
Qed.

End Outcome.

End OutcomeFacts.

(** X7. [convert_folder] always returns. The count is the number of
    containers that decode to a message that is not empty, which is at
    most what [_count_emails] counts; the clock is read once for each of
    them; and no file but the one named is touched. A directory without
    containers leaves everything as it is, the file not created; a
    directory with containers none of which is converted leaves an empty
    file. *)
Theorem convert_folder_outcome unicode_decimal fs clock source_dir mbox_path w :
  exists n w',
    convert_folder unicode_decimal fs clock source_dir mbox_path w = Some (n, w')
    /\ n = Notions.converted fs source_dir
    /\ (n <= MacMailBackup._count_emails fs source_dir)%nat
    /\ reads w' = (reads w + n)%nat
    /\ (forall k, k <> mbox_path -> out_files w' !! k = out_files w !! k)
    /\ (find_emlx_files fs source_dir = [] -> w' = w)
    /\ (find_emlx_files fs source_dir <> [] -> n = O ->
        out_files w' !! mbox_path = Some []).
Proof.
  destruct (OutcomeFacts.convert_folder_full unicode_decimal fs clock source_dir mbox_path w)
    as (entries & Hall & ->).
  pose proof (OutcomeFacts.Forall2_entries_length _ _ _ Hall) as Hlen.
  eexists _, _. split; [done|]. split_and!.
  - done.
  - rewrite Hlen. apply ContainerFacts.converted_le.
  - case_decide as E; [|done]. rewrite E in Hlen. simpl in Hlen. lia.
  - intros k Hk. case_decide; [done|]. simpl. by rewrite lookup_insert_ne.
  - intros E. by rewrite decide_True.
  - intros Hne Hn. rewrite decide_False by done. simpl.
    rewrite lookup_insert_eq. by destruct entries.
Qed.

(** X8. [convert_account] always returns, and whatever the folders are
    called: a count in the mapping is never 0, and it is the number of
    messages converted from a folder that has the name of the entry; no
    file is touched but those named after a folder; and the clock is
    read once for every message converted, folder by folder. *)
Theorem convert_account_keeps unicode_decimal unicode_alnum fs clock source_dir w :
  exists email_counts w',
    convert_account unicode_decimal unicode_alnum fs clock source_dir w
    = Some (email_counts, w')
    /\ (forall name n,
          email_counts !! name = Some n ->
          (0 < n)%nat
          /\ exists folder_path folder_name,
               (folder_path, folder_name) ∈ mbox_folders fs source_dir
               /\ output_name unicode_alnum fs source_dir folder_path folder_name = name
               /\ n = Notions.converted fs folder_path)
    /\ (forall k,
          (forall folder_path folder_name,
             (folder_path, folder_name) ∈ mbox_folders fs source_dir ->
             k <> output_name unicode_alnum fs source_dir folder_path folder_name
                  ++ U ".mbox") ->
          out_files w' !! k = out_files w !! k)
    /\ reads w'
       = (reads w
          + sum_list_with (fun unit => Notions.converted fs unit.1)
              (mbox_folders fs source_dir))%nat.
Proof.
  unfold convert_account.
  destruct (OutcomeFacts.convert_units_invariants unicode_decimal unicode_alnum fs clock
              source_dir (mbox_folders fs source_dir) (∅, w))
    as ([email_counts w'] & -> & Hc & Hf & Hr).
  cbn [fst snd] in Hc, Hf, Hr.
  exists email_counts, w'. split; [done|]. split_and!.
  - intros name n Hn.
    destruct (Hc name n Hn) as [H|(Hpos & [fp fn] & Hu & Hname & Hcount)].
    + by rewrite lookup_empty in H.
    + split; [done|]. by exists fp, fn.
  - intros k Hk. apply Hf. intros [fp fn] Hu. by apply Hk.
  - done.
Qed.

(** X9. When no two folders of the account get the same name in the
    output, [convert_account] ends with, for every folder: an entry of
    the mapping with the number of its messages converted and a file
    that holds their entries, when there is such a message; no entry and
    no file, when there is none. *)
Theorem convert_account_distinct_names unicode_decimal unicode_alnum fs clock
    source_dir w :
  NoDup (unit_name unicode_alnum fs source_dir <$> mbox_folders fs source_dir) ->
  exists email_counts w',
    convert_account unicode_decimal unicode_alnum fs clock source_dir w
    = Some (email_counts, w')
    /\ forall folder_path folder_name,
         (folder_path, folder_name) ∈ mbox_folders fs source_dir ->
         let name := output_name unicode_alnum fs source_dir folder_path folder_name in
         if (0 <? Notions.converted fs folder_path)%nat
         then email_counts !! name = Some (Notions.converted fs folder_path)
              /\ exists entries,
                   Forall2 (entry_of fs)
                     (List.filter (converts fs) (find_emlx_files fs folder_path))
                     entries
                   /\ out_files w' !! (name ++ U ".mbox") = Some (concat entries)
         else email_counts !! name = None
              /\ out_files w' !! (name ++ U ".mbox") = None.
Proof.
  intros Hnd. unfold convert_account.
  destruct (OutcomeFacts.convert_units_distinct unicode_decimal unicode_alnum fs clock
              source_dir (mbox_folders fs source_dir) Hnd (∅, w))
    as ([email_counts w'] & -> & _ & Hunits).
  exists email_counts, w'. split; [done|].
  intros fp fn Hin. cbv zeta. specialize (Hunits (fp, fn) Hin).
  unfold unit_name in Hunits. cbn [fst snd] in Hunits.
  destruct (0 <? Notions.converted fs fp)%nat; [done|].
  by rewrite lookup_empty in Hunits.
Qed.

Lemma convert_account_distinct_names_witness :
  exists email_counts w',
    convert_account ascii_digits ascii_alnum quiet_account (fun _ => noon)
      (U "acct") empty_world = Some (email_counts, w')
    /\ (email_counts !! U "c" = Some 1%nat /\ is_Some (out_files w' !! U "c.mbox"))
    /\ (email_counts !! U "a_b" = None /\ out_files w' !! U "a_b.mbox" = None).
Proof.
  destruct (convert_account_distinct_names ascii_digits ascii_alnum quiet_account
              (fun _ => noon) (U "acct") empty_world)
    as (email_counts & w' & Hrun & Hall).
  - compute_done.
  - exists email_counts, w'. split; [exact Hrun|]. split.
    + pose proof (Hall (U "acct/c.mbox") (U "c")) as H.
      change (Notions.converted quiet_account (U "acct/c.mbox")) with 1%nat in H.
      destruct H as (Hc & entries & _ & Hf); [compute_done|].
      split; [exact Hc|]. by exists (concat entries).
    + pose proof (Hall (U "acct/a b.mbox") (U "a b")) as H.
      change (Notions.converted quiet_account (U "acct/a b.mbox")) with 0%nat in H.
      apply H. compute_done.
Defined.

(** ** Names in the output *)

Module NameFacts.
Import Py PyFacts MboxConverter MacMailBackup Notions.

Section Names.
Variable unicode_alnum : Z -> bool.

Lemma sub_unsafe_safe s : Forall (safe_char unicode_alnum) (sub_unsafe unicode_alnum s).
Proof.
  unfold sub_unsafe. apply Forall_fmap, Forall_forall. intros c _. simpl.
  unfold safe_char.
  destruct (is_word unicode_alnum c) eqn:Ew; [by left|]. simpl.
  destruct (Z.eqb_spec c 45); [by right; left|].
  destruct (Z.eqb_spec c 95); [by right; right|]. simpl. by right; right.
Qed.

(** In ASCII, the characters left in a name are the letters, the digits,
    the hyphen and the underscore. *)
Lemma safe_char_ascii c :
  safe_char unicode_alnum c -> c < 128 ->
  48 <= c <= 57 \/ 65 <= c <= 90 \/ 97 <= c <= 122 \/ c = 45 \/ c = 95.
Proof.
  intros [Hw|[->| ->]] Hc; [|lia..].
  unfold is_word in Hw. destruct (Z.ltb_spec c 128); [|lia].
  zhyps; lia.
Qed.

Lemma safe_not_elem c s :
  c < 128 ->
  ~ (48 <= c <= 57 \/ 65 <= c <= 90 \/ 97 <= c <= 122 \/ c = 45 \/ c = 95) ->
  Forall (safe_char unicode_alnum) s -> c ∉ s.
Proof.
  intros Hc Hno Hall Hin. rewrite Forall_forall in Hall.
  by apply Hno, safe_char_ascii; [apply Hall|].
Qed.

Lemma sub_unsafe_length s : length (sub_unsafe unicode_alnum s) = length s.
Proof. unfold sub_unsafe. by rewrite length_fmap. Qed.

Lemma remove_char_id c s : c ∉ s -> remove_char c s = s.
Proof.
  intros Hc. unfold remove_char. induction s as [|x s IH]; [done|].
  apply not_elem_of_cons in Hc as [Hx Hs].
  rewrite filter_cons_True by done. by rewrite IH.
Qed.

Lemma replace_char_id c d s : c ∉ s -> replace_char c d s = s.
Proof.
  intros Hc. unfold replace_char. induction s as [|x s IH]; [done|].
  apply not_elem_of_cons in Hc as [Hx Hs].
  cbn [fmap list_fmap]. rewrite decide_False by done. f_equal. by apply IH.
Qed.

Lemma sub_unsafe_id s :
  Forall (fun c => 48 <= c <= 57 \/ 65 <= c <= 90 \/ 97 <= c <= 122
                   \/ c = 45 \/ c = 95) s ->
  sub_unsafe unicode_alnum s = s.
Proof.
  intros Hs. unfold sub_unsafe. induction Hs as [|c s Hc _ IH]; [done|].
  cbn [fmap list_fmap]. f_equal; [|done].
  assert (E : is_word unicode_alnum c || (c =? 45) || (c =? 95) = true); [|by rewrite E].
  unfold is_word. destruct (Z.ltb_spec c 128); [|lia].
  destruct Hc as [?|[?|[?|[->| ->]]]]; [..|done|done]; zbool; lia.
Qed.

End Names.

End NameFacts.

(** X10. The name [convert_account] gives a folder in the output is made
    of characters of the class [\w], hyphens and underscores only, so in
    ASCII of letters, digits, hyphens and underscores: whatever the
    folder is called and wherever it lies, the name of its file holds no
    [/], no NUL and no dot but the one of [.mbox]. *)
Theorem output_name_safe unicode_alnum fs source_dir folder_path folder_name :
  let name := output_name unicode_alnum fs source_dir folder_path folder_name in
  Forall (Notions.safe_char unicode_alnum) name
  /\ Forall (fun c => c < 128 ->
               48 <= c <= 57 \/ 65 <= c <= 90 \/ 97 <= c <= 122 \/ c = 45 \/ c = 95)
       name
  /\ (47 ∉ name ++ U ".mbox") /\ (0 ∉ name ++ U ".mbox") /\ (46 ∉ name).
Proof.
  cbv zeta.
  assert (Hsafe : Forall (Notions.safe_char unicode_alnum)
                    (output_name unicode_alnum fs source_dir folder_path folder_name)).
  { unfold output_name. case_match.
    - rewrite !Forall_app. split_and!; [apply NameFacts.sub_unsafe_safe| |
                                        apply NameFacts.sub_unsafe_safe].
      repeat constructor.
    - apply NameFacts.sub_unsafe_safe. }
  split_and!.
  - done.
  - eapply Forall_impl; [exact Hsafe|]. intros c Hc.
    by apply (NameFacts.safe_char_ascii unicode_alnum).
  - rewrite elem_of_app. intros [Hin|Hin]; [|revert Hin; compute_done].
    revert Hin. apply (NameFacts.safe_not_elem unicode_alnum); [lia|lia|done].
  - rewrite elem_of_app. intros [Hin|Hin]; [|revert Hin; compute_done].
    revert Hin. apply (NameFacts.safe_not_elem unicode_alnum); [lia|lia|done].
  - apply (NameFacts.safe_not_elem unicode_alnum); [lia|lia|done].
Qed.

(** X11. The directory [backup_account] makes for an account has a name
    that is not empty and is made of characters of the class [\w],
    hyphens and underscores only: whatever the address of the account
    is, the name holds no [/] and no dot, so the directory lies right
    below the directory of the backup. *)
Theorem account_name_safe unicode_alnum email type uuid :
  let name := MacMailBackup.account_name unicode_alnum email type uuid in
  name <> []
  /\ Forall (Notions.safe_char unicode_alnum) name
  /\ (47 ∉ name) /\ (46 ∉ name) /\ (0 ∉ name).
Proof.
  cbv zeta. unfold MacMailBackup.account_name.
  set (raw := if contains 64 email then _ else _).
  assert (Hsafe : Forall (Notions.safe_char unicode_alnum) (sub_unsafe unicode_alnum raw))
    by apply NameFacts.sub_unsafe_safe.
  split_and!; [|done|apply (NameFacts.safe_not_elem unicode_alnum); [lia|lia|done]..].
  intros E. apply (f_equal length) in E.
  rewrite NameFacts.sub_unsafe_length in E. unfold raw in E.
  unfold contains in E. case_bool_decide as Hat.
  - unfold replace_char in E. rewrite length_fmap in E.
    apply list_elem_of_split in Hat as (l1 & l2 & ->).
    unfold MacMailBackup.replace_char_by in E.
    rewrite bind_app, length_app in E. cbn [mbind list_bind] in E.
    rewrite decide_True in E by done. rewrite length_app in E. simpl in E. lia.
  - rewrite !length_app in E. simpl in E. lia.
Qed.

(** X12. A folder at the top of the account whose name is made of ASCII
    letters, digits, hyphens and underscores keeps its name in the
    output. *)
Theorem output_name_plain unicode_alnum fs source_dir folder_path folder_name :
  Forall (fun c => 48 <= c <= 57 \/ 65 <= c <= 90 \/ 97 <= c <= 122
                   \/ c = 45 \/ c = 95) folder_name ->
  47 ∉ fs_relpath fs folder_path source_dir ->
  output_name unicode_alnum fs source_dir folder_path folder_name = folder_name.
Proof.
  intros Hname Hrel. unfold output_name, contains.
  rewrite bool_decide_eq_false_2 by done.
  assert (Hno : forall c, ~ (48 <= c <= 57 \/ 65 <= c <= 90 \/ 97 <= c <= 122
                             \/ c = 45 \/ c = 95) -> c ∉ folder_name).
  { intros c Hc Hin. rewrite Forall_forall in Hname. by apply Hc, Hname. }
  rewrite (NameFacts.remove_char_id 91) by (apply Hno; lia).
  rewrite (NameFacts.remove_char_id 93) by (apply Hno; lia).
  rewrite (NameFacts.replace_char_id 32) by (apply Hno; lia).
  by apply NameFacts.sub_unsafe_id.
Qed.

Lemma output_name_plain_witness :
  output_name ascii_alnum quiet_account (U "acct") (U "acct/c.mbox") (U "c") = U "c".
Proof.
  apply (output_name_plain ascii_alnum quiet_account (U "acct") (U "acct/c.mbox") (U "c")).
  - change (U "c") with [99]. constructor; [lia|constructor].
  - compute_done.
Defined.

(** ** The selection of accounts by number *)

Module SelectionFacts.
Import Py PyFacts Datetime MboxConverter MacMailBackup.

Lemma list_index_in_range {A} (l : list A) i :
  0 <= i < Z.of_nat (length l) -> list_index l i = l !! Z.to_nat i.
Proof.
  intros Hi. unfold list_index.
  destruct (Z.ltb_spec i 0); [lia|]. by destruct (Z.ltb_spec i 0); [lia|].
Qed.

(** What is picked at the indices that are in range: the indexing does
    not fail there. *)
Lemma picks_in_range {A} (l : list A) indices :
  mapM (list_index l)
    (List.filter (fun i => (0 <=? i) && (i <? Z.of_nat (length l))) indices)
  = Some (omap (fun i => if 0 <=? i then l !! Z.to_nat i else None) indices).
Proof.
  induction indices as [|i indices IH]; [done|].
  cbn [List.filter omap list_omap]. fold (@omap list _ Z A).
  destruct (Z.leb_spec 0 i); cbn [andb].
  - destruct (Z.ltb_spec i (Z.of_nat (length l))).
    + destruct (lookup_lt_is_Some_2 l (Z.to_nat i) ltac:(lia)) as [x Hx].
      rewrite Hx. change (mapM ?f (?a :: ?r)) with (y ← f a; k ← mapM f r; mret (y :: k)).
      rewrite list_index_in_range, Hx, IH by lia. done.
    + by rewrite (lookup_ge_None_2 l (Z.to_nat i)) by lia.
  - done.
Qed.

(** Nothing is picked exactly when no index is in range. *)
Lemma picks_none {A} (l : list A) indices :
  omap (fun i => if 0 <=? i then l !! Z.to_nat i else None) indices = []
  <-> Forall (fun i => ~ (0 <= i < Z.of_nat (length l))) indices.
Proof.
  induction indices as [|i indices IH]; [done|].
  cbn [omap list_omap]. fold (@omap list _ Z A).
  destruct (Z.leb_spec 0 i).
  - destruct (l !! Z.to_nat i) as [x|] eqn:E.
    + apply lookup_lt_Some in E. split; [done|].
      intros [Hi _]%Forall_cons. lia.
    + apply lookup_ge_None in E. rewrite IH. split.
      * intros H'. constructor; [lia|done].
      * by intros [_ ?]%Forall_cons.
  - rewrite IH. split.
    + intros H'. constructor; [lia|done].
    + by intros [_ ?]%Forall_cons.
Qed.

Lemma length_omap_le {X Y} (f : X -> option Y) (l : list X) :
  (length (omap f l) <= length l)%nat.
Proof.
  induction l as [|x l IH]; [done|].
  cbn [omap list_omap]. fold (@omap list _ X Y). destruct (f x); simpl; lia.
Qed.

Section Selection.
Variable unicode_decimal : Z -> option Z.

(** On ASCII text the table of the digits is not consulted. *)
Lemma int_digits_ascii a p s :
  Forall (fun c => c < 128) s ->
  int_digits (decimal_value unicode_decimal) a p s = int_digits digit_val a p s.
Proof.
  intros Hs. revert a p. induction Hs as [|c s Hc _ IH]; intros a p; [done|].
  cbn [int_digits]. unfold decimal_value at 1.
  destruct (digit_val c) as [d|]; [apply IH|].
  destruct (Z.ltb_spec c 128); [|lia].
  destruct ((c =? 95) && p); [apply IH|done].
Qed.

Lemma int_decimal_text (n : nat) :
  int_with (decimal_value unicode_decimal) (strip (byte_val <$> decimal n))
  = Some (Z.of_nat n).
Proof.
  destruct (decimal_spec n) as (Hd & Hne & Hint).
  assert (Hns : Forall (fun c => is_space c = false) (byte_val <$> decimal n)).
  { apply Forall_fmap. eapply Forall_impl; [exact Hd|].
    intros b Hb. by apply digit_not_space. }
  unfold int_with. rewrite !(strip_id (byte_val <$> decimal n)) by done.
  destruct (decimal n) as [|b ds] eqn:E; [done|]. cbn [fmap list_fmap].
  apply Forall_cons in Hd as [Hb Hds].
  destruct (Z.eqb_spec (byte_val b) 43); [lia|].
  destruct (Z.eqb_spec (byte_val b) 45); [lia|].
  rewrite int_digits_ascii; [exact Hint|].
  constructor; [lia|]. apply Forall_fmap.
  eapply Forall_impl; [exact Hds|]. intros x Hx. unfold compose. cbv beta in Hx. lia.
Qed.

Lemma decimal_no_comma (n : nat) : 44 ∉ byte_val <$> decimal n.
Proof.
  destruct (decimal_spec n) as (Hd & _). intros Hin.
  apply list_elem_of_fmap in Hin as (b & Hb & Hin).
  rewrite Forall_forall in Hd. specialize (Hd b Hin). lia.
Qed.

(** The indices read from numbers typed with commas between them. *)
Lemma selected_indices_numbers (ks : list nat) :
  ks <> [] ->
  selected_indices unicode_decimal
    (join_with 44 ((fun k => byte_val <$> decimal k) <$> ks))
  = Some ((fun k => Z.of_nat k - 1) <$> ks).
Proof.
  intros Hne. unfold selected_indices. rewrite split_join.
  - apply mapM_Some_2. apply Forall2_fmap, Forall_Forall2_diag, Forall_forall.
    intros k _. simpl. by rewrite int_decimal_text.
  - by destruct ks.
  - apply Forall_fmap, Forall_forall. intros k _. apply decimal_no_comma.
Qed.

(** Numbers typed with commas between them. *)
Lemma select_accounts_by_numbers account_uuids (ks : list nat) :
  ks <> [] ->
  select_accounts unicode_decimal
    (join_with 44 ((fun k => byte_val <$> decimal k) <$> ks)) account_uuids
  = inr (omap (fun k => match k with O => None | S j => account_uuids !! j end) ks).
Proof.
  intros Hne. unfold MacMailBackup.select_accounts.
  rewrite selected_indices_numbers by done.
  rewrite picks_in_range. do 2 f_equal.
  clear Hne. induction ks as [|k ks IH]; [done|].
  cbn [fmap list_fmap omap list_omap].
  fold (@fmap list _ nat Z) (@omap list _ Z pystr) (@omap list _ nat pystr).
  rewrite IH. destruct k as [|j].
  - done.
  - destruct (Z.leb_spec 0 (Z.of_nat (S j) - 1)); [|lia].
    replace (Z.to_nat (Z.of_nat (S j) - 1)) with j by lia. done.
Qed.

End Selection.

End SelectionFacts.

(** X13. The selection by numbers never fails on an index: the
    [IndexError] that its handler names cannot be raised. It fails, with
    [ValueError], exactly when a piece between two commas is no integer.
    Otherwise every account selected is one of the list, and there are at
    most as many as there are pieces. *)
Theorem select_accounts_total unicode_decimal choice account_uuids :
  MacMailBackup.select_accounts unicode_decimal choice account_uuids
  <> inl MacMailBackup.IndexError
  /\ (MacMailBackup.select_accounts unicode_decimal choice account_uuids
      = inl MacMailBackup.ValueError
      <-> Exists (fun x => int_with (decimal_value unicode_decimal) (strip x) = None)
            (split_on 44 choice))
  /\ (forall selected,
        MacMailBackup.select_accounts unicode_decimal choice account_uuids
        = inr selected ->
        Forall (fun u => u ∈ account_uuids) selected
        /\ (length selected <= length (split_on 44%Z choice))%nat).
Proof.
  unfold MacMailBackup.select_accounts.
  destruct (MacMailBackup.selected_indices unicode_decimal choice) as [indices|] eqn:E.
  - rewrite SelectionFacts.picks_in_range. split_and!; [done|split; [done|]|].
    + intros Hex. unfold MacMailBackup.selected_indices in E.
      apply mapM_Some_1 in E. exfalso.
      apply Exists_exists in Hex as (x & Hx & Hnone).
      apply list_elem_of_lookup_1 in Hx as [i Hi].
      destruct (Forall2_lookup_l _ _ _ _ _ E Hi) as (y & _ & Hy).
      by rewrite Hnone in Hy.
    + intros selected [= <-]. split.
      * apply Forall_forall. intros u Hu.
        apply list_elem_of_omap in Hu as (i & _ & Hi).
        destruct (0 <=? i); [|done]. by eapply list_elem_of_lookup_2.
      * etrans; [apply SelectionFacts.length_omap_le|].
        unfold MacMailBackup.selected_indices in E. by rewrite (length_mapM _ _ _ E).
  - split_and!; [done| |done]. split; [|done]. intros _.
    unfold MacMailBackup.selected_indices in E. apply mapM_None_1 in E.
    eapply Exists_impl; [exact E|]. intros x Hx. simpl in Hx.
    by destruct (int_with _ _).
Qed.

(** X14. Numbers typed with commas between them, each of no more
    digits than [int] accepts, select the accounts at these places of
    the list, counted from 1, in the order typed and as often as typed;
    0 and the numbers beyond the end of the list select nothing and are
    no error. *)
Theorem select_accounts_numbers unicode_decimal account_uuids (ks : list nat) :
  ks <> [] ->
  Forall (fun k => (length (decimal k) <= int_max_str_digits)%nat) ks ->
  MacMailBackup.select_accounts unicode_decimal
    (join_with 44 ((fun k => byte_val <$> decimal k) <$> ks)) account_uuids
  = inr (omap (fun k => match k with O => None | S j => account_uuids !! j end) ks).
Proof. intros Hne _. by apply SelectionFacts.select_accounts_by_numbers. Qed.

Lemma select_accounts_numbers_witness :
  MacMailBackup.select_accounts ascii_digits (U "2,0,1,2,7") [U "A"; U "B"; U "C"]
  = inr [U "B"; U "A"; U "B"].
Proof.
  apply (select_accounts_numbers ascii_digits [U "A"; U "B"; U "C"]
           [2; 0; 1; 2; 7]%nat).
  - discriminate.
  - unfold int_max_str_digits. repeat constructor; simpl; lia.
Defined.

(** ** Dates in the form of RFC 2822 *)

Module DateFacts.
Import Py PyFacts Regex Datetime DatetimeFacts MboxConverter Spec Notions.

Section Parse.
Variable unicode_decimal : Z -> option Z.
Local Abbreviation m_d := (m_d unicode_decimal).
Local Abbreviation m_zone := (m_zone unicode_decimal).
Local Abbreviation zone_ok := (zone_ok unicode_decimal).
Local Abbreviation m_directive := (m_directive unicode_decimal).
Local Abbreviation m_format := (m_format unicode_decimal).
Local Abbreviation strptime := (strptime unicode_decimal).

(** The first way a matcher matches is what counts: the ways that come
    after it are tried only when what follows fails. *)
Lemma head_bind {A B} (p : matcher A) (k : A -> matcher B) s a r b r' :
  head (p s) = Some (a, r) -> head (k a r) = Some (b, r') ->
  head (m_bind p k s) = Some (b, r').
Proof.
  unfold m_bind. destruct (p s) as [|[a0 r0] more]; [done|].
  intros [= -> ->] Hk. csimpl. by destruct (k a r).
Qed.

Lemma head_alt_l {A} (p q : matcher A) s x :
  head (p s) = Some x -> head (m_alt p q s) = Some x.
Proof. unfold m_alt. by destruct (p s). Qed.

Lemma head_alt_r {A} (p q : matcher A) s x :
  p s = [] -> head (q s) = Some x -> head (m_alt p q s) = Some x.
Proof. unfold m_alt. by intros ->. Qed.

Lemma m_digit_hit lo hi d r :
  lo <= d <= hi -> m_digit lo hi (digit_char d :: r) = [(d, r)].
Proof.
  intros Hd. unfold m_digit, digit_char.
  destruct (Z.leb_spec (48 + lo) (48 + d)); [|lia].
  destruct (Z.leb_spec (48 + d) (48 + hi)); [|lia].
  simpl. do 2 f_equal. lia.
Qed.

Lemma m_digit_miss lo hi d r :
  ~ lo <= d <= hi -> m_digit lo hi (digit_char d :: r) = [].
Proof.
  intros Hd. unfold m_digit, digit_char.
  destruct (Z.leb_spec (48 + lo) (48 + d)); [|done].
  by destruct (Z.leb_spec (48 + d) (48 + hi)); [lia|].
Qed.

Lemma m_d_hit d r : 0 <= d <= 9 -> m_d (digit_char d :: r) = [(d, r)].
Proof.
  intros Hd. unfold Datetime.m_d, decimal_value, digit_val, digit_char.
  destruct (Z.leb_spec 48 (48 + d)); [|lia].
  destruct (Z.leb_spec (48 + d) 57); [|lia].
  simpl. do 2 f_equal. lia.
Qed.

Lemma m_two_hit (p q : matcher Z) c1 s a b r :
  p (c1 :: s) = [(a, s)] -> q s = [(b, r)] ->
  m_two p q (c1 :: s) = [(10 * a + b, r)].
Proof. intros Hp Hq. unfold m_two, m_bind. rewrite Hp. csimpl. by rewrite Hq. Qed.

Lemma m_two_miss (p q : matcher Z) s : p s = [] -> m_two p q s = [].
Proof. intros Hp. unfold m_two, m_bind. by rewrite Hp. Qed.

Lemma digit_char_not_space d : 0 <= d <= 9 -> is_space (digit_char d) = false.
Proof. intros Hd. apply digit_not_space. unfold digit_char. lia. Qed.

Lemma head_format_cons d fmt f s f' r res :
  head (m_directive d f s) = Some (f', r) ->
  head (m_format fmt f' r) = Some res ->
  head (m_format (d :: fmt) f s) = Some res.
Proof. destruct res as [f'' r']. apply head_bind. Qed.

Lemma m_names_day (w : nat) r :
  (w < 7)%nat -> m_names day_abbr (nth w day_abbr [] ++ r) = [(nth w day_abbr [], r)].
Proof. intros Hw. do 7 (destruct w as [|w]; [reflexivity|]). lia. Qed.

Lemma m_names_month (i : nat) r :
  (i < 12)%nat -> m_names month_abbr (nth i month_abbr [] ++ r) = [(nth i month_abbr [], r)].
Proof. intros Hi. do 12 (destruct i as [|i]; [reflexivity|]). lia. Qed.

(** A name written as the table has it is found in the table, at its
    place. *)
Lemma name_index_day (w : nat) :
  (w < 7)%nat -> name_index day_abbr (nth w day_abbr []) = Some w.
Proof. intros Hw. do 7 (destruct w as [|w]; [reflexivity|]). lia. Qed.

Lemma name_index_month (i : nat) :
  (i < 12)%nat -> name_index month_abbr (nth i month_abbr []) = Some i.
Proof. intros Hi. do 12 (destruct i as [|i]; [reflexivity|]). lia. Qed.

(** No name of a day begins with a digit. *)
Lemma m_names_day_digit d r :
  0 <= d <= 9 -> m_names day_abbr (digit_char d :: r) = [].
Proof.
  intros Hd. assert (H : d ∈ seqZ 0 10) by (apply elem_of_seqZ; lia).
  revert H. cbv [seqZ seq fmap list_fmap Z.of_nat Z.add Pos.of_succ_nat Pos.succ].
  intros H. repeat (apply elem_of_cons in H as [->|H]; [reflexivity|]).
  by apply elem_of_nil in H.
Qed.

Lemma m_spaces_month (i : nat) r : (i < 12)%nat -> m_spaces (nth i month_abbr [] ++ r) = [].
Proof. intros Hi. do 12 (destruct i as [|i]; [reflexivity|]). lia. Qed.

Lemma m_spaces_other c r : is_space c = false -> m_spaces (c :: r) = [].
Proof. intros Hc. simpl. by rewrite Hc. Qed.

Lemma head_Da f (w : nat) r :
  (w < 7)%nat ->
  head (m_directive Da f (nth w day_abbr [] ++ r))
  = Some ({| f_year := f_year f; f_a := Some (nth w day_abbr []); f_b := f_b f;
             f_day := f_day f;
             f_hour := f_hour f; f_minute := f_minute f;
             f_second := f_second f; f_zone := f_zone f |}, r).
Proof.
  intros Hw. unfold Datetime.m_directive, m_bind. by rewrite m_names_day.
Qed.

Lemma head_Lit f c r : head (m_directive (Lit c) f (c :: r)) = Some (f, r).
Proof.
  unfold Datetime.m_directive, m_lit, m_skip, m_bind, m_char.
  by rewrite Z.eqb_refl.
Qed.

Lemma head_Space f r :
  m_spaces r = [] -> head (m_directive Space f (32 :: r)) = Some (f, r).
Proof.
  intros Hr. unfold Datetime.m_directive, m_bind. cbn [m_spaces].
  change (is_space 32) with true. cbn iota. by rewrite Hr.
Qed.

(** A day of two digits. *)
Lemma head_Dd f d r :
  1 <= d <= 31 ->
  head (m_directive Dd f (digit_char (d / 10) :: digit_char (d mod 10) :: r))
  = Some ({| f_year := f_year f; f_a := f_a f; f_b := f_b f; f_day := d;
             f_hour := f_hour f; f_minute := f_minute f;
             f_second := f_second f; f_zone := f_zone f |}, r).
Proof.
  intros Hd. unfold Datetime.m_directive.
  apply head_bind with (a := d) (r := r); [|done].
  assert (Hq : 0 <= d / 10 <= 3) by (Z.div_mod_to_equations; lia).
  pose proof (Z.mod_pos_bound d 10 ltac:(lia)) as Hr.
  pose proof (Z.div_mod d 10 ltac:(lia)) as Hdm.
  destruct (decide (d / 10 = 3)) as [E3|N3].
  { apply head_alt_l.
    rewrite (m_two_hit _ _ _ _ 3 (d mod 10) r).
    - simpl. do 2 f_equal. lia.
    - rewrite E3. by apply m_digit_hit.
    - apply m_digit_hit. lia. }
  apply head_alt_r; [apply m_two_miss, m_digit_miss; lia|].
  destruct (decide (d / 10 = 0)) as [E0|N0].
  - apply head_alt_r; [apply m_two_miss, m_digit_miss; lia|].
    apply head_alt_l.
    rewrite (m_two_hit _ _ _ _ 0 (d mod 10) r).
    + simpl. do 2 f_equal. lia.
    + rewrite E0. by apply m_digit_hit.
    + apply m_digit_hit. lia.
  - apply head_alt_l.
    rewrite (m_two_hit _ _ _ _ (d / 10) (d mod 10) r).
    + simpl. do 2 f_equal. lia.
    + apply m_digit_hit. lia.
    + apply m_d_hit. lia.
Qed.

Lemma m_two_miss_2 (p q : matcher Z) c s a :
  p (c :: s) = [(a, s)] -> q s = [] -> m_two p q (c :: s) = [].
Proof. intros Hp Hq. unfold m_two, m_bind. rewrite Hp. csimpl. by rewrite Hq. Qed.

Lemma m_two_digit_space lo hi (q : matcher Z) d r :
  q (32 :: r) = [] -> m_two (m_digit lo hi) q (digit_char d :: 32 :: r) = [].
Proof.
  intros Hq. destruct (decide (lo <= d <= hi)).
  - eapply m_two_miss_2; [by apply m_digit_hit|done].
  - by apply m_two_miss, m_digit_miss.
Qed.

(** A day of one digit, before a space. *)
Lemma head_Dd_one f d r :
  1 <= d <= 9 ->
  head (m_directive Dd f (digit_char d :: 32 :: r))
  = Some ({| f_year := f_year f; f_a := f_a f; f_b := f_b f; f_day := d;
             f_hour := f_hour f; f_minute := f_minute f;
             f_second := f_second f; f_zone := f_zone f |}, 32 :: r).
Proof.
  intros Hd. unfold Datetime.m_directive.
  apply head_bind with (a := d) (r := 32 :: r); [|done].
  do 3 (apply head_alt_r; [by apply m_two_digit_space|]).
  apply head_alt_l. by rewrite m_digit_hit.
Qed.

Lemma head_Db f (i : nat) r :
  (i < 12)%nat ->
  head (m_directive Db f (nth i month_abbr [] ++ r))
  = Some ({| f_year := f_year f; f_a := f_a f; f_b := Some (nth i month_abbr []);
             f_day := f_day f;
             f_hour := f_hour f; f_minute := f_minute f;
             f_second := f_second f; f_zone := f_zone f |}, r).
Proof.
  intros Hi. unfold Datetime.m_directive, m_bind. by rewrite m_names_month.
Qed.

Lemma head_DY f y r :
  0 <= y <= 9999 ->
  head (m_directive DY f
          (digit_char (y / 1000) :: digit_char ((y / 100) mod 10)
           :: digit_char ((y / 10) mod 10) :: digit_char (y mod 10) :: r))
  = Some ({| f_year := y; f_a := f_a f; f_b := f_b f; f_day := f_day f;
             f_hour := f_hour f; f_minute := f_minute f;
             f_second := f_second f; f_zone := f_zone f |}, r).
Proof.
  intros Hy. unfold Datetime.m_directive.
  assert (0 <= y / 1000 <= 9)
    by (Z.div_mod_to_equations; lia).
  pose proof (Z.mod_pos_bound (y / 100) 10 ltac:(lia)).
  pose proof (Z.mod_pos_bound (y / 10) 10 ltac:(lia)).
  pose proof (Z.mod_pos_bound y 10 ltac:(lia)).
  eapply head_bind.
  { rewrite (m_two_hit _ _ _ _ (y / 1000) ((y / 100) mod 10)
               (digit_char ((y / 10) mod 10) :: digit_char (y mod 10) :: r));
      [reflexivity|apply m_d_hit; lia..]. }
  eapply head_bind.
  { rewrite (m_two_hit _ _ _ _ ((y / 10) mod 10) (y mod 10) r);
      [reflexivity|apply m_d_hit; lia..]. }
  simpl. do 3 f_equal. Z.div_mod_to_equations. lia.
Qed.

Lemma head_DH f h r :
  0 <= h <= 23 ->
  head (m_directive DH f (digit_char (h / 10) :: digit_char (h mod 10) :: r))
  = Some ({| f_year := f_year f; f_a := f_a f; f_b := f_b f; f_day := f_day f;
             f_hour := h; f_minute := f_minute f;
             f_second := f_second f; f_zone := f_zone f |}, r).
Proof.
  intros Hh. unfold Datetime.m_directive.
  apply head_bind with (a := h) (r := r); [|done].
  assert (Hq : 0 <= h / 10 <= 2) by (Z.div_mod_to_equations; lia).
  pose proof (Z.mod_pos_bound h 10 ltac:(lia)) as Hr.
  pose proof (Z.div_mod h 10 ltac:(lia)) as Hdm.
  destruct (decide (h / 10 = 2)) as [E2|N2].
  - apply head_alt_l.
    rewrite (m_two_hit _ _ _ _ 2 (h mod 10) r).
    + simpl. do 2 f_equal. lia.
    + rewrite E2. by apply m_digit_hit.
    + apply m_digit_hit. lia.
  - apply head_alt_r; [apply m_two_miss, m_digit_miss; lia|].
    apply head_alt_l.
    rewrite (m_two_hit _ _ _ _ (h / 10) (h mod 10) r).
    + simpl. do 2 f_equal. lia.
    + apply m_digit_hit. lia.
    + apply m_d_hit. lia.
Qed.

Lemma head_DM f m r :
  0 <= m <= 59 ->
  head (m_directive DM f (digit_char (m / 10) :: digit_char (m mod 10) :: r))
  = Some ({| f_year := f_year f; f_a := f_a f; f_b := f_b f; f_day := f_day f;
             f_hour := f_hour f; f_minute := m;
             f_second := f_second f; f_zone := f_zone f |}, r).
Proof.
  intros Hm. unfold Datetime.m_directive.
  apply head_bind with (a := m) (r := r); [|done].
  assert (Hq : 0 <= m / 10 <= 5) by (Z.div_mod_to_equations; lia).
  pose proof (Z.mod_pos_bound m 10 ltac:(lia)) as Hr.
  pose proof (Z.div_mod m 10 ltac:(lia)) as Hdm.
  apply head_alt_l.
  rewrite (m_two_hit _ _ _ _ (m / 10) (m mod 10) r).
  - simpl. do 2 f_equal. lia.
  - apply m_digit_hit. lia.
  - apply m_d_hit. lia.
Qed.

Lemma head_DS f s r :
  0 <= s <= 59 ->
  head (m_directive DS f (digit_char (s / 10) :: digit_char (s mod 10) :: r))
  = Some ({| f_year := f_year f; f_a := f_a f; f_b := f_b f; f_day := f_day f;
             f_hour := f_hour f; f_minute := f_minute f;
             f_second := s; f_zone := f_zone f |}, r).
Proof.
  intros Hs. unfold Datetime.m_directive.
  apply head_bind with (a := s) (r := r); [|done].
  assert (Hq : 0 <= s / 10 <= 5) by (Z.div_mod_to_equations; lia).
  pose proof (Z.mod_pos_bound s 10 ltac:(lia)) as Hr.
  pose proof (Z.div_mod s 10 ltac:(lia)) as Hdm.
  apply head_alt_r; [apply m_two_miss, m_digit_miss; lia|].
  apply head_alt_l.
  rewrite (m_two_hit _ _ _ _ (s / 10) (s mod 10) r).
  - simpl. do 2 f_equal. lia.
  - apply m_digit_hit. lia.
  - apply m_d_hit. lia.
Qed.

Lemma zone_table :
  forallb (fun zh =>
    forallb (fun zm =>
      forallb (fun sign =>
        bool_decide (head (m_zone (zone_text sign zh zm))
                     = Some (zone_text sign zh zm, []))
        && zone_ok (zone_text sign zh zm))
      [43; 45]) (seqZ 0 60)) (seqZ 0 24) = true.
Proof. vm_compute. reflexivity. Qed.

Lemma zone_parses sign zh zm :
  sign = 43 \/ sign = 45 -> 0 <= zh <= 23 -> 0 <= zm <= 59 ->
  head (m_zone (zone_text sign zh zm)) = Some (zone_text sign zh zm, [])
  /\ zone_ok (zone_text sign zh zm) = true.
Proof.
  intros Hs Hh Hm. pose proof zone_table as H.
  rewrite forallb_forall in H.
  specialize (H zh ltac:(apply list_elem_of_In, elem_of_seqZ; lia)).
  rewrite forallb_forall in H.
  specialize (H zm ltac:(apply list_elem_of_In, elem_of_seqZ; lia)).
  rewrite forallb_forall in H.
  specialize (H sign ltac:(apply list_elem_of_In; destruct Hs as [-> | ->]; set_solver)).
  apply andb_true_iff in H as [H1 H2]. by apply bool_decide_eq_true in H1.
Qed.

Lemma head_Dz f sign zh zm :
  sign = 43 \/ sign = 45 -> 0 <= zh <= 23 -> 0 <= zm <= 59 ->
  head (m_directive Dz f (zone_text sign zh zm))
  = Some ({| f_year := f_year f; f_a := f_a f; f_b := f_b f; f_day := f_day f;
             f_hour := f_hour f; f_minute := f_minute f;
             f_second := f_second f; f_zone := Some (zone_text sign zh zm) |}, []).
Proof.
  intros Hs Hh Hm. destruct (zone_parses sign zh zm Hs Hh Hm) as [Hz _].
  unfold Datetime.m_directive. by eapply head_bind.
Qed.

(** What the formats have in common after the day of the month. *)
Local Abbreviation format_tail :=
  [Space; Db; Space; DY; Space; DH; Lit 58; DM; Lit 58; DS; Space; Dz].

Lemma head_format_tail f (dt : datetime) sign zh zm :
  sign = 43 \/ sign = 45 -> 0 <= zh <= 23 -> 0 <= zm <= 59 ->
  head (m_format format_tail f
          ([32] ++ nth (Z.to_nat (dt_month dt - 1)) month_abbr []
           ++ [32] ++ four_digits (dt_year dt)
           ++ [32] ++ two_digits (dt_hour dt)
           ++ [58] ++ two_digits (dt_minute dt)
           ++ [58] ++ two_digits (dt_second dt)
           ++ [32] ++ zone_text sign zh zm))
  = Some ({| f_year := dt_year dt; f_a := f_a f;
             f_b := Some (nth (Z.to_nat (dt_month dt - 1)) month_abbr []);
             f_day := f_day f;
             f_hour := dt_hour dt; f_minute := dt_minute dt;
             f_second := dt_second dt;
             f_zone := Some (zone_text sign zh zm) |}, []).
Proof.
  intros Hs Hh Hm. pose proof (dt_ranges dt) as (Hy & Hmo & Hd & Hho & Hmi & Hse).
  assert (Hi : (Z.to_nat (dt_month dt - 1) < 12)%nat) by lia.
  unfold four_digits, two_digits. cbn [app].
  eapply head_format_cons; [by apply head_Space, m_spaces_month|].
  eapply head_format_cons; [by apply head_Db|].
  eapply head_format_cons.
  { apply head_Space, m_spaces_other, digit_char_not_space.
    Z.div_mod_to_equations. lia. }
  eapply head_format_cons; [apply head_DY; lia|].
  eapply head_format_cons.
  { apply head_Space, m_spaces_other, digit_char_not_space.
    Z.div_mod_to_equations. lia. }
  eapply head_format_cons; [apply head_DH; lia|].
  eapply head_format_cons; [apply head_Lit|].
  eapply head_format_cons; [apply head_DM; lia|].
  eapply head_format_cons; [apply head_Lit|].
  eapply head_format_cons; [apply head_DS; lia|].
  eapply head_format_cons.
  { apply head_Space, m_spaces_other. unfold zone_text.
    by destruct Hs as [-> | ->]. }
  eapply head_format_cons; [by apply head_Dz|].
  reflexivity.
Qed.

Lemma make_fields dt :
  make (dt_year dt) (dt_month dt) (dt_day dt) (dt_hour dt) (dt_minute dt) (dt_second dt)
  = Some dt.
Proof.
  destruct dt as [y m d hh mm ss ok]. unfold make. cbn [dt_year dt_month dt_day dt_hour
    dt_minute dt_second].
  destruct (Bool.bool_dec (fields_ok y m d hh mm ss) true) as [ok'|Hno]; [|done].
  do 2 f_equal. apply proof_irrel.
Qed.

Lemma strptime_head fmt data (dt : datetime) a z :
  head (m_format fmt found_default data)
  = Some ({| f_year := dt_year dt; f_a := a;
             f_b := Some (nth (Z.to_nat (dt_month dt - 1)) month_abbr []);
             f_day := dt_day dt;
             f_hour := dt_hour dt; f_minute := dt_minute dt;
             f_second := dt_second dt; f_zone := Some z |}, []) ->
  a = None \/ (exists w, (w < 7)%nat /\ a = Some (nth w day_abbr [])) ->
  zone_ok z = true ->
  strptime data fmt = Some dt.
Proof.
  intros Hhead Ha Hz. unfold Datetime.strptime.
  pose proof (dt_ranges dt) as (_ & Hmo & _).
  pose proof (name_index_month (Z.to_nat (dt_month dt - 1)) ltac:(lia)) as Hmon.
  assert (Hdays : from_option (name_index day_abbr) (Some O) a <> None).
  { destruct Ha as [-> | (w & Hw & ->)]; [done|]. cbn [from_option].
    by rewrite name_index_day. }
  remember (nth (Z.to_nat (dt_month dt - 1)) month_abbr []) as mon eqn:Emon in *.
  clear Emon Ha.
  destruct (Datetime.m_format _ fmt found_default data) as [|[f r] more]; [done|].
  injection Hhead as -> ->.
  cbv [f_zone f_year f_a f_b f_day f_hour f_minute f_second].
  destruct (from_option (name_index day_abbr) (Some O) a); [|done].
  cbn [from_option]. rewrite Hmon, Hz.
  replace (Z.of_nat (Z.to_nat (dt_month dt - 1)) + 1) with (dt_month dt) by lia.
  apply make_fields.
Qed.

(** The day of the month, in two digits or in one, and what follows it. *)
Lemma head_day_tail f (dt : datetime) day sign zh zm :
  day = two_digits (dt_day dt) \/ (dt_day dt <= 9 /\ day = [digit_char (dt_day dt)]) ->
  sign = 43 \/ sign = 45 -> 0 <= zh <= 23 -> 0 <= zm <= 59 ->
  head (m_format (Dd :: format_tail) f (rfc_date [] day dt (zone_text sign zh zm)))
  = Some ({| f_year := dt_year dt; f_a := f_a f;
             f_b := Some (nth (Z.to_nat (dt_month dt - 1)) month_abbr []);
             f_day := dt_day dt;
             f_hour := dt_hour dt; f_minute := dt_minute dt;
             f_second := dt_second dt;
             f_zone := Some (zone_text sign zh zm) |}, []).
Proof.
  intros Hday Hs Hh Hm. pose proof (dt_ranges dt) as (_ & _ & Hd & _).
  unfold rfc_date. cbn [app].
  destruct Hday as [-> | [Hle ->]].
  - eapply head_format_cons; [apply head_Dd; lia|].
    by rewrite (head_format_tail _ dt sign zh zm).
  - eapply head_format_cons; [apply head_Dd_one; lia|].
    by rewrite (head_format_tail _ dt sign zh zm).
Qed.

Lemma day_not_space (dt : datetime) day r :
  day = two_digits (dt_day dt) \/ (dt_day dt <= 9 /\ day = [digit_char (dt_day dt)]) ->
  m_spaces (day ++ r) = [] /\ m_names day_abbr (day ++ r) = [].
Proof.
  pose proof (dt_ranges dt) as (_ & _ & Hd & _).
  intros [-> | [Hle ->]]; cbn [two_digits app].
  - assert (0 <= dt_day dt / 10 <= 9) by (Z.div_mod_to_equations; lia).
    split; [by apply m_spaces_other, digit_char_not_space|by apply m_names_day_digit].
  - split; [apply m_spaces_other, digit_char_not_space|apply m_names_day_digit]; lia.
Qed.

(** A format that begins with the name of a day does not match a text
    that begins otherwise. *)
Lemma m_format_no_day fmt f s :
  m_names day_abbr s = [] -> m_format (Da :: fmt) f s = [].
Proof.
  intros Hs.
  change (m_format (Da :: fmt) f s)
    with (m_bind (m_directive Da f) (m_format fmt) s).
  unfold Datetime.m_directive, m_bind. by rewrite Hs.
Qed.

(** The first two formats on a date in the form of RFC 2822. *)
Lemma try_formats_rfc (dt : datetime) day_name day sign zh zm :
  day_name = [] \/ (exists w, (w < 7)%nat /\ day_name = nth w day_abbr [] ++ U ", ") ->
  day = two_digits (dt_day dt) \/ (dt_day dt <= 9 /\ day = [digit_char (dt_day dt)]) ->
  sign = 43 \/ sign = 45 -> 0 <= zh <= 23 -> 0 <= zm <= 59 ->
  try_formats unicode_decimal (rfc_date day_name day dt (zone_text sign zh zm))
    date_formats
  = Some dt.
Proof.
  intros Hname Hday Hs Hh Hm.
  destruct (zone_parses sign zh zm Hs Hh Hm) as [_ Hz].
  pose proof (head_day_tail found_default dt day sign zh zm Hday Hs Hh Hm) as Htail.
  change date_formats
    with [ Da :: Lit 44 :: Space :: Dd :: format_tail; Dd :: format_tail;
           [Da; Lit 44; Space; Dd; Space; Db; Space; DY; Space; DH; Lit 58; DM; Lit 58; DS];
           [Dd; Space; Db; Space; DY; Space; DH; Lit 58; DM; Lit 58; DS] ].
  cbn [try_formats].
  destruct Hname as [-> | (w & Hw & ->)].
  - assert (H1 : strptime (rfc_date [] day dt (zone_text sign zh zm))
                   (Da :: Lit 44 :: Space :: Dd :: format_tail) = None).
    { unfold Datetime.strptime. rewrite m_format_no_day; [done|].
      unfold rfc_date. cbn [app]. apply (day_not_space dt day _ Hday). }
    rewrite H1. rewrite (strptime_head _ _ dt None (zone_text sign zh zm)); auto.
  - rewrite (strptime_head _ _ dt (Some (nth w day_abbr [])) (zone_text sign zh zm));
      [done| |by eauto|done].
    unfold rfc_date. rewrite <- app_assoc. change (U ", ") with [44; 32]. cbn [app].
    eapply head_format_cons; [by apply head_Da|].
    eapply head_format_cons; [apply head_Lit|].
    eapply head_format_cons.
    { apply head_Space. apply (day_not_space dt day _ Hday). }
    exact (head_day_tail
             {| f_year := 1900; f_a := Some (nth w day_abbr []); f_b := None;
                f_day := 1; f_hour := 0; f_minute := 0; f_second := 0;
                f_zone := None |}
             dt day sign zh zm Hday Hs Hh Hm).
Qed.

Lemma rfc_date_length (dt : datetime) day_name day zone :
  (length day_name <= 5)%nat -> (length day <= 2)%nat -> (length zone <= 5)%nat ->
  (length (rfc_date day_name day dt zone) <= 31)%nat.
Proof.
  intros H1 H2 H3. unfold rfc_date. rewrite !length_app.
  pose proof (dt_ranges dt) as (_ & Hmo & _).
  assert (Hlen : length (nth (Z.to_nat (dt_month dt - 1)) month_abbr []) = 3%nat).
  { assert (Hi : (Z.to_nat (dt_month dt - 1) < 12)%nat) by lia.
    revert Hi. generalize (Z.to_nat (dt_month dt - 1)). intros i Hi.
    do 12 (destruct i as [|i]; [reflexivity|]). lia. }
  rewrite Hlen. cbn [length four_digits two_digits]. lia.
Qed.

End Parse.

End DateFacts.

(** X15. A [Date] field in the form of RFC 2822 (the name of a day and
    a comma, or none; the day of the month in two digits or in one; the
    month, the year, the time and an offset [+hhmm] or [-hhmm] below 24
    hours) parses under the first or the second format. The time stamp
    of the envelope line is that date and time as they are written, not
    moved by the offset, with the weekday the date has, whatever day the
    field names. *)
Theorem rfc_date_timestamp unicode_decimal now headers g (dt : datetime)
    day_name day sign zh zm :
  header_search (U "date:") headers = Some g ->
  strip g = Notions.rfc_date day_name day dt (Notions.zone_text sign zh zm) ->
  day_name = [] \/ (exists w, (w < 7)%nat /\ day_name = nth w day_abbr [] ++ U ", ") ->
  day = two_digits (dt_day dt) \/ (dt_day dt <= 9 /\ day = [digit_char (dt_day dt)]) ->
  sign = 43 \/ sign = 45 -> 0 <= zh <= 23 -> 0 <= zm <= 59 ->
  parsed_date unicode_decimal headers = Some dt
  /\ format_date unicode_decimal now headers = strftime dt.
Proof.
  intros Hg Hstrip Hname Hday Hs Hh Hm.
  assert (Hp : parsed_date unicode_decimal headers = Some dt).
  { unfold parsed_date. rewrite Hg, Hstrip. rewrite take_ge.
    - by apply DateFacts.try_formats_rfc.
    - apply DateFacts.rfc_date_length.
      + destruct Hname as [-> | (w & Hw & ->)]; [simpl; lia|].
        do 7 (destruct w as [|w]; [simpl; lia|]). lia.
      + destruct Hday as [-> | [_ ->]]; simpl; lia.
      + simpl. lia. }
  split; [done|]. unfold format_date. by rewrite Hp.
Qed.

Lemma rfc_date_timestamp_witness :
  format_date ascii_digits noon (header_text msg_leap_day)
  = U "Thu Feb 29 01:02:03 2024".
Proof.
  apply (rfc_date_timestamp ascii_digits noon (header_text msg_leap_day)
           (U "29 Feb 2024 01:02:03 -0700")
           (Build_datetime 2024 2 29 1 2 3 eq_refl) [] (U "29") 45 7 0).
  - reflexivity.
  - reflexivity.
  - by left.
  - by left.
  - by right.
  - lia.
  - lia.
Defined.

(** ** The listing of the accounts *)

Module ListingFacts.
Import Py PyFacts MboxConverter MacMailBackup SelectionFacts.

(** The numbers printed count the accounts listed so far. *)
Lemma list_accounts_numbered path_exists accounts :
  let '(valid_accounts, printed) := list_accounts path_exists accounts in
  printed = imap (fun i uuid => (S i, uuid)) valid_accounts.
Proof.
  unfold list_accounts.
  assert (H : forall valid printed,
             printed = imap (fun i uuid => (S i, uuid)) valid ->
             let '(valid', printed') :=
               foldl (fun '(valid_accounts, printed) '(uuid, path) =>
                        match path with
                        | Some p =>
                            if path_exists p then
                              let valid_accounts := valid_accounts ++ [uuid] in
                              (valid_accounts,
                               printed ++ [(length valid_accounts, uuid)])
                            else (valid_accounts, printed)
                        | None => (valid_accounts, printed)
                        end)
                     (valid, printed) accounts in
             printed' = imap (fun i uuid => (S i, uuid)) valid').
  { induction accounts as [|[uuid [p|]] accounts IH]; intros valid printed Hp;
      cbn [foldl]; [done| |by apply IH].
    destruct (path_exists p); [|by apply IH].
    apply IH. rewrite imap_app, Hp. cbn [imap]. do 3 f_equal.
    rewrite length_app. simpl. lia. }
  by apply H.
Qed.

End ListingFacts.

(** X16. The number that [list_accounts] shows before an account is
    the number that selects it: the numbers shown run from 1 upwards
    over the accounts returned, the accounts without a directory being
    passed over, and typing the number shown before an account selects
    that account and no other. *)
Theorem list_accounts_numbers unicode_decimal path_exists accounts :
  let '(valid_accounts, printed) := MacMailBackup.list_accounts path_exists accounts in
  printed.*1 = seq 1 (length valid_accounts)
  /\ printed.*2 = valid_accounts
  /\ Forall (fun '(n, uuid) =>
               MacMailBackup.select_accounts unicode_decimal
                 (byte_val <$> decimal n) valid_accounts
               = inr [uuid])
       printed.
Proof.
  pose proof (ListingFacts.list_accounts_numbered path_exists accounts) as H.
  destruct (MacMailBackup.list_accounts path_exists accounts) as [valid printed].
  subst printed. split_and!.
  - apply list_eq. intros i.
    rewrite list_lookup_fmap, list_lookup_imap.
    destruct (valid !! i) as [u|] eqn:E; simpl.
    + apply lookup_lt_Some in E. by rewrite lookup_seq_lt.
    + apply lookup_ge_None in E. by rewrite lookup_seq_ge.
  - apply list_eq. intros i.
    rewrite list_lookup_fmap, list_lookup_imap. by destruct (valid !! i).
  - apply Forall_forall. intros [n uuid] Hin.
    apply elem_of_lookup_imap_1 in Hin as (i & u & [= -> ->] & Hi).
    pose proof (SelectionFacts.select_accounts_by_numbers unicode_decimal valid [S i]
                  ltac:(done)) as Hsel.
    cbn [fmap list_fmap join_with omap list_omap] in Hsel. by rewrite Hi in Hsel.
Qed.

(** X17. What [main] does with the accounts named on the command line,
    once those that exist are listed. It asks for the accounts, with [backup.run()], exactly when neither
    [--all] nor a selection that is not empty is given. A list it hands
    to [backup.run] is never empty and holds listed accounts only: all
    of them with [--all], and with a selection the accounts that the
    selection by numbers picks. Otherwise it returns, and then with the
    exit code 1: this happens exactly when accounts are named and
    either no account is listed or, without [--all], a piece of the
    selection is no integer or no number of the selection is that of an
    account. *)
Theorem cli_selected unicode_decimal all account account_uuids :
  let act := Cli.dispatch unicode_decimal all account account_uuids in
  (act = Cli.Run None <-> all = false /\ (account = None \/ account = Some []))
  /\ (forall selected,
        act = Cli.Run (Some selected) ->
        selected <> [] /\ Forall (fun u => u ∈ account_uuids) selected
        /\ (all = true -> selected = account_uuids)
        /\ (all = false ->
            exists choice,
              account = Some choice
              /\ MacMailBackup.select_accounts unicode_decimal choice account_uuids
                 = inr selected))
  /\ (forall code, act = Cli.Return code -> code = 1)
  /\ (act = Cli.Return 1 <->
      (all = true \/ exists choice, account = Some choice /\ choice <> [])
      /\ (account_uuids = []
          \/ all = false
             /\ forall choice,
                  account = Some choice ->
                  match MacMailBackup.selected_indices unicode_decimal choice with
                  | None => True
                  | Some indices =>
                      Forall (fun i => ~ (0 <= i < Z.of_nat (length account_uuids)))
                             indices
                  end)).
Proof.
  cbv zeta. unfold Cli.dispatch.
  destruct all; cbn [orb].
  - destruct account_uuids as [|u us].
    + split_and!; [split; [done|by intros [? _]]|done|by intros code [= <-]|].
      split; [intros _; split; by left|done].
    + split_and!; [split; [done|by intros [? _]]| |done|].
      * intros selected [= <-]. split_and!; [done| |done|done].
        apply Forall_forall. by intros x Hx.
      * split; [done|]. intros [_ [?|[? _]]]; done.
  - destruct account as [[|c choice]|]; cbn [Cli.given].
    + split_and!; [split; [by auto|done]|done|done|].
      split; [done|]. intros [[?|(choice & [= <-] & ?)] _]; done.
    + cbn [from_option id]. destruct account_uuids as [|u us].
      { split_and!; [split; [done|by intros [_ [?|?]]]|done|by intros code [= <-]|].
        split; [intros _|done]. split; [right; by eexists|by left]. }
      unfold MacMailBackup.select_accounts.
      destruct (MacMailBackup.selected_indices unicode_decimal (c :: choice)) as [indices|] eqn:E.
      2:{ split_and!; [split; [done|by intros [_ [?|?]]]|done|by intros code [= <-]|].
          split; [intros _|done]. split; [right; by eexists|right].
          split; [done|]. intros ? [= <-]. by rewrite E. }
      rewrite SelectionFacts.picks_in_range.
      pose proof (SelectionFacts.picks_none (u :: us) indices) as Hnone.
      destruct (omap _ indices) as [|s sel] eqn:Es.
      { split_and!; [split; [done|by intros [_ [?|?]]]|done|by intros code [= <-]|].
        split; [intros _|done]. split; [right; by eexists|right].
        split; [done|]. intros ? [= <-]. rewrite E. by apply Hnone. }
      split_and!; [split; [done|by intros [_ [?|?]]]| |done|].
      * intros selected [= <-]. split_and!; [done| |done|].
        -- rewrite <- Es. apply Forall_forall. intros x Hx.
           apply list_elem_of_omap in Hx as (i & _ & Hi).
           destruct (0 <=? i); [|done]. by eapply list_elem_of_lookup_2.
        -- intros _. exists (c :: choice). split; [done|].
           unfold MacMailBackup.select_accounts. by rewrite E, SelectionFacts.picks_in_range, Es.
      * split; [done|]. intros [_ [?|[_ Hall]]]; [done|].
        specialize (Hall _ eq_refl). rewrite E in Hall. by apply Hnone in Hall.
    + split_and!; [split; [by auto|done]|done|done|].
      split; [done|]. intros [[?|(choice & ? & ?)] _]; done.
Qed.

Lemma cli_selected_witness :
  Cli.dispatch ascii_digits false (Some (U "7")) [U "A"] = Cli.Return 1
  /\ Cli.dispatch ascii_digits false (Some (U "1,x")) [U "A"] = Cli.Return 1
  /\ Cli.dispatch ascii_digits false (Some []) [U "A"] = Cli.Run None.
Proof.
  split_and!.
  - apply (cli_selected ascii_digits false (Some (U "7")) [U "A"]).
    split; [right; by eexists|right]. split; [done|].
    intros choice [= <-].
    change (MacMailBackup.selected_indices ascii_digits (U "7")) with (Some [6]).
    constructor; [simpl; lia|constructor].
  - apply (cli_selected ascii_digits false (Some (U "1,x")) [U "A"]).
    split; [right; by eexists|right]. split; [done|].
    intros choice [= <-]. by vm_compute.
  - apply (cli_selected ascii_digits false (Some []) [U "A"]). auto.
Defined.

(** ** The version of the Mail data *)

Module VersionFacts.
Import Py PyFacts Datetime MboxConverter MacMailBackup SelectionFacts.

(** The first element of a list sorted from the greatest key down is
    one of the list, and no key is greater than its key. *)
Lemma sorted_desc_head {A} (l : list (A * Z)) :
  match sorted_desc l with
  | [] => l = []
  | h :: _ => h ∈ l /\ Forall (fun y => y.2 <= h.2) l
  end.
Proof.
  induction l as [|x l IH]; [done|].
  unfold sorted_desc in *. cbn [foldr].
  destruct (foldr insert_desc [] l) as [|h t]; cbn [insert_desc].
  - subst l. split; [left|]. by repeat constructor.
  - destruct IH as [Hh Hall]. destruct (Z.leb_spec h.2 x.2).
    + split; [left|]. constructor; [done|].
      eapply Forall_impl; [exact Hall|]. intros y Hy. simpl in Hy. lia.
    + split; [by right|]. constructor; [lia|done].
Qed.

Lemma zip_keys {A} (f : A -> option Z) l keys :
  Forall2 (fun x k => f x = Some k) l keys ->
  (forall p, p ∈ zip l keys -> p.1 ∈ l /\ f p.1 = Some p.2)
  /\ (forall x, x ∈ l -> exists k, (x, k) ∈ zip l keys).
Proof.
  induction 1 as [|x k l keys Hx _ [IH1 IH2]].
  - split; intros ? Hin; by apply elem_of_nil in Hin.
  - split.
    + intros p Hin. cbn [zip zip_with] in Hin.
      apply elem_of_cons in Hin as [->|Hin]; [split; [left|done]|].
      destruct (IH1 p Hin). split; [by right|done].
    + intros y Hin. apply elem_of_cons in Hin as [->|Hin].
      * exists k. left.
      * destruct (IH2 y Hin) as [k' Hk']. exists k'. by right.
Qed.

Section Version.
Variable unicode_decimal : Z -> option Z.
Variable unicode_isdigit : Z -> bool.
Local Abbreviation version_key := (version_key unicode_decimal unicode_isdigit).
Local Abbreviation find_mail_version :=
  (find_mail_version unicode_decimal unicode_isdigit).

Lemma elem_of_candidates (entries : list (pystr * bool)) name :
  name ∈ fst <$> List.filter (fun d => d.2 && startswith [86] d.1) entries
  <-> (name, true) ∈ entries /\ startswith [86] name = true.
Proof.
  rewrite list_elem_of_fmap. split.
  - intros ([n d] & -> & Hin). apply list_elem_of_In, filter_In in Hin as [Hin Hd].
    apply list_elem_of_In in Hin. cbn [fst snd] in *.
    apply andb_true_iff in Hd as [-> Hv]. done.
  - intros [Hin Hv]. exists (name, true). split; [done|].
    apply list_elem_of_In, filter_In. split; [by apply list_elem_of_In|done].
Qed.

Lemma find_mail_version_cases mail_dir :
  match find_mail_version mail_dir with
  | inr version =>
      exists entries key,
        mail_dir = Some entries
        /\ ((version, true) ∈ entries) /\ startswith [86] version = true
        /\ version_key version = Some key
        /\ forall name,
             (name, true) ∈ entries -> startswith [86] name = true ->
             exists k, version_key name = Some k /\ k <= key
  | inl FileNotFoundError =>
      mail_dir = None
      \/ exists entries,
           mail_dir = Some entries
           /\ forall name, (name, true) ∈ entries -> startswith [86] name = false
  | inl ValueError =>
      exists entries name,
        mail_dir = Some entries
        /\ ((name, true) ∈ entries) /\ startswith [86] name = true
        /\ version_key name = None
  | inl IndexError => False
  end.
Proof.
  unfold MacMailBackup.find_mail_version.
  destruct mail_dir as [entries|]; [|by left].
  set (candidates := fst <$> List.filter _ entries).
  destruct (mapM version_key candidates) as [keys|] eqn:E.
  - apply mapM_Some_1 in E.
    pose proof (sorted_desc_head (zip candidates keys)) as Hhead.
    destruct (sorted_desc (zip candidates keys)) as [|[version key] t].
    + right. exists entries. split; [done|]. intros name Hname.
      destruct (startswith [86] name) eqn:Hv; [|done].
      assert (Hc : name ∈ candidates) by (by apply elem_of_candidates).
      destruct candidates; [by apply elem_of_nil in Hc|].
      by inversion E; subst.
    + destruct Hhead as [Hin Hall]. destruct (zip_keys _ _ _ E) as [Hz1 Hz2].
      destruct (Hz1 _ Hin) as [Hc Hk]. cbn [fst snd] in Hc, Hk.
      apply elem_of_candidates in Hc as [Hc1 Hc2].
      exists entries, key. split_and!; [done..|].
      intros name Hn1 Hn2.
      assert (Hname : name ∈ candidates) by (by apply elem_of_candidates).
      destruct (Hz2 name Hname) as [k Hk'].
      exists k. split; [by destruct (Hz1 _ Hk')|].
      rewrite Forall_forall in Hall. by apply (Hall (name, k)).
  - apply mapM_None_1, Exists_exists in E as (name & Hin & Hnone).
    apply elem_of_candidates in Hin as [Hin1 Hin2].
    by exists entries, name.
Qed.

(** The key of a directory called [V] and a number is the number. *)
Lemma version_key_number (n : nat) :
  version_key (86 :: (byte_val <$> decimal n)) = Some (Z.of_nat n).
Proof.
  unfold MacMailBackup.version_key. cbn [drop]. rewrite drop_0.
  destruct (decimal_spec n) as (Hd & Hne & _).
  assert (Hdigit : isdigit unicode_isdigit (byte_val <$> decimal n) = true).
  { unfold isdigit. apply andb_true_iff. split.
    - rewrite bool_decide_eq_false_2; [done|]. by destruct (decimal n).
    - apply forallb_forall. intros c Hc.
      apply list_elem_of_In, list_elem_of_fmap in Hc as (b & -> & Hb).
      rewrite Forall_forall in Hd. specialize (Hd b Hb). cbv beta in Hd.
      destruct (Z.ltb_spec (byte_val b) 128); [|lia]. zbool. }
  rewrite Hdigit. rewrite <- (int_decimal_text unicode_decimal n). f_equal.
  symmetry. apply strip_id, Forall_fmap. eapply Forall_impl; [exact Hd|].
  intros b Hb. by apply digit_not_space.
Qed.


End Version.

End VersionFacts.

(** X18. [find_mail_version] chooses a directory whose name begins with
    [V], and none of these directories has a greater key than the one
    chosen: the key is the number after the [V], and 0 when what comes
    after the [V] is not made of digits. It raises [FileNotFoundError]
    exactly when the directory of Mail is missing or holds no such
    directory, and [ValueError] only when [int] refuses what
    [isdigit] accepts. *)
Theorem find_mail_version_chooses unicode_decimal unicode_isdigit mail_dir :
  match MacMailBackup.find_mail_version unicode_decimal unicode_isdigit mail_dir with
  | inr version =>
      exists entries key,
        mail_dir = Some entries
        /\ ((version, true) ∈ entries) /\ startswith [86] version = true
        /\ MacMailBackup.version_key unicode_decimal unicode_isdigit version = Some key
        /\ forall name,
             (name, true) ∈ entries -> startswith [86] name = true ->
             exists k,
               MacMailBackup.version_key unicode_decimal unicode_isdigit name = Some k
               /\ k <= key
  | inl MacMailBackup.FileNotFoundError =>
      mail_dir = None
      \/ exists entries,
           mail_dir = Some entries
           /\ forall name, (name, true) ∈ entries -> startswith [86] name = false
  | inl MacMailBackup.ValueError =>
      exists entries name,
        mail_dir = Some entries
        /\ ((name, true) ∈ entries) /\ startswith [86] name = true
        /\ MacMailBackup.version_key unicode_decimal unicode_isdigit name = None
  | inl MacMailBackup.IndexError => False
  end.
Proof. apply VersionFacts.find_mail_version_cases. Qed.

(** X19. When the directories whose name begins with [V] are called
    [V] and a number, [find_mail_version] chooses the one with the
    greatest number, by the value of the number and not by its text:
    [V10] before [V9]. *)
Theorem find_mail_version_newest unicode_decimal unicode_isdigit entries :
  (exists name, (name, true) ∈ entries /\ startswith [86] name = true) ->
  (forall name,
     (name, true) ∈ entries -> startswith [86] name = true ->
     exists n : nat, name = U "V" ++ (byte_val <$> decimal n)) ->
  exists n : nat,
    MacMailBackup.find_mail_version unicode_decimal unicode_isdigit (Some entries)
    = inr (U "V" ++ (byte_val <$> decimal n))
    /\ ((U "V" ++ (byte_val <$> decimal n), true) ∈ entries)
    /\ forall m : nat,
         (U "V" ++ (byte_val <$> decimal m), true) ∈ entries -> (m <= n)%nat.
Proof.
  intros (name0 & Hin0 & Hv0) Hnum.
  pose proof (VersionFacts.find_mail_version_cases unicode_decimal unicode_isdigit
                (Some entries)) as H.
  destruct (MacMailBackup.find_mail_version _ _ _) as [[| |]|version].
  - destruct H as (entries' & name & [= <-] & Hin & Hv & Hkey).
    destruct (Hnum name Hin Hv) as [n ->].
    change (U "V" ++ (byte_val <$> decimal n)) with (86 :: (byte_val <$> decimal n)) in Hkey.
    by rewrite VersionFacts.version_key_number in Hkey.
  - done.
  - destruct H as [H|(entries' & [= <-] & Hno)]; [done|].
    by rewrite (Hno name0 Hin0) in Hv0.
  - destruct H as (entries' & key & [= <-] & Hin & Hv & Hkey & Hmax).
    destruct (Hnum version Hin Hv) as [n ->]. exists n. split_and!; [done..|].
    intros m Hm. destruct (Hmax _ Hm eq_refl) as (k & Hk & Hle).
    change (U "V" ++ (byte_val <$> decimal n)) with (86 :: (byte_val <$> decimal n)) in Hkey.
    change (U "V" ++ (byte_val <$> decimal m)) with (86 :: (byte_val <$> decimal m)) in Hk.
    rewrite VersionFacts.version_key_number in Hkey, Hk.
    injection Hkey as <-. injection Hk as <-. lia.
Qed.

Lemma find_mail_version_newest_witness :
  exists n : nat,
    MacMailBackup.find_mail_version ascii_digits (fun _ => false)
      (Some [(U "V9", true); (U "MailData", true); (U "V10", true); (U "V11", false)])
    = inr (U "V" ++ (byte_val <$> decimal n))
    /\ ((U "V" ++ (byte_val <$> decimal n), true)
        ∈ [(U "V9", true); (U "MailData", true); (U "V10", true); (U "V11", false)])
    /\ forall m : nat,
         (U "V" ++ (byte_val <$> decimal m), true)
         ∈ [(U "V9", true); (U "MailData", true); (U "V10", true); (U "V11", false)] ->
         (m <= n)%nat.
Proof.
  apply (find_mail_version_newest ascii_digits (fun _ => false)
           [(U "V9", true); (U "MailData", true); (U "V10", true); (U "V11", false)]).
  - exists (U "V9"). split; [left|reflexivity].
  - intros name Hin Hv.
    repeat (apply elem_of_cons in Hin as [Hin|Hin]);
      try (by apply elem_of_nil in Hin); injection Hin as ->; try discriminate.
    + by exists 9%nat.
    + by exists 10%nat.
Defined.
